(** * Loan amortisation (Price system) and current / non-current classification

    A shallow embedding of [emprestimo.py]: [calcular_parcela],
    [gerar_tabela_amortizacao], [analisar_prazo_contabil] and the column sums
    taken over the two buckets.

    The Python functions are duck-typed over their numbers.  The embedding
    therefore takes the arithmetic as an interface ([Number]) and provides the
    two number types of interest: [fractions.Fraction] (exact rationals) and
    [float] (IEEE-754 binary64, which is what the Streamlit form passes). *)

From Stdlib Require Import ZArith QArith Qpower Qabs Floats DecimalString.
From Stdlib Require Import List String Ascii Bool Lia Lqa Permutation Sorted.
Import ListNotations.

Set Warnings "-inexact-float".
Local Open Scope Z_scope.

(** ** Exceptions and results *)

(** The exceptions the modelled code can raise.  The source defines no
    exception class of its own and has no [raise] statement: every exception
    comes from an arithmetic operator, from indexing a frame, or from parsing
    a date. *)
Inductive exn : Type :=
| ZeroDivisionError
| OverflowError
| KeyError
| ValueError.

Inductive result (A : Type) : Type :=
| Ok (a : A)
| Raise (e : exn).

Arguments Ok {A} a.
Arguments Raise {A} e.

Definition bind {A B : Type} (r : result A) (k : A -> result B) : result B :=
  match r with
  | Ok a => k a
  | Raise e => Raise e
  end.

Notation "x <- r ;; k" := (bind r (fun x => k))
  (at level 61, r at next level, right associativity).

Definition is_ok {A : Type} (r : result A) : bool :=
  match r with Ok _ => true | Raise _ => false end.

Fixpoint mapM {A B : Type} (f : A -> result B) (l : list A) : result (list B) :=
  match l with
  | [] => Ok []
  | a :: l' => b <- f a ;; bs <- mapM f l' ;; Ok (b :: bs)
  end.

(** ** The arithmetic the source applies to its numbers *)

(** [lit n] is the integer literal [n] used as an operand, [of_int n] the
    coercion of a run-time [int] (it can overflow for [float]), [truediv] is
    [/] and [pow] is [**] with an [int] exponent; [eqb] is [==].
    [column_sum] is [Series.sum()] on a column of such numbers, which pandas
    computes according to the column's dtype. *)
Class Number (T : Type) : Type := {
  lit : Z -> T;
  of_int : Z -> result T;
  add : T -> T -> T;
  sub : T -> T -> T;
  mul : T -> T -> T;
  truediv : T -> T -> result T;
  pow : T -> Z -> result T;
  eqb : T -> T -> bool;
  column_sum : list T -> T
}.

(** *** [fractions.Fraction] *)

Definition Fraction_truediv (x y : Q) : result Q :=
  if Qeq_bool y 0 then Raise ZeroDivisionError else Ok (Qred (x / y)).

Definition Fraction_pow (x : Q) (n : Z) : result Q :=
  if (n <? 0) && Qeq_bool x 0 then Raise ZeroDivisionError
  else Ok (Qred (x ^ n)).

(** The sum of an [object] column: the cells are added with [+] from left
    to right, starting from the first one; an empty column gives [0]. *)
Definition object_sum (l : list Q) : Q :=
  match l with
  | [] => inject_Z 0
  | x :: rest => fold_left (fun a b => Qred (a + b)) rest x
  end.

(** A [Fraction] is kept in lowest terms by every operation. *)
#[export] Instance Fraction : Number Q := {|
  lit := inject_Z;
  of_int := fun n => Ok (inject_Z n);
  add := fun x y => Qred (x + y);
  sub := fun x y => Qred (x - y);
  mul := fun x y => Qred (x * y);
  truediv := Fraction_truediv;
  pow := Fraction_pow;
  eqb := Qeq_bool;
  column_sum := object_sum
|}.

(** *** [float] *)

(** [float(n)] for a Python [int]: rounded to nearest, ties to even. *)
Definition float_of_Z (n : Z) : float :=
  SF2Prim (binary_normalize prec emax n 0 false).

Definition float_is_inf (x : float) : bool :=
  PrimFloat.eqb (PrimFloat.abs x) infinity.

Definition float_is_nan (x : float) : bool :=
  negb (PrimFloat.eqb x x).

(** An [int] operand of a float operation is converted first; CPython raises
    [OverflowError] when it is too large for a double. *)
Definition float_of_int (n : Z) : result float :=
  let x := float_of_Z n in
  if float_is_inf x then Raise OverflowError else Ok x.

(** [float.__truediv__]: a zero divisor raises, everything else is IEEE. *)
Definition float_truediv (x y : float) : result float :=
  if PrimFloat.eqb y 0%float then Raise ZeroDivisionError
  else Ok (PrimFloat.div x y).

(** The value of a float that holds an integer. *)
Definition Z_of_integral (y : float) : Z :=
  match Prim2SF y with
  | S754_finite s m e =>
      let a := Z.shiftl (Z.pos m) e in if s then - a else a
  | _ => 0
  end.

(** C's [pow] for a finite positive base and a non-zero integral exponent, the
    only arguments [float_pow] hands over to it.  The platform's libm is not
    part of the program; this reference takes the power to be the exact one
    rounded to nearest (for a negative exponent, the reciprocal of that). *)
Definition pow_nearest (x y : float) : float :=
  match Prim2SF x with
  | S754_finite false m e =>
      let n := Z_of_integral y in
      if 0 <=? n
      then SF2Prim (binary_normalize prec emax (Z.pos m ^ n) (e * n) false)
      else PrimFloat.div 1%float
             (SF2Prim (binary_normalize prec emax (Z.pos m ^ (- n)) (e * (- n)) false))
  | _ => nan
  end.

(** [float.__pow__] with an [int] exponent, after CPython's [float_pow]: the
    special cases are settled before libm is consulted, and a result libm
    reports as out of range becomes [OverflowError]. *)
Definition float_pow_with (libm_pow : float -> float -> float)
    (iv : float) (n : Z) : result float :=
  iw <- float_of_int n ;;
  let iw_is_odd := Z.odd (Z_of_integral iw) in
  if PrimFloat.eqb iw 0%float then Ok 1%float
  else if float_is_nan iv then Ok iv
  else if float_is_inf iv then
    if PrimFloat.ltb 0%float iw
    then Ok (if iw_is_odd then iv else PrimFloat.abs iv)
    else Ok (if iw_is_odd then PrimFloat.div 1%float iv else 0%float)
  else if PrimFloat.eqb iv 0%float then
    if PrimFloat.ltb iw 0%float then Raise ZeroDivisionError
    else Ok (if iw_is_odd then iv else 0%float)
  else
    let negate_result := PrimFloat.ltb iv 0%float && iw_is_odd in
    let iv := PrimFloat.abs iv in
    if PrimFloat.eqb iv 1%float
    then Ok (if negate_result then (-1)%float else 1%float)
    else
      let ix := libm_pow iv iw in
      if float_is_inf ix then Raise OverflowError
      else Ok (if negate_result then PrimFloat.opp ix else ix).

(** The sum of a [float64] column, as numpy's [add.reduce] computes it
    (pairwise summation).  Fewer than eight cells are added one after the
    other; up to 128 cells go to eight accumulators, cell [i] to accumulator
    [i mod 8], which are then added two by two, the cells left over after the
    last complete group of eight being added at the end; a longer column is
    cut in two, the first part a multiple of eight long, and the sums of the
    parts are added. *)
Definition add_cells (r cells : list float) : list float :=
  map (fun p => PrimFloat.add (fst p) (snd p)) (combine r cells).

Fixpoint pairwise_groups (fuel : nat) (r l : list float)
  : list float * list float :=
  match fuel with
  | O => (r, l)
  | S fuel' =>
      if (8 <=? List.length l)%nat
      then pairwise_groups fuel' (add_cells r (firstn 8 l)) (skipn 8 l)
      else (r, l)
  end.

Definition pairwise_block (l : list float) : float :=
  let '(r, resto) :=
    pairwise_groups (List.length l) (firstn 8 l) (skipn 8 l) in
  match r with
  | [r0; r1; r2; r3; r4; r5; r6; r7] =>
      fold_left PrimFloat.add resto
        (((r0 + r1) + (r2 + r3)) + ((r4 + r5) + (r6 + r7)))%float
  | _ => nan
  end.

Fixpoint pairwise_sum (fuel : nat) (l : list float) : float :=
  let n := List.length l in
  if (n <? 8)%nat then fold_left PrimFloat.add l 0%float
  else if (n <=? 128)%nat then pairwise_block l
  else
    match fuel with
    | O => 0%float
    | S fuel' =>
        let n2 := (n / 2)%nat in
        let n2 := (n2 - n2 mod 8)%nat in
        PrimFloat.add (pairwise_sum fuel' (firstn n2 l))
                      (pairwise_sum fuel' (skipn n2 l))
    end.

(** [Series.sum()] on a [float64] column: a missing cell ([nan]) counts as
    zero, and the pairwise sum of the cells is added to the initial [0.0]. *)
Definition float64_sum (l : list float) : float :=
  PrimFloat.add 0%float
    (pairwise_sum (List.length l)
       (map (fun x => if float_is_nan x then 0%float else x) l)).

Definition binary64_with (libm_pow : float -> float -> float) : Number float := {|
  lit := float_of_Z;
  of_int := float_of_int;
  add := PrimFloat.add;
  sub := PrimFloat.sub;
  mul := PrimFloat.mul;
  truediv := float_truediv;
  pow := float_pow_with libm_pow;
  eqb := PrimFloat.eqb;
  column_sum := float64_sum
|}.

Definition binary64 : Number float := binary64_with pow_nearest.

(** ** Calendar: [pd.Timestamp], [pd.DateOffset(months=n)], [strftime], [to_datetime] *)

(** A timestamp is a calendar day and the time elapsed since midnight.  Its
    year lies between 1 and 9999, the range of Python's [datetime]; an
    operation whose result would leave that range raises [ValueError]. *)
Record Timestamp : Type := {
  year : Z;
  month : Z;
  day : Z;
  nanos : Z
}.

Definition is_leap (y : Z) : bool :=
  ((y mod 4 =? 0) && negb (y mod 100 =? 0)) || (y mod 400 =? 0).

Definition days_in_month (y m : Z) : Z :=
  if m =? 2 then (if is_leap y then 29 else 28)
  else if (m =? 4) || (m =? 6) || (m =? 9) || (m =? 11) then 30
  else 31.

(** The fields [relativedelta(months=n)] computes from those of [t]: the
    month is advanced, the year carried, and a day that does not exist in the
    target month becomes that month's last day; the time of day is kept. *)
Definition relativedelta_months (t : Timestamp) (n : Z) : Timestamp :=
  let total := year t * 12 + (month t - 1) + n in
  let y := total / 12 in
  let m := total mod 12 + 1 in
  {| year := y; month := m;
     day := Z.min (day t) (days_in_month y m);
     nanos := nanos t |}.

(** [t + pd.DateOffset(months=n)]: the timestamp with the fields above, or
    [ValueError] when their year is not one a timestamp can have. *)
Definition DateOffset_months (t : Timestamp) (n : Z) : result Timestamp :=
  let t' := relativedelta_months t n in
  if (1 <=? year t') && (year t' <=? 9999) then Ok t' else Raise ValueError.

Definition Timestamp_compare (a b : Timestamp) : comparison :=
  match year a ?= year b with
  | Eq =>
      match month a ?= month b with
      | Eq =>
          match day a ?= day b with
          | Eq => nanos a ?= nanos b
          | c => c
          end
      | c => c
      end
  | c => c
  end.

(** [a <= b] and [a > b] on timestamps. *)
Definition Timestamp_leb (a b : Timestamp) : bool :=
  match Timestamp_compare a b with Gt => false | _ => true end.

Definition Timestamp_gtb (a b : Timestamp) : bool :=
  match Timestamp_compare a b with Gt => true | _ => false end.

Definition digit_char (n : Z) : ascii :=
  ascii_of_nat (48 + Z.to_nat (n mod 10)).

Definition digit_val (c : ascii) : option Z :=
  let n := Z.of_nat (nat_of_ascii c) in
  if (48 <=? n) && (n <=? 57) then Some (n - 48) else None.

(** [%Y]: the year in decimal, without leading zeros (it has one to four
    digits). *)
Definition year_digits (y : Z) : string :=
  if y <? 10 then String (digit_char y) EmptyString
  else if y <? 100 then
    String (digit_char (y / 10)) (String (digit_char y) EmptyString)
  else if y <? 1000 then
    String (digit_char (y / 100)) (String (digit_char (y / 10))
    (String (digit_char y) EmptyString))
  else
    String (digit_char (y / 1000)) (String (digit_char (y / 100))
    (String (digit_char (y / 10)) (String (digit_char y) EmptyString))).

(** [t.strftime('%d/%m/%Y')]: day and month on two digits, the year as
    [%Y] writes it; the time of day is dropped. *)
Definition strftime_dmY (t : Timestamp) : string :=
  String (digit_char (day t / 10)) (String (digit_char (day t))
  (String "/"
  (String (digit_char (month t / 10)) (String (digit_char (month t))
  (String "/" (year_digits (year t))))))).

Definition valid_day (y m d : Z) : bool :=
  (1 <=? m) && (m <=? 12) && (1 <=? d) && (d <=? days_in_month y m).

(** [%d/] and [%m/]: one or two decimal digits and the separator; the
    number read and the text after the separator. *)
Definition read_dm (s : string) : option (Z * string) :=
  match s with
  | String a (String b rest) =>
      match digit_val a with
      | Some x =>
          if Ascii.eqb b "/" then Some (x, rest)
          else
            match digit_val b, rest with
            | Some y, String c rest' =>
                if Ascii.eqb c "/" then Some (10 * x + y, rest') else None
            | _, _ => None
            end
      | None => None
      end
  | _ => None
  end.

(** [%Y] at the end of the text: exactly four decimal digits. *)
Definition read_Y (s : string) : option Z :=
  match s with
  | String y1 (String y2 (String y3 (String y4 EmptyString))) =>
      match digit_val y1, digit_val y2, digit_val y3, digit_val y4 with
      | Some c1, Some c2, Some c3, Some c4 =>
          Some (1000 * c1 + 100 * c2 + 10 * c3 + c4)
      | _, _, _, _ => None
      end
  | _ => None
  end.

(** [pd.to_datetime(s, format='%d/%m/%Y')] on one cell of ASCII text:
    midnight of the day written in [s].  A cell that does not have the
    format's shape, or that names a day the calendar does not have, is
    reported as [ValueError]. *)
Definition to_datetime_dmY (s : string) : result Timestamp :=
  match read_dm s with
  | Some (d, s1) =>
      match read_dm s1 with
      | Some (m, s2) =>
          match read_Y s2 with
          | Some y =>
              if (1 <=? y) && valid_day y m d
              then Ok {| year := y; month := m; day := d; nanos := 0 |}
              else Raise ValueError
          | None => Raise ValueError
          end
      | None => Raise ValueError
      end
  | None => Raise ValueError
  end.

(** ** The amortisation engine *)

(** [range(lo, hi)] *)
Definition range (lo hi : Z) : list Z :=
  map (fun k => lo + Z.of_nat k) (seq 0 (Z.to_nat (hi - lo))).

Section Engine.

Context {T : Type} `{Number T}.

(** One dict appended to [tabela]. *)
Record Row : Type := {
  Parcela : Z;
  Data : string;
  Prestacao : T;
  Juros : T;
  Amortizacao : T;
  Saldo_Devedor : T
}.

(** [pd.DataFrame(tabela)]: the columns are the keys of the dicts, so the
    frame built from an empty list has no column at all. *)
Inductive DataFrame : Type :=
| NoColumns
| Table (rows : list Row).

Definition DataFrame_of_records (tabela : list Row) : DataFrame :=
  match tabela with
  | [] => NoColumns
  | _ :: _ => Table tabela
  end.

(** [taxa_juros_anual / 12 / 100] *)
Definition taxa_mensal_de (taxa_juros_anual : T) : result T :=
  t <- truediv taxa_juros_anual (lit 12) ;;
  truediv t (lit 100).

Definition calcular_parcela (principal taxa_juros_anual : T) (prazo_meses : Z)
  : result T :=
  taxa_mensal <- taxa_mensal_de taxa_juros_anual ;;
  if eqb taxa_mensal (lit 0) then
    n <- of_int prazo_meses ;;
    truediv principal n
  else
    p1 <- pow (add (lit 1) taxa_mensal) prazo_meses ;;
    let numerador := mul principal (mul taxa_mensal p1) in
    p2 <- pow (add (lit 1) taxa_mensal) prazo_meses ;;
    truediv numerador (sub p2 (lit 1)).

(** [for i in is_: st = corpo(st, i)].  The loop stops at the first
    iteration that raises; the state reached by then comes back with the
    outcome. *)
Fixpoint for_each {S : Type} (corpo : S -> Z -> result S) (is_ : list Z)
    (st : S) : S * result unit :=
  match is_ with
  | [] => (st, Ok tt)
  | i :: is' =>
      match corpo st i with
      | Ok st' => for_each corpo is' st'
      | Raise e => (st, Raise e)
      end
  end.

(** The body of the [for] loop, on the loop state
    [(saldo_devedor, tabela)].  Its first statement is the only one that
    can raise; nothing has been assigned or appended by then. *)
Definition passo (taxa_mensal parcela : T) (prazo_meses : Z)
    (data_inicio : Timestamp) (st : T * list Row) (i : Z)
  : result (T * list Row) :=
  let '(saldo_devedor, tabela) := st in
  data_parcela <- DateOffset_months data_inicio i ;;
  let juros := mul saldo_devedor taxa_mensal in
  let amortizacao := sub parcela juros in
  let saldo_devedor := sub saldo_devedor amortizacao in
  let '(amortizacao, saldo_devedor) :=
    if i =? prazo_meses
    then (add amortizacao saldo_devedor, lit 0)
    else (amortizacao, saldo_devedor) in
  Ok (saldo_devedor,
      tabela ++ [ {| Parcela := i;
                     Data := strftime_dmY data_parcela;
                     Prestacao := parcela;
                     Juros := juros;
                     Amortizacao := amortizacao;
                     Saldo_Devedor := saldo_devedor |} ]).

(** [gerar_tabela_amortizacao], together with the rows that had been
    appended to [tabela] when control left the function. *)
Definition gerar_tabela_amortizacao_rows (principal taxa_juros_anual : T)
    (prazo_meses : Z) (data_inicio : Timestamp)
  : list Row * result DataFrame :=
  match taxa_mensal_de taxa_juros_anual with
  | Raise e => ([], Raise e)
  | Ok taxa_mensal =>
      match calcular_parcela principal taxa_juros_anual prazo_meses with
      | Raise e => ([], Raise e)
      | Ok parcela =>
          let '((_, tabela), fim) :=
            for_each (passo taxa_mensal parcela prazo_meses data_inicio)
                     (range 1 (prazo_meses + 1)) (principal, []) in
          (tabela, _ <- fim ;; Ok (DataFrame_of_records tabela))
      end
  end.

Definition gerar_tabela_amortizacao (principal taxa_juros_anual : T)
    (prazo_meses : Z) (data_inicio : Timestamp) : result DataFrame :=
  snd (gerar_tabela_amortizacao_rows principal taxa_juros_anual
         prazo_meses data_inicio).

(** ** The maturity classifier *)

(** A row of [df_com_data]: the schedule row and its [Data_dt] cell. *)
Record RowDt : Type := {
  row : Row;
  Data_dt : Timestamp
}.

Definition com_data (r : Row) : result RowDt :=
  d <- to_datetime_dmY (Data r) ;;
  Ok {| row := r; Data_dt := d |}.

Definition analisar_prazo_contabil (df : DataFrame) (data_base : Timestamp)
  : result (list RowDt * list RowDt) :=
  data_limite <- DateOffset_months data_base 12 ;;
  match df with
  | NoColumns => Raise KeyError
  | Table rows =>
      df_com_data <- mapM com_data rows ;;
      let curto_prazo :=
        filter (fun r => Timestamp_leb (Data_dt r) data_limite) df_com_data in
      let longo_prazo :=
        filter (fun r => Timestamp_gtb (Data_dt r) data_limite) df_com_data in
      Ok (curto_prazo, longo_prazo)
  end.

(** [column.sum()] *)
Definition soma (xs : list T) : T := column_sum xs.

(** [bucket['Amortização'].sum()] and [bucket['Juros'].sum()] *)
Definition soma_amortizacao (bucket : list RowDt) : T :=
  soma (map (fun r => Amortizacao (row r)) bucket).

Definition soma_juros (bucket : list RowDt) : T :=
  soma (map (fun r => Juros (row r)) bucket).

(** *** Closed form of the loop, used by the proofs *)

Section Loop.

Variables (principal taxa_mensal parcela : T).
Variable prazo_meses : Z.
Variable data_inicio : Timestamp.

(** The running balance after [k] iterations without the final
    correction. *)
Fixpoint saldo_apos (k : nat) : T :=
  match k with
  | O => principal
  | S k' =>
      let s := saldo_apos k' in
      sub s (sub parcela (mul s taxa_mensal))
  end.

(** The row appended by iteration [i], when it raises nothing. *)
Definition linha (i : Z) : Row :=
  let s := saldo_apos (Z.to_nat (i - 1)) in
  let juros := mul s taxa_mensal in
  let amortizacao := sub parcela juros in
  let s' := sub s amortizacao in
  {| Parcela := i;
     Data := strftime_dmY (relativedelta_months data_inicio i);
     Prestacao := parcela;
     Juros := juros;
     Amortizacao := if i =? prazo_meses then add amortizacao s' else amortizacao;
     Saldo_Devedor := if i =? prazo_meses then lit 0 else s' |}.

End Loop.

End Engine.

Arguments Row T : clear implicits.
Arguments RowDt T : clear implicits.
Arguments DataFrame T : clear implicits.

(** ** Currency display *)

(** [s[n:]] *)
Fixpoint drop (n : nat) (s : string) : string :=
  match n, s with
  | O, _ => s
  | S n', String _ rest => drop n' rest
  | S _, EmptyString => EmptyString
  end.

(** [s.replace(old, new)] for a non-empty [old]: occurrences are replaced
    from left to right and do not overlap.  [fuel] bounds the scan. *)
Fixpoint replace_from (fuel : nat) (old new s : string) : string :=
  match fuel with
  | O => s
  | S fuel' =>
      match s with
      | EmptyString => EmptyString
      | String c rest =>
          if String.prefix old s
          then new ++ replace_from fuel' old new (drop (String.length old) s)
          else String c (replace_from fuel' old new rest)
      end
  end.

(** [s.replace('', new)]: [new] before every character and at the end. *)
Fixpoint intersperse_all (new s : string) : string :=
  match s with
  | EmptyString => new
  | String c rest => new ++ String c (intersperse_all new rest)
  end.

(** [str.replace] *)
Definition replace (old new s : string) : string :=
  match old with
  | EmptyString => intersperse_all new s
  | _ => replace_from (String.length s) old new s
  end.

(** [n / d] rounded to the nearest integer, ties to even ([n >= 0 < d]). *)
Definition round_half_even_div (n d : Z) : Z :=
  let q := n / d in
  let r := n mod d in
  if 2 * r <? d then q
  else if d <? 2 * r then q + 1
  else if Z.even q then q else q + 1.

(** The absolute value of a finite float in hundredths, correctly rounded
    from its exact binary value, as the format [.2f] does. *)
Definition cents_of (x : float) : Z :=
  match Prim2SF x with
  | S754_finite _ m e =>
      if 0 <=? e then Z.pos m * 2 ^ e * 100
      else round_half_even_div (Z.pos m * 100) (2 ^ (- e))
  | _ => 0
  end.

Definition sign_bit (x : float) : bool :=
  match Prim2SF x with
  | S754_zero s => s
  | S754_infinity s => s
  | S754_finite s _ _ => s
  | S754_nan => false
  end.

(** Thousands separators, on the digits in reverse order. *)
Fixpoint group3_rev (l : list ascii) : list ascii :=
  match l with
  | a :: b :: c :: ((_ :: _) as rest) =>
      a :: b :: c :: ","%char :: group3_rev rest
  | _ => l
  end.

Definition group3 (s : string) : string :=
  string_of_list_ascii (rev (group3_rev (rev (list_ascii_of_string s)))).

(** [f"{x:,.2f}"] for a float. *)
Definition format_comma_2f (x : float) : string :=
  if float_is_nan x then "nan"
  else if float_is_inf x then (if sign_bit x then "-inf" else "inf")
  else
    let c := cents_of x in
    ((if sign_bit x then "-" else "")
     ++ group3 (NilZero.string_of_uint (N.to_uint (Z.to_N (c / 100))))
     ++ "."
     ++ String (digit_char (c mod 100 / 10))
          (String (digit_char (c mod 100)) ""))%string.

(** The expression every amount of the summary and of the table goes
    through:
    [f"R$ {x:,.2f}".replace(',', 'X').replace('.', ',').replace('X', '.')]. *)
Definition formatar_reais (x : float) : string :=
  replace "X" "." (replace "." "," (replace "," "X"
    ("R$ " ++ format_comma_2f x))).

(** The text of the suggested accounting entries, cut at its three
    amounts. *)
Definition lancamentos_0 : string :=
"
        ### Contabilização Inicial do Empréstimo
        
        **Débito:** Caixa ou Bancos - R$ ".

Definition lancamentos_1 : string :=
"  
        **Crédito:** Empréstimos a Pagar (Curto Prazo) - R$ ".

Definition lancamentos_2 : string :=
"  
        **Crédito:** Empréstimos a Pagar (Longo Prazo) - R$ ".

Definition lancamentos_3 : string :=
"
        
        ### Pagamento Mensal de Parcela
        
        **Débito:** Empréstimos a Pagar (Curto Prazo) - Valor da Amortização  
        **Débito:** Despesas Financeiras - Valor dos Juros  
        **Crédito:** Caixa ou Bancos - Valor da Parcela
        
        ### No Encerramento de Exercício
        
        **Débito:** Empréstimos a Pagar (Longo Prazo) - Valor das amortizações que passarão para curto prazo  
        **Crédito:** Empréstimos a Pagar (Curto Prazo) - Valor das amortizações que passarão para curto prazo
        ".

(** The f-string of the suggested entries, before [.replace] is applied. *)
Definition lancamentos_fstring (valor_principal valor_curto_prazo
    valor_longo_prazo : float) : string :=
  (lancamentos_0 ++ format_comma_2f valor_principal
   ++ lancamentos_1 ++ format_comma_2f valor_curto_prazo
   ++ lancamentos_2 ++ format_comma_2f valor_longo_prazo
   ++ lancamentos_3)%string.

(** The markdown handed to [st.markdown]: the f-string, on which
    [',.2f'] is replaced by [',.2f'] with its separators swapped. *)
Definition lancamentos_markdown (valor_principal valor_curto_prazo
    valor_longo_prazo : float) : string :=
  replace ",.2f"
    (replace "X" "." (replace "." "," (replace "," "X" ",.2f")))
    (lancamentos_fstring valor_principal valor_curto_prazo valor_longo_prazo).

(** [nome_emprestimo.replace(' ', '_')], the stem of the exported file's
    name. *)
Definition nome_arquivo (nome_emprestimo : string) : string :=
  (replace " " "_" nome_emprestimo ++ "_tabela_amortizacao.xlsx")%string.

(** Character-wise helpers for the statements. *)
Fixpoint map_string (f : ascii -> ascii) (s : string) : string :=
  match s with
  | EmptyString => EmptyString
  | String c rest => String (f c) (map_string f rest)
  end.

Fixpoint all_chars (p : ascii -> bool) (s : string) : bool :=
  match s with
  | EmptyString => true
  | String c rest => p c && all_chars p rest
  end.

(** Comma and full stop exchanged. *)
Definition swap_sep (c : ascii) : ascii :=
  if Ascii.eqb c "," then "."%char
  else if Ascii.eqb c "." then ","%char
  else c.

Definition is_digit (c : ascii) : bool :=
  match digit_val c with Some _ => true | None => false end.

(** No [f] comes right after a [2]; [b] tells whether the character before
    [s] is a [2]. *)
Fixpoint sem_2f (b : bool) (s : string) : bool :=
  match s with
  | EmptyString => true
  | String c rest => negb (b && Ascii.eqb c "f") && sem_2f (Ascii.eqb c "2") rest
  end.

Fixpoint termina_em_2 (b : bool) (s : string) : bool :=
  match s with
  | EmptyString => b
  | String c rest => termina_em_2 (Ascii.eqb c "2") rest
  end.

(** ** Auxiliary notions used in the statements *)

(** A timestamp there can be: a real calendar day of a year from 1 to 9999,
    with a time of day. *)
Definition Timestamp_real (t : Timestamp) : bool :=
  valid_day (year t) (month t) (day t)
  && (1 <=? year t) && (year t <=? 9999)
  && (0 <=? nanos t) && (nanos t <? 86400000000000).

(** A real calendar day with a time of day, the year having four digits. *)
Definition Timestamp_valid (t : Timestamp) : bool :=
  valid_day (year t) (month t) (day t)
  && (1000 <=? year t) && (year t <=? 9999)
  && (0 <=? nanos t) && (nanos t <? 86400000000000).

(** The month-advance policy in words: [d] is [n] calendar months after
    [t], on the same day of the month when the target month has it and on
    the target month's last day otherwise, at the same time of day. *)
Definition month_advance_clamped (t : Timestamp) (n : Z) (d : Timestamp)
  : Prop :=
  year d * 12 + (month d - 1) = year t * 12 + (month t - 1) + n /\
  1 <= month d <= 12 /\
  day d = Z.min (day t) (days_in_month (year d) (month d)) /\
  nanos d = nanos t.

(** Midnight of the day of [t]. *)
Definition normalize (t : Timestamp) : Timestamp :=
  {| year := year t; month := month t; day := day t; nanos := 0 |}.

(** The day a row falls due, read back from its [Data] cell (midnight of
    1 January of year 0 stands for a cell that does not parse). *)
Definition data_de {T : Type} (r : Row T) : Timestamp :=
  match to_datetime_dmY (Data r) with
  | Ok d => d
  | Raise _ => {| year := 0; month := 1; day := 1; nanos := 0 |}
  end.

(** Ascending, duplicate-free instalment numbers. *)
Definition ascending {T : Type} (rows : list (Row T)) : Prop :=
  StronglySorted (fun a b => Parcela a < Parcela b) rows.

(** A row of [df_com_data] whose date parsed. *)
Definition anotar {T : Type} (r : Row T) : RowDt T :=
  {| row := r; Data_dt := data_de r |}.

(** ** Concrete inputs used to exercise the statements *)

Definition primeiro_de_janeiro : Timestamp :=
  {| year := 2024; month := 1; day := 1; nanos := 0 |}.

Definition trinta_e_um_de_janeiro : Timestamp :=
  {| year := 2024; month := 1; day := 31; nanos := 0 |}.

Definition quinze_de_junho_2023 : Timestamp :=
  {| year := 2023; month := 6; day := 15; nanos := 0 |}.

Definition quinze_de_junho_9999 : Timestamp :=
  {| year := 9999; month := 6; day := 15; nanos := 0 |}.

Definition vinte_e_nove_de_fevereiro : Timestamp :=
  {| year := 2024; month := 2; day := 29; nanos := 0 |}.

(** Two hand-written schedule rows, one due on the cut-off day of
    [vinte_e_nove_de_fevereiro] and one the day after. *)
Definition linhas_de_fevereiro : list (Row Q) :=
  [ {| Parcela := 12; Data := "28/02/2025"; Prestacao := 100%Q;
       Juros := 10%Q; Amortizacao := 90%Q; Saldo_Devedor := 90%Q |};
    {| Parcela := 13; Data := "01/03/2025"; Prestacao := 100%Q;
       Juros := 10%Q; Amortizacao := 90%Q; Saldo_Devedor := 0%Q |} ].

(** Two hand-written schedule rows, one due on the cut-off day of
    [primeiro_de_janeiro] and one a month later. *)
Definition duas_linhas : list (Row Q) :=
  [ {| Parcela := 12; Data := "01/01/2025"; Prestacao := 100%Q;
       Juros := 10%Q; Amortizacao := 90%Q; Saldo_Devedor := 90%Q |};
    {| Parcela := 13; Data := "01/02/2025"; Prestacao := 100%Q;
       Juros := 10%Q; Amortizacao := 90%Q; Saldo_Devedor := 0%Q |} ].

(** [1 + q + ... + q^(k-1)] *)
Fixpoint geo (q : Q) (k : nat) : Q :=
  match k with
  | O => 0%Q
  | S k' => (q * geo q k' + 1)%Q
  end.

(** The exact sum of a list of rationals. *)
Definition Qsum (l : list Q) : Q := fold_right Qplus 0%Q l.

(** The rational number a finite float stands for. *)
Definition Q_of_float (x : float) : Q :=
  match Prim2SF x with
  | S754_finite s m e =>
      (inject_Z (if s then Z.neg m else Z.pos m) * 2 ^ e)%Q
  | _ => 0%Q
  end.

(** * Properties *)

(** ** [range] *)

Lemma range_length (lo hi : Z) : List.length (range lo hi) = Z.to_nat (hi - lo).
Proof. unfold range. now rewrite length_map, length_seq. Qed.

Lemma range_In (lo hi i : Z) : In i (range lo hi) <-> lo <= i < hi.
Proof.
  unfold range. rewrite in_map_iff. split.
  - intros (k & <- & Hk). apply in_seq in Hk. lia.
  - intros Hi. exists (Z.to_nat (i - lo)). split; [lia|].
    apply in_seq. lia.
Qed.

Lemma range_snoc (m : nat) :
  range 1 (Z.of_nat (S m) + 1) = range 1 (Z.of_nat m + 1) ++ [Z.of_nat (S m)].
Proof.
  unfold range.
  replace (Z.to_nat (Z.of_nat (S m) + 1 - 1)) with (S m) by lia.
  replace (Z.to_nat (Z.of_nat m + 1 - 1)) with m by lia.
  rewrite seq_S, map_app. cbn [map]. do 2 f_equal. lia.
Qed.

Lemma range_empty (lo hi : Z) : hi <= lo -> range lo hi = [].
Proof.
  intros Hle. unfold range.
  replace (Z.to_nat (hi - lo)) with O by lia. reflexivity.
Qed.

Lemma range_nth (lo hi : Z) (k : nat) :
  (k < Z.to_nat (hi - lo))%nat -> nth k (range lo hi) 0 = lo + Z.of_nat k.
Proof.
  intros Hk. unfold range.
  pose proof (map_nth (fun j => lo + Z.of_nat j)
                (seq 0 (Z.to_nat (hi - lo))) O k) as E.
  cbv beta in E. rewrite seq_nth in E by exact Hk.
  cbn [Nat.add] in E. rewrite <- E. apply nth_indep.
  now rewrite length_map, length_seq.
Qed.

Lemma range_sorted (lo hi : Z) : StronglySorted Z.lt (range lo hi).
Proof.
  unfold range. generalize (Z.to_nat (hi - lo)) as n. intros n.
  assert (Hgen : forall s, StronglySorted Z.lt
                   (map (fun k => lo + Z.of_nat k) (seq s n))).
  { induction n as [|n IH]; intros s; simpl; constructor.
    - apply IH.
    - apply Forall_forall. intros x Hx. apply in_map_iff in Hx.
      destruct Hx as (k & <- & Hk). apply in_seq in Hk. lia. }
  apply Hgen.
Qed.

Lemma range_cons (lo hi : Z) : lo < hi -> range lo hi = lo :: range (lo + 1) hi.
Proof.
  intros Hlt. unfold range.
  replace (Z.to_nat (hi - lo)) with (S (Z.to_nat (hi - (lo + 1)))) by lia.
  cbn [seq map]. f_equal; [lia|].
  rewrite <- seq_shift, map_map. apply map_ext. intros k. lia.
Qed.

Lemma Sorted_map_range {A : Type} (R : A -> A -> Prop) (f : Z -> A) (lo hi : Z) :
  (forall i, lo <= i -> i + 1 < hi -> R (f i) (f (i + 1))) ->
  Sorted R (map f (range lo hi)).
Proof.
  remember (Z.to_nat (hi - lo)) as n eqn:Hn. revert lo Hn.
  induction n as [|n IH]; intros lo Hn Hstep.
  - rewrite range_empty by lia. constructor.
  - rewrite range_cons by lia. cbn [map]. constructor.
    + apply IH; [lia|]. intros i Hi1 Hi2. apply Hstep; lia.
    + destruct (Z_lt_ge_dec (lo + 1) hi) as [Hlt|Hge].
      * rewrite range_cons by lia. cbn [map]. constructor.
        apply Hstep; lia.
      * rewrite range_empty by lia. constructor.
Qed.

Lemma range_app (lo mid hi : Z) :
  lo <= mid <= hi -> range lo hi = range lo mid ++ range mid hi.
Proof.
  intros Hm. remember (Z.to_nat (mid - lo)) as n eqn:Hn. revert lo Hm Hn.
  induction n as [|n IH]; intros lo Hm Hn.
  - replace mid with lo by lia. now rewrite (range_empty lo lo) by lia.
  - rewrite (range_cons lo hi), (range_cons lo mid) by lia.
    cbn [app]. f_equal. apply IH; lia.
Qed.

(** ** The range of the calendar *)

Lemma DateOffset_months_Ok (t : Timestamp) (n : Z) (d : Timestamp) :
  DateOffset_months t n = Ok d <->
  d = relativedelta_months t n /\ 1 <= year d <= 9999.
Proof.
  unfold DateOffset_months.
  destruct ((1 <=? year (relativedelta_months t n))
            && (year (relativedelta_months t n) <=? 9999)) eqn:Hb.
  - apply andb_prop in Hb. destruct Hb as [H1 H2].
    apply Z.leb_le in H1, H2. split.
    + intros Heq. inversion Heq; subst. split; [reflexivity|lia].
    + intros [-> _]. reflexivity.
  - split; [discriminate|]. intros [-> Hy]. exfalso.
    apply andb_false_iff in Hb. destruct Hb as [Hb|Hb];
      apply Z.leb_gt in Hb; lia.
Qed.

(** The only exception of [+ pd.DateOffset(months=n)] is [ValueError]. *)
Lemma DateOffset_months_Raise (t : Timestamp) (n : Z) (e : exn) :
  DateOffset_months t n = Raise e ->
  e = ValueError /\ is_ok (DateOffset_months t n) = false.
Proof.
  intros Hr. rewrite Hr. split; [|reflexivity].
  unfold DateOffset_months in Hr.
  destruct (_ && _); [discriminate|]. now inversion Hr.
Qed.

Lemma DateOffset_months_is_ok (t : Timestamp) (n : Z) :
  is_ok (DateOffset_months t n) = true <->
  1 <= year (relativedelta_months t n) <= 9999.
Proof.
  split.
  - destruct (DateOffset_months t n) as [d|e] eqn:Hd; [|discriminate].
    intros _. apply DateOffset_months_Ok in Hd. destruct Hd as [-> Hy].
    exact Hy.
  - intros Hy.
    rewrite (proj2 (DateOffset_months_Ok t n _) (conj eq_refl Hy)).
    reflexivity.
Qed.

Lemma DateOffset_months_not_ok (t : Timestamp) (n : Z) :
  is_ok (DateOffset_months t n) = false ->
  DateOffset_months t n = Raise ValueError.
Proof.
  destruct (DateOffset_months t n) as [d|e] eqn:Hd; [discriminate|].
  intros _. now destruct (DateOffset_months_Raise t n e Hd) as [-> _].
Qed.

Lemma Timestamp_real_inv (t : Timestamp) :
  Timestamp_real t = true ->
  1 <= month t <= 12 /\ 1 <= day t <= days_in_month (year t) (month t) /\
  1 <= year t <= 9999 /\ 0 <= nanos t < 86400000000000.
Proof.
  unfold Timestamp_real, valid_day. intros Hv.
  repeat (apply andb_prop in Hv; destruct Hv as [Hv ?]).
  lia.
Qed.

(** From a real start date the due dates leave the calendar for good: when
    an instalment's due date exists, so do those of the instalments before
    it. *)
Lemma DateOffset_months_is_ok_le (t : Timestamp) (i j : Z) :
  Timestamp_real t = true -> 0 <= i <= j ->
  is_ok (DateOffset_months t j) = true ->
  is_ok (DateOffset_months t i) = true.
Proof.
  intros Hv Hij Hj.
  pose proof (Timestamp_real_inv t Hv) as (Hm & _ & Hy & _).
  apply DateOffset_months_is_ok in Hj. apply DateOffset_months_is_ok.
  unfold relativedelta_months in *. cbn [year] in *.
  Z.to_euclidean_division_equations. lia.
Qed.

(** ** The loop of [gerar_tabela_amortizacao], for any arithmetic *)

Lemma for_each_app {S : Type} (corpo : S -> Z -> result S) (l1 l2 : list Z)
    (st : S) :
  for_each corpo (l1 ++ l2) st =
  match for_each corpo l1 st with
  | (st', Ok _) => for_each corpo l2 st'
  | (st', Raise e) => (st', Raise e)
  end.
Proof.
  revert st. induction l1 as [|i l1 IH]; intros st; cbn [app for_each].
  - reflexivity.
  - destruct (corpo st i) as [st'|e]; [apply IH|reflexivity].
Qed.

Section LoopFacts.

Context {T : Type} `{Number T}.

Variables (principal taxa_mensal parcela : T).
Variable prazo_meses : Z.
Variable data_inicio : Timestamp.

Let body := passo taxa_mensal parcela prazo_meses data_inicio.
Let linha_i := linha principal taxa_mensal parcela prazo_meses data_inicio.

(** As long as the due dates exist, the loop appends the rows of the closed
    form. *)
Lemma laco_prefix (m : nat) :
  Z.of_nat m <= prazo_meses ->
  (forall i, 1 <= i <= Z.of_nat m ->
     is_ok (DateOffset_months data_inicio i) = true) ->
  for_each body (range 1 (Z.of_nat m + 1)) (principal, []) =
  (((if Z.of_nat m =? prazo_meses
     then (match m with O => principal | S _ => lit 0 end)
     else saldo_apos principal taxa_mensal parcela m),
    map linha_i (range 1 (Z.of_nat m + 1))), Ok tt).
Proof.
  induction m as [|m IH]; intros Hm Hok.
  - rewrite range_empty by (cbn; lia). cbn.
    destruct prazo_meses; reflexivity.
  - rewrite range_snoc, for_each_app, IH by (try lia; intros; apply Hok; lia).
    replace (Z.of_nat m =? prazo_meses) with false
      by (symmetry; apply Z.eqb_neq; lia).
    rewrite map_app. cbn [for_each map]. unfold body, passo, linha_i, linha.
    destruct (DateOffset_months data_inicio (Z.of_nat (S m))) as [d|e] eqn:Hd.
    + apply DateOffset_months_Ok in Hd. destruct Hd as [-> _].
      cbn [bind].
      replace (Z.to_nat (Z.of_nat (S m) - 1)) with m by lia.
      cbn [saldo_apos].
      destruct (Z.of_nat (S m) =? prazo_meses); reflexivity.
    + specialize (Hok (Z.of_nat (S m)) ltac:(lia)). rewrite Hd in Hok.
      discriminate.
Qed.

(** At the first due date that does not exist the loop stops, with the rows
    of the instalments before it. *)
Lemma laco_falha (m : nat) (e : exn) :
  Z.of_nat m < prazo_meses ->
  (forall i, 1 <= i <= Z.of_nat m ->
     is_ok (DateOffset_months data_inicio i) = true) ->
  DateOffset_months data_inicio (Z.of_nat m + 1) = Raise e ->
  for_each body (range 1 (prazo_meses + 1)) (principal, []) =
  ((saldo_apos principal taxa_mensal parcela m,
    map linha_i (range 1 (Z.of_nat m + 1))), Raise e).
Proof.
  intros Hm Hok He.
  rewrite (range_app 1 (Z.of_nat m + 1) (prazo_meses + 1)) by lia.
  rewrite for_each_app, laco_prefix by (try lia; exact Hok).
  replace (Z.of_nat m =? prazo_meses) with false
    by (symmetry; apply Z.eqb_neq; lia).
  rewrite range_cons by lia. cbn [for_each]. unfold body at 1, passo.
  rewrite He. reflexivity.
Qed.

Lemma laco_tabela :
  (forall i, 1 <= i <= prazo_meses ->
     is_ok (DateOffset_months data_inicio i) = true) ->
  for_each body (range 1 (prazo_meses + 1)) (principal, []) =
  (fst (fst (for_each body (range 1 (prazo_meses + 1)) (principal, []))),
   map linha_i (range 1 (prazo_meses + 1)), Ok tt).
Proof.
  intros Hok. destruct (Z_le_gt_dec 0 prazo_meses) as [Hpos|Hneg].
  - pose proof (laco_prefix (Z.to_nat prazo_meses)) as Hp.
    rewrite Z2Nat.id in Hp by exact Hpos.
    rewrite Hp by (try lia; exact Hok). reflexivity.
  - rewrite range_empty by lia. reflexivity.
Qed.

(** The loop raises exactly when some due date does not exist. *)
Lemma laco_resultado (l : list Z) (st : T * list (Row T)) :
  snd (for_each body l st) =
  if forallb (fun i => is_ok (DateOffset_months data_inicio i)) l
  then Ok tt else Raise ValueError.
Proof.
  revert st. induction l as [|i l IH]; intros st; cbn [for_each forallb].
  - reflexivity.
  - unfold body at 1, passo. destruct st as [s tab].
    destruct (DateOffset_months data_inicio i) as [d|e] eqn:Hd; cbn [bind is_ok andb].
    + destruct (i =? prazo_meses); apply IH.
    + now destruct (DateOffset_months_Raise _ _ _ Hd) as [-> _].
Qed.

End LoopFacts.

Section EngineFacts.

Context {T : Type} `{Number T}.

(** The schedule in closed form: the monthly rate and the payment are
    computed first; then either every due date exists and row [i] is
    [linha i], or the loop raises [ValueError]. *)
Lemma gerar_tabela_amortizacao_eq (principal taxa : T) (prazo : Z)
    (data_inicio : Timestamp) :
  gerar_tabela_amortizacao principal taxa prazo data_inicio =
  match taxa_mensal_de taxa with
  | Raise e => Raise e
  | Ok taxa_mensal =>
      match calcular_parcela principal taxa prazo with
      | Raise e => Raise e
      | Ok parcela =>
          if forallb (fun i => is_ok (DateOffset_months data_inicio i))
                     (range 1 (prazo + 1))
          then Ok (DataFrame_of_records
                     (map (linha principal taxa_mensal parcela prazo data_inicio)
                          (range 1 (prazo + 1))))
          else Raise ValueError
      end
  end.
Proof.
  unfold gerar_tabela_amortizacao, gerar_tabela_amortizacao_rows.
  destruct (taxa_mensal_de taxa) as [tm|e]; [|reflexivity].
  destruct (calcular_parcela principal taxa prazo) as [pa|e]; [|reflexivity].
  pose proof (laco_resultado tm pa prazo data_inicio (range 1 (prazo + 1))
                (principal, [])) as Hres.
  destruct (forallb _ _) eqn:Hall.
  - rewrite laco_tabela.
    + reflexivity.
    + intros i Hi. rewrite forallb_forall in Hall. apply Hall.
      apply range_In. lia.
  - destruct (for_each _ _ _) as [[s tabela] fim]. cbn [snd] in *.
    now rewrite Hres.
Qed.

Lemma gerar_tabela_amortizacao_Table (principal taxa : T) (prazo : Z)
    (data_inicio : Timestamp) (rows : list (Row T)) :
  gerar_tabela_amortizacao principal taxa prazo data_inicio = Ok (Table rows) ->
  exists taxa_mensal parcela,
    taxa_mensal_de taxa = Ok taxa_mensal /\
    calcular_parcela principal taxa prazo = Ok parcela /\
    1 <= prazo /\
    rows = map (linha principal taxa_mensal parcela prazo data_inicio)
               (range 1 (prazo + 1)).
Proof.
  rewrite gerar_tabela_amortizacao_eq.
  destruct (taxa_mensal_de taxa) as [tm|e]; [|discriminate].
  destruct (calcular_parcela principal taxa prazo) as [pa|e]; [|discriminate].
  destruct (forallb _ _); [|discriminate].
  intros Hdf. exists tm, pa. split; [reflexivity|].
  split; [reflexivity|].
  destruct (Z_le_gt_dec 1 prazo) as [Hpos|Hneg].
  - split; [exact Hpos|].
    destruct (map _ _) as [|r rs] eqn:Hm; [discriminate|].
    cbn in Hdf. now inversion Hdf.
  - rewrite range_empty in Hdf by lia. discriminate.
Qed.

(** The due dates of a returned schedule all exist. *)
Lemma gerar_tabela_amortizacao_datas (principal taxa : T) (prazo : Z)
    (data_inicio : Timestamp) (df : DataFrame T) :
  gerar_tabela_amortizacao principal taxa prazo data_inicio = Ok df ->
  forall i, 1 <= i <= prazo ->
    DateOffset_months data_inicio i = Ok (relativedelta_months data_inicio i).
Proof.
  rewrite gerar_tabela_amortizacao_eq.
  destruct (taxa_mensal_de taxa) as [tm|e]; [|discriminate].
  destruct (calcular_parcela principal taxa prazo) as [pa|e]; [|discriminate].
  destruct (forallb _ _) eqn:Hall; [|discriminate].
  intros _ i Hi. rewrite forallb_forall in Hall.
  assert (Hin : In i (range 1 (prazo + 1))) by (apply range_In; lia).
  specialize (Hall i Hin). cbv beta in Hall.
  destruct (DateOffset_months data_inicio i) as [d|e] eqn:Hd; [|discriminate].
  apply DateOffset_months_Ok in Hd. now destruct Hd as [-> _].
Qed.

Lemma forallb_datas (data_inicio : Timestamp) (prazo : Z) :
  Timestamp_real data_inicio = true ->
  forallb (fun i => is_ok (DateOffset_months data_inicio i))
          (range 1 (prazo + 1))
  = (prazo <=? 0) || is_ok (DateOffset_months data_inicio prazo).
Proof.
  intros Hv. destruct (prazo <=? 0) eqn:Hp.
  - apply Z.leb_le in Hp. rewrite range_empty by lia. reflexivity.
  - apply Z.leb_gt in Hp. cbn [orb].
    destruct (is_ok (DateOffset_months data_inicio prazo)) eqn:Hlast.
    + apply forallb_forall. intros i Hi. apply range_In in Hi.
      apply (DateOffset_months_is_ok_le data_inicio i prazo Hv); [lia|exact Hlast].
    + destruct (forallb _ _) eqn:Hall; [|reflexivity].
      rewrite forallb_forall in Hall.
      rewrite (Hall prazo) in Hlast; [discriminate|]. apply range_In. lia.
Qed.

Lemma gerar_tabela_amortizacao_ok (principal taxa : T) (prazo : Z)
    (data_inicio : Timestamp) (taxa_mensal parcela : T) :
  taxa_mensal_de taxa = Ok taxa_mensal ->
  calcular_parcela principal taxa prazo = Ok parcela ->
  1 <= prazo ->
  Timestamp_real data_inicio = true ->
  is_ok (DateOffset_months data_inicio prazo) = true ->
  gerar_tabela_amortizacao principal taxa prazo data_inicio =
  Ok (Table (map (linha principal taxa_mensal parcela prazo data_inicio)
                 (range 1 (prazo + 1)))).
Proof.
  intros Htm Hpa Hpos Hv Hlast.
  rewrite gerar_tabela_amortizacao_eq, Htm, Hpa, forallb_datas, Hlast by exact Hv.
  rewrite orb_true_r.
  destruct (map _ _) as [|r rs] eqn:Hm; [|reflexivity].
  apply (f_equal (@List.length _)) in Hm.
  rewrite length_map, range_length in Hm. simpl in Hm. lia.
Qed.

End EngineFacts.

(** ** Calendar *)

Lemma digit_val_char (n : Z) : digit_val (digit_char n) = Some (n mod 10).
Proof.
  unfold digit_char, digit_val.
  assert (Hr : 0 <= n mod 10 < 10) by (apply Z.mod_pos_bound; lia).
  rewrite nat_ascii_embedding by lia.
  replace (Z.of_nat (48 + Z.to_nat (n mod 10))) with (48 + n mod 10) by lia.
  replace (48 <=? 48 + n mod 10) with true by (symmetry; apply Z.leb_le; lia).
  replace (48 + n mod 10 <=? 57) with true by (symmetry; apply Z.leb_le; lia).
  cbn [andb]. f_equal. lia.
Qed.

Lemma digit_char_not_slash (n : Z) : Ascii.eqb (digit_char n) "/" = false.
Proof.
  apply Ascii.eqb_neq. intros Heq.
  apply (f_equal digit_val) in Heq. rewrite digit_val_char in Heq.
  discriminate.
Qed.

Lemma two_digits (d : Z) :
  0 <= d < 100 -> 10 * ((d / 10) mod 10) + d mod 10 = d.
Proof. intros Hd. Z.to_euclidean_division_equations. lia. Qed.

Lemma four_digits (y : Z) :
  0 <= y <= 9999 ->
  1000 * ((y / 1000) mod 10) + 100 * ((y / 100) mod 10)
  + 10 * ((y / 10) mod 10) + y mod 10 = y.
Proof. intros Hy. Z.to_euclidean_division_equations. lia. Qed.

Lemma days_in_month_bounds (y m : Z) : 28 <= days_in_month y m <= 31.
Proof.
  unfold days_in_month.
  destruct (m =? 2); [destruct (is_leap y); lia|].
  destruct ((m =? 4) || (m =? 6) || (m =? 9) || (m =? 11)); lia.
Qed.

Lemma Timestamp_valid_inv (t : Timestamp) :
  Timestamp_valid t = true ->
  1 <= month t <= 12 /\ 1 <= day t <= days_in_month (year t) (month t) /\
  1000 <= year t <= 9999 /\ 0 <= nanos t < 86400000000000.
Proof.
  unfold Timestamp_valid, valid_day. intros Hv.
  repeat (apply andb_prop in Hv; destruct Hv as [Hv ?]).
  lia.
Qed.

Lemma read_dm_two_digits (d : Z) (rest : string) :
  0 <= d < 100 ->
  read_dm (String (digit_char (d / 10)) (String (digit_char d)
            (String "/" rest))) = Some (d, rest).
Proof.
  intros Hd. unfold read_dm.
  rewrite !digit_val_char, digit_char_not_slash.
  change (Ascii.eqb "/" "/") with true. cbv iota.
  now rewrite two_digits.
Qed.

Lemma read_Y_year_digits (y : Z) :
  1000 <= y <= 9999 -> read_Y (year_digits y) = Some y.
Proof.
  intros Hy. unfold year_digits.
  replace (y <? 10) with false by (symmetry; apply Z.ltb_ge; lia).
  replace (y <? 100) with false by (symmetry; apply Z.ltb_ge; lia).
  replace (y <? 1000) with false by (symmetry; apply Z.ltb_ge; lia).
  unfold read_Y. rewrite !digit_val_char. now rewrite four_digits by lia.
Qed.

(** Parsing what [strftime] wrote gives back the day, at midnight. *)
Lemma to_datetime_strftime (t : Timestamp) :
  Timestamp_valid t = true ->
  to_datetime_dmY (strftime_dmY t) = Ok (normalize t).
Proof.
  intros Hv. pose proof (Timestamp_valid_inv t Hv) as (Hm & Hd & Hy & _).
  pose proof (days_in_month_bounds (year t) (month t)) as Hdim.
  unfold strftime_dmY, to_datetime_dmY.
  rewrite read_dm_two_digits, read_dm_two_digits, read_Y_year_digits by lia.
  unfold valid_day.
  replace (1 <=? year t) with true by (symmetry; apply Z.leb_le; lia).
  replace (1 <=? month t) with true by (symmetry; apply Z.leb_le; lia).
  replace (month t <=? 12) with true by (symmetry; apply Z.leb_le; lia).
  replace (1 <=? day t) with true by (symmetry; apply Z.leb_le; lia).
  replace (day t <=? days_in_month (year t) (month t)) with true
    by (symmetry; apply Z.leb_le; lia).
  reflexivity.
Qed.

(** A parsed date is at midnight and is a real calendar day. *)
Lemma to_datetime_midnight (s : string) (d : Timestamp) :
  to_datetime_dmY s = Ok d ->
  nanos d = 0 /\ valid_day (year d) (month d) (day d) = true.
Proof.
  unfold to_datetime_dmY.
  destruct (read_dm s) as [[dd s1]|]; [|discriminate].
  destruct (read_dm s1) as [[mm s2]|]; [|discriminate].
  destruct (read_Y s2) as [yy|]; [|discriminate].
  destruct (1 <=? yy); [|discriminate]. cbn [andb].
  destruct (valid_day yy mm dd) eqn:Hv; [|discriminate].
  intros Heq. inversion Heq; subst. cbn. auto.
Qed.

(** [relativedelta(months=n)] lands on a real day of the target month and keeps
    the time of day. *)
Lemma relativedelta_months_valid_day (t : Timestamp) (n : Z) :
  1 <= day t ->
  valid_day (year (relativedelta_months t n)) (month (relativedelta_months t n))
            (day (relativedelta_months t n)) = true.
Proof.
  intros Hd. unfold relativedelta_months. cbn [year month day].
  set (total := year t * 12 + (month t - 1) + n).
  pose proof (Z.mod_pos_bound total 12 ltac:(lia)) as Hm.
  pose proof (days_in_month_bounds (total / 12) (total mod 12 + 1)) as Hdim.
  unfold valid_day.
  repeat (apply andb_true_intro; split); apply Z.leb_le; lia.
Qed.

Lemma relativedelta_months_year (t : Timestamp) (n : Z) :
  1 <= month t <= 12 -> 0 <= n ->
  year t <= year (relativedelta_months t n) <= year t + n / 12 + 1.
Proof.
  intros Hm Hn. unfold relativedelta_months. cbn [year].
  Z.to_euclidean_division_equations. lia.
Qed.

(** Twelve months later: same month of the next year, and only 29 February
    has to be moved (to the 28th). *)
Lemma relativedelta_months_12 (t : Timestamp) :
  1 <= month t <= 12 ->
  relativedelta_months t 12 =
  {| year := year t + 1; month := month t;
     day := Z.min (day t) (days_in_month (year t + 1) (month t));
     nanos := nanos t |}.
Proof.
  intros Hm. unfold relativedelta_months.
  replace (year t * 12 + (month t - 1) + 12)
    with ((month t - 1) + (year t + 1) * 12) by lia.
  rewrite Z.div_add, Z.mod_add by lia.
  rewrite Z.div_small, Z.mod_small by lia.
  f_equal; try lia. f_equal; f_equal; lia.
Qed.

Lemma Timestamp_compare_refl (a : Timestamp) : Timestamp_compare a a = Eq.
Proof. unfold Timestamp_compare. now rewrite !Z.compare_refl. Qed.

Lemma Timestamp_gtb_leb (a b : Timestamp) :
  Timestamp_gtb a b = negb (Timestamp_leb a b).
Proof.
  unfold Timestamp_gtb, Timestamp_leb.
  destruct (Timestamp_compare a b); reflexivity.
Qed.

(** A day at midnight is not after any moment of the same day. *)
Lemma Timestamp_leb_normalize (a : Timestamp) :
  0 <= nanos a -> Timestamp_leb (normalize a) a = true.
Proof.
  intros Hn. unfold Timestamp_leb, Timestamp_compare, normalize.
  cbn [year month day nanos]. rewrite !Z.compare_refl.
  destruct (0 ?= nanos a) eqn:Hc; try reflexivity.
  apply Z.compare_gt_iff in Hc. lia.
Qed.


(** ** Lists: complementary filters *)

Lemma filter_complement_Permutation {A : Type} (f : A -> bool) (l : list A) :
  Permutation (filter f l ++ filter (fun x => negb (f x)) l) l.
Proof.
  induction l as [|a l IH]; cbn; [constructor|].
  destruct (f a); cbn.
  - now constructor.
  - symmetry. apply Permutation_cons_app. now symmetry.
Qed.

Lemma filter_StronglySorted {A : Type} (R : A -> A -> Prop) (f : A -> bool)
    (l : list A) :
  StronglySorted R l -> StronglySorted R (filter f l).
Proof.
  induction 1 as [|a l Hs IH Hall]; cbn; [constructor|].
  destruct (f a); [|exact IH].
  constructor; [exact IH|].
  apply Forall_forall. intros x Hx. apply filter_In in Hx.
  rewrite Forall_forall in Hall. now apply Hall.
Qed.

Lemma filter_map_comm {A B : Type} (g : A -> B) (p : B -> bool) (l : list A) :
  filter p (map g l) = map g (filter (fun a => p (g a)) l).
Proof.
  induction l as [|a l IH]; cbn; [reflexivity|].
  rewrite IH. destruct (p (g a)); reflexivity.
Qed.

(** ** The classifier, for any arithmetic *)

Section ClassifierFacts.

Context {T : Type} `{Number T}.

Lemma mapM_com_data_ok (rows : list (Row T)) :
  Forall (fun r => is_ok (to_datetime_dmY (Data r)) = true) rows ->
  mapM com_data rows = Ok (map anotar rows).
Proof.
  induction 1 as [|r rows Hr Hall IH]; cbn; [reflexivity|].
  rewrite IH. unfold com_data, anotar, data_de.
  destruct (to_datetime_dmY (Data r)); [reflexivity|discriminate].
Qed.

Lemma mapM_com_data_inv (rows : list (Row T)) (l : list (RowDt T)) :
  mapM com_data rows = Ok l ->
  Forall (fun r => is_ok (to_datetime_dmY (Data r)) = true) rows /\
  l = map anotar rows.
Proof.
  revert l. induction rows as [|r rows IH]; cbn; intros l Hl.
  - inversion Hl. split; [constructor|reflexivity].
  - unfold com_data at 1 in Hl. unfold anotar at 1, data_de.
    destruct (to_datetime_dmY (Data r)) as [d|e] eqn:Hd; [|discriminate].
    cbn in Hl. destruct (mapM com_data rows) as [l'|e]; [|discriminate].
    cbn in Hl. inversion Hl; subst.
    destruct (IH l' eq_refl) as [Hall ->].
    split; [constructor; [now rewrite Hd|exact Hall]|reflexivity].
Qed.

(** The cut-off is computed before the frame is looked at: when it does not
    exist, any frame gives [ValueError]. *)
Lemma analisar_prazo_contabil_sem_limite (df : DataFrame T)
    (data_base : Timestamp) :
  is_ok (DateOffset_months data_base 12) = false ->
  analisar_prazo_contabil df data_base = Raise ValueError.
Proof.
  intros Hno. unfold analisar_prazo_contabil.
  now rewrite (DateOffset_months_not_ok _ _ Hno).
Qed.

(** The two buckets are the annotated rows on either side of the cut-off. *)
Lemma analisar_prazo_contabil_inv (rows : list (Row T)) (data_base : Timestamp)
    (curto longo : list (RowDt T)) :
  analisar_prazo_contabil (Table rows) data_base = Ok (curto, longo) ->
  let data_limite := relativedelta_months data_base 12 in
  let keep := fun r : Row T => Timestamp_leb (data_de r) data_limite in
  DateOffset_months data_base 12 = Ok data_limite /\
  Forall (fun r => is_ok (to_datetime_dmY (Data r)) = true) rows /\
  curto = map anotar (filter keep rows) /\
  longo = map anotar (filter (fun r => negb (keep r)) rows).
Proof.
  unfold analisar_prazo_contabil. intros Ha.
  destruct (DateOffset_months data_base 12) as [lim|e] eqn:Hlim; [|discriminate].
  apply DateOffset_months_Ok in Hlim. destruct Hlim as [-> _].
  cbn [bind] in Ha.
  destruct (mapM com_data rows) as [l|e] eqn:Hm; [|discriminate].
  apply mapM_com_data_inv in Hm. destruct Hm as [Hall ->].
  cbn in Ha. inversion Ha; subst. clear Ha.
  split; [reflexivity|]. split; [exact Hall|]. split.
  - now rewrite filter_map_comm.
  - rewrite filter_map_comm. f_equal. apply filter_ext.
    intros r. cbn. apply Timestamp_gtb_leb.
Qed.

Lemma analisar_prazo_contabil_ok (rows : list (Row T)) (data_base : Timestamp) :
  is_ok (DateOffset_months data_base 12) = true ->
  Forall (fun r => is_ok (to_datetime_dmY (Data r)) = true) rows ->
  exists curto longo,
    analisar_prazo_contabil (Table rows) data_base = Ok (curto, longo).
Proof.
  intros Hlim Hall. unfold analisar_prazo_contabil.
  destruct (DateOffset_months data_base 12) as [lim|e]; [|discriminate].
  rewrite (mapM_com_data_ok rows Hall). cbn. eauto.
Qed.

Lemma map_row_anotar (rows : list (Row T)) : map row (map anotar rows) = rows.
Proof. rewrite map_map. cbn. apply map_id. Qed.

End ClassifierFacts.

(** ** Claims about the classifier *)

(** C3, as stated, fails: not every base date is classified.  For the base
    date 15 June 9999 the cut-off would fall in year 10000, and
    [analisar_prazo_contabil] raises [ValueError] on a schedule whose rows
    are in order and whose dates parse. *)
Lemma classificacao_data_base_9999 :
  Timestamp_real quinze_de_junho_9999 = true /\
  Forall (fun r => is_ok (to_datetime_dmY (Data r)) = true) duas_linhas /\
  ascending duas_linhas /\
  analisar_prazo_contabil (Table duas_linhas) quinze_de_junho_9999
    = Raise ValueError.
Proof.
  split; [reflexivity|]. split; [repeat constructor|].
  split; [|reflexivity].
  unfold ascending, duas_linhas. repeat constructor; cbn; lia.
Qed.

(** C3, amended.  When the cut-off date (the base date plus twelve months)
    is not past year 9999 and the dates of the schedule parse,
    [analisar_prazo_contabil] returns two buckets that are disjoint, that
    together hold exactly the rows of the schedule, and that are each the
    schedule filtered, so the rows keep their relative order; when the
    schedule is in ascending instalment order, so is each bucket.  When the
    cut-off date is past year 9999 it raises [ValueError]. *)
Theorem classificacao_particiona {T : Type} `{Number T}
    (rows : list (Row T)) (data_base : Timestamp) :
  (is_ok (DateOffset_months data_base 12) = false ->
   analisar_prazo_contabil (Table rows) data_base = Raise ValueError) /\
  (is_ok (DateOffset_months data_base 12) = true ->
   Forall (fun r => is_ok (to_datetime_dmY (Data r)) = true) rows ->
   exists curto longo,
     analisar_prazo_contabil (Table rows) data_base = Ok (curto, longo) /\
     Permutation (map row curto ++ map row longo) rows /\
     (forall r, In r (map row curto) -> In r (map row longo) -> False) /\
     (forall r, In r rows -> In r (map row curto) \/ In r (map row longo)) /\
     (exists keep,
         map row curto = filter keep rows /\
         map row longo = filter (fun r => negb (keep r)) rows) /\
     (ascending rows ->
      ascending (map row curto) /\ ascending (map row longo))).
Proof.
  split; [apply analisar_prazo_contabil_sem_limite|].
  intros Hlim Hall.
  destruct (analisar_prazo_contabil_ok rows data_base Hlim Hall) as (c & l & Ha).
  exists c, l. split; [exact Ha|].
  apply analisar_prazo_contabil_inv in Ha. cbn zeta in Ha.
  destruct Ha as (_ & _ & -> & ->). rewrite !map_row_anotar.
  set (keep := fun r : Row T =>
                 Timestamp_leb (data_de r) (relativedelta_months data_base 12)).
  split; [apply filter_complement_Permutation|].
  split.
  { intros r Hc Hl. apply filter_In in Hc, Hl.
    destruct Hc as [_ Hc], Hl as [_ Hl]. unfold keep in Hc.
    cbv beta in Hc, Hl. rewrite Hc in Hl. discriminate. }
  split.
  { intros r Hr. destruct (keep r) eqn:Hk; unfold keep in Hk.
    - left. apply filter_In. auto.
    - right. apply filter_In. cbv beta. rewrite Hk. auto. }
  split; [exists keep; auto|].
  intros Hs. split; apply filter_StronglySorted; exact Hs.
Qed.

Lemma classificacao_particiona_witness :
  (is_ok (DateOffset_months quinze_de_junho_9999 12) = false /\
   analisar_prazo_contabil (Table duas_linhas) quinze_de_junho_9999
     = Raise ValueError) /\
  (is_ok (DateOffset_months primeiro_de_janeiro 12) = true /\
   Forall (fun r => is_ok (to_datetime_dmY (Data r)) = true) duas_linhas /\
   exists curto longo,
     analisar_prazo_contabil (Table duas_linhas) primeiro_de_janeiro
       = Ok (curto, longo) /\
     Permutation (map row curto ++ map row longo) duas_linhas /\
     (forall r, In r (map row curto) -> In r (map row longo) -> False) /\
     (forall r, In r duas_linhas -> In r (map row curto) \/ In r (map row longo)) /\
     (exists keep,
         map row curto = filter keep duas_linhas /\
         map row longo = filter (fun r => negb (keep r)) duas_linhas) /\
     (ascending duas_linhas ->
      ascending (map row curto) /\ ascending (map row longo))).
Proof.
  assert (Hall : Forall (fun r => is_ok (to_datetime_dmY (Data r)) = true)
                        duas_linhas)
    by (repeat constructor).
  split.
  - split; [reflexivity|].
    apply (proj1 (classificacao_particiona duas_linhas quinze_de_junho_9999)).
    reflexivity.
  - split; [reflexivity|]. split; [exact Hall|].
    exact (proj2 (classificacao_particiona duas_linhas primeiro_de_janeiro)
             eq_refl Hall).
Defined.

(** C4. The cut-off is the base date advanced by twelve calendar months (the
    same month of the next year, 29 February becoming the 28th); a row is in
    the current bucket exactly when its due date is not after the cut-off and
    in the non-current bucket otherwise; a row due on the very day of the
    cut-off is current. *)
Theorem classificacao_limite {T : Type} `{Number T}
    (rows : list (Row T)) (data_base : Timestamp)
    (curto longo : list (RowDt T)) :
  analisar_prazo_contabil (Table rows) data_base = Ok (curto, longo) ->
  exists data_limite,
    DateOffset_months data_base 12 = Ok data_limite /\
    (1 <= month data_base <= 12 ->
     data_limite =
     {| year := year data_base + 1; month := month data_base;
        day := Z.min (day data_base)
                     (days_in_month (year data_base + 1) (month data_base));
        nanos := nanos data_base |}) /\
    forall r, In r rows ->
      exists d,
        to_datetime_dmY (Data r) = Ok d /\
        (In {| row := r; Data_dt := d |} curto <->
         Timestamp_leb d data_limite = true) /\
        (In {| row := r; Data_dt := d |} longo <->
         Timestamp_leb d data_limite = false) /\
        (0 <= nanos data_base -> d = normalize data_limite ->
         In {| row := r; Data_dt := d |} curto).
Proof.
  intros Ha. exists (relativedelta_months data_base 12).
  set (data_limite := relativedelta_months data_base 12).
  apply analisar_prazo_contabil_inv in Ha. cbn zeta in Ha.
  fold data_limite in Ha. destruct Ha as (Hlim & Hall & -> & ->).
  split; [exact Hlim|]. split; [apply relativedelta_months_12|].
  intros r Hr. rewrite Forall_forall in Hall. specialize (Hall r Hr).
  destruct (to_datetime_dmY (Data r)) as [d|e] eqn:Hd; [|discriminate].
  exists d. split; [reflexivity|].
  assert (Hde : data_de r = d) by (unfold data_de; now rewrite Hd).
  assert (Han : {| row := r; Data_dt := d |} = anotar r)
    by (unfold anotar; now rewrite Hde).
  assert (Hin : forall f : Row T -> bool,
             In (anotar r) (map anotar (filter f rows)) <-> f r = true).
  { intros f. rewrite in_map_iff. split.
    - intros (r' & Heq & Hin). apply (f_equal row) in Heq. cbn in Heq.
      subst r'. now apply filter_In in Hin.
    - intros Hf. exists r. split; [reflexivity|]. apply filter_In. auto. }
  rewrite Han, !Hin, Hde.
  split; [tauto|]. split.
  - split; intros Hx.
    + now apply negb_true_iff in Hx.
    + now apply negb_true_iff.
  - intros Hn ->. unfold data_limite.
    apply Timestamp_leb_normalize. exact Hn.
Qed.

Lemma classificacao_limite_witness :
  analisar_prazo_contabil (Table duas_linhas) primeiro_de_janeiro =
  Ok (map anotar (firstn 1 duas_linhas), map anotar (skipn 1 duas_linhas)) /\
  exists data_limite,
    DateOffset_months primeiro_de_janeiro 12 = Ok data_limite /\
    (1 <= month primeiro_de_janeiro <= 12 ->
     data_limite =
     {| year := year primeiro_de_janeiro + 1; month := month primeiro_de_janeiro;
        day := Z.min (day primeiro_de_janeiro)
                     (days_in_month (year primeiro_de_janeiro + 1)
                                    (month primeiro_de_janeiro));
        nanos := nanos primeiro_de_janeiro |}) /\
    forall r, In r duas_linhas ->
      exists d,
        to_datetime_dmY (Data r) = Ok d /\
        (In {| row := r; Data_dt := d |} (map anotar (firstn 1 duas_linhas)) <->
         Timestamp_leb d data_limite = true) /\
        (In {| row := r; Data_dt := d |} (map anotar (skipn 1 duas_linhas)) <->
         Timestamp_leb d data_limite = false) /\
        (0 <= nanos primeiro_de_janeiro -> d = normalize data_limite ->
         In {| row := r; Data_dt := d |} (map anotar (firstn 1 duas_linhas))).
Proof.
  assert (Ha : analisar_prazo_contabil (Table duas_linhas) primeiro_de_janeiro =
               Ok (map anotar (firstn 1 duas_linhas),
                   map anotar (skipn 1 duas_linhas)))
    by reflexivity.
  split; [exact Ha|].
  exact (classificacao_limite duas_linhas primeiro_de_janeiro _ _ Ha).
Defined.

(** C8, as stated, fails twice over.  The empty schedule that
    [gerar_tabela_amortizacao] builds when it has appended no row is
    [pd.DataFrame([])], a frame without columns, and classifying it raises
    [KeyError]; and an empty frame that does have the schedule's columns is
    not classified for every base date: for 15 June 9999 the cut-off does not
    exist and [ValueError] is raised. *)
Lemma classificacao_vazia_falha :
  @gerar_tabela_amortizacao float binary64 1000%float 0%float (-3)
     primeiro_de_janeiro = Ok NoColumns /\
  DataFrame_of_records (@nil (Row float)) = NoColumns /\
  @analisar_prazo_contabil float NoColumns primeiro_de_janeiro
    = Raise KeyError /\
  @analisar_prazo_contabil float (Table []) quinze_de_junho_9999
    = Raise ValueError.
Proof. repeat split; vm_compute; reflexivity. Qed.

(** C8, amended.  When the cut-off date (the base date plus twelve months)
    is not past year 9999, [analisar_prazo_contabil] applied to an empty
    frame that has the schedule's columns returns two empty buckets, and
    applied to the frame without columns raises [KeyError]; when the cut-off
    date is past year 9999 it raises [ValueError] on both.  The sums of
    [Amortização] and of [Juros] over an empty bucket are zero. *)
Theorem classificacao_vazia {T : Type} `{Number T} (data_base : Timestamp) :
  (is_ok (DateOffset_months data_base 12) = true ->
   analisar_prazo_contabil (@Table T []) data_base = Ok ([], []) /\
   analisar_prazo_contabil (@NoColumns T) data_base = Raise KeyError) /\
  (is_ok (DateOffset_months data_base 12) = false ->
   analisar_prazo_contabil (@Table T []) data_base = Raise ValueError /\
   analisar_prazo_contabil (@NoColumns T) data_base = Raise ValueError) /\
  @soma_amortizacao float binary64 [] = 0%float /\
  @soma_juros float binary64 [] = 0%float /\
  @soma_amortizacao Q Fraction [] = 0%Q /\
  @soma_juros Q Fraction [] = 0%Q.
Proof.
  split.
  { intros Hlim. unfold analisar_prazo_contabil.
    destruct (DateOffset_months data_base 12); [|discriminate].
    split; reflexivity. }
  split.
  { intros Hno. split; now apply analisar_prazo_contabil_sem_limite. }
  repeat split; reflexivity.
Qed.

Lemma classificacao_vazia_witness :
  (is_ok (DateOffset_months primeiro_de_janeiro 12) = true /\
   @analisar_prazo_contabil float (Table []) primeiro_de_janeiro
     = Ok ([], []) /\
   @analisar_prazo_contabil float NoColumns primeiro_de_janeiro
     = Raise KeyError) /\
  (is_ok (DateOffset_months quinze_de_junho_9999 12) = false /\
   @analisar_prazo_contabil float (Table []) quinze_de_junho_9999
     = Raise ValueError /\
   @analisar_prazo_contabil float NoColumns quinze_de_junho_9999
     = Raise ValueError).
Proof.
  split.
  - split; [reflexivity|].
    apply (proj1 (@classificacao_vazia float binary64 primeiro_de_janeiro)).
    reflexivity.
  - split; [reflexivity|].
    apply (proj1 (proj2 (@classificacao_vazia float binary64
                           quinze_de_junho_9999))).
    reflexivity.
Defined.

(** ** Exact arithmetic: the engine on [Fraction] *)

Section FractionFacts.

Local Open Scope Q_scope.

Lemma Fraction_soma (l : list Q) : soma l == Qsum l.
Proof.
  unfold soma. cbn [column_sum Fraction]. unfold object_sum.
  assert (Hgen : forall l a,
             fold_left (fun a b => Qred (a + b)) l a == a + Qsum l).
  { unfold Qsum. clear l.
    induction l as [|x l IH]; intros a; cbn [fold_left fold_right].
    - ring.
    - rewrite IH, Qred_correct. ring. }
  destruct l as [|x rest].
  - reflexivity.
  - rewrite Hgen. unfold Qsum. cbn [fold_right]. reflexivity.
Qed.

Lemma Qsum_app (l1 l2 : list Q) : Qsum (l1 ++ l2) == Qsum l1 + Qsum l2.
Proof.
  unfold Qsum. induction l1 as [|x l1 IH]; cbn [app fold_right].
  - ring.
  - rewrite IH. ring.
Qed.

Lemma Fraction_taxa_mensal_de (t : Q) :
  exists tm, taxa_mensal_de t = Ok tm /\ tm == t / 12 / 100.
Proof.
  unfold taxa_mensal_de. cbn [truediv lit Fraction].
  unfold Fraction_truediv.
  change (Qeq_bool (inject_Z 12) 0) with false.
  change (Qeq_bool (inject_Z 100) 0) with false.
  cbn [bind]. eexists. split; [reflexivity|].
  rewrite !Qred_correct. reflexivity.
Qed.

Lemma taxa_mensal_nonneg (t : Q) : 0 <= t -> 0 <= t / 12 / 100.
Proof.
  intros Ht. unfold Qdiv.
  repeat apply Qmult_le_0_compat; try exact Ht; discriminate.
Qed.

Lemma geo_rate (tm : Q) (k : nat) :
  tm * geo (1 + tm) k == (1 + tm) ^ Z.of_nat k - 1.
Proof.
  induction k as [|k IH].
  - cbn. ring.
  - cbn [geo]. rewrite Nat2Z.inj_succ, <- Z.add_1_r.
    rewrite Qpower_plus' by lia. change ((1 + tm) ^ 1) with (1 + tm).
    transitivity ((1 + tm) * (tm * geo (1 + tm) k) + tm); [ring|].
    rewrite IH. ring.
Qed.

Lemma geo_one (k : nat) (q : Q) : q == 1 -> geo q k == inject_Z (Z.of_nat k).
Proof.
  intros Hq. induction k as [|k IH].
  - reflexivity.
  - cbn [geo]. rewrite IH, Hq, Nat2Z.inj_succ, <- Z.add_1_r, inject_Z_plus.
    ring.
Qed.

Lemma geo_pos (q : Q) (k : nat) : 0 <= q -> (0 < k)%nat -> 0 < geo q k.
Proof.
  intros Hq Hk.
  assert (Hnn : forall j, 0 <= geo q j).
  { induction j as [|j IH]; cbn [geo]; [apply Qle_refl|].
    pose proof (Qmult_le_0_compat _ _ Hq IH). lra. }
  destruct k as [|k]; [lia|]. cbn [geo].
  pose proof (Qmult_le_0_compat _ _ Hq (Hnn k)). lra.
Qed.

Section WithInputs.

Variables (principal taxa : Q) (prazo : Z).
Hypothesis Hprincipal : 0 < principal.
Hypothesis Htaxa : 0 <= taxa.
Hypothesis Hprazo : (1 <= prazo)%Z.

(** With exact arithmetic a valid input never raises, and the payment is
    the straight-line or the annuity amount. *)
Lemma Fraction_calcular_parcela :
  exists v,
    calcular_parcela principal taxa prazo = Ok v /\
    let r := taxa / 12 / 100 in
    (r == 0 -> v == principal / inject_Z prazo) /\
    (~ r == 0 ->
     v == principal * r * (1 + r) ^ prazo / ((1 + r) ^ prazo - 1)).
Proof.
  unfold calcular_parcela.
  destruct (Fraction_taxa_mensal_de taxa) as (tm & -> & Htm).
  cbn [bind]. cbn [eqb lit Fraction of_int add sub mul truediv pow].
  change (inject_Z 0) with 0. change (inject_Z 1) with 1.
  destruct (Qeq_bool tm 0) eqn:Hz.
  - apply Qeq_bool_eq in Hz. cbn [bind]. unfold Fraction_truediv.
    assert (Hn : Qeq_bool (inject_Z prazo) 0 = false).
    { destruct (Qeq_bool (inject_Z prazo) 0) eqn:Hb; [|reflexivity].
      apply Qeq_bool_eq in Hb. unfold Qeq in Hb. cbn in Hb. lia. }
    rewrite Hn. eexists. split; [reflexivity|]. cbn zeta. split.
    + intros _. apply Qred_correct.
    + intros Hnz. exfalso. apply Hnz. now rewrite <- Htm.
  - apply Qeq_bool_neq in Hz. unfold Fraction_pow.
    replace (prazo <? 0)%Z with false by (symmetry; apply Z.ltb_ge; lia).
    cbn [andb bind]. unfold Fraction_truediv.
    assert (Hr : 0 < tm).
    { assert (H : 0 <= tm) by (rewrite Htm; now apply taxa_mensal_nonneg).
      apply Qle_lteq in H. destruct H as [H|H]; [exact H|].
      exfalso. apply Hz. now symmetry. }
    assert (Hp : 1 < (1 + tm) ^ prazo) by (apply Qpower_1_lt; [lra|lia]).
    assert (Hd : Qeq_bool (Qred (Qred (Qred (1 + tm) ^ prazo) - 1)) 0 = false).
    { destruct (Qeq_bool _ 0) eqn:Hb; [|reflexivity].
      apply Qeq_bool_eq in Hb. rewrite !Qred_correct in Hb. lra. }
    rewrite Hd. eexists. split; [reflexivity|]. cbn zeta. split.
    + intros Hr0. exfalso. apply Hz. now rewrite Htm.
    + intros _. rewrite !Qred_correct, <- Htm.
      field. lra.
Qed.

(** The payment times the geometric sum is the compounded principal:
    the relation from which the exact properties of the schedule follow,
    whether the rate is zero or not. *)
Lemma Fraction_parcela_geo (tm pa : Q) :
  taxa_mensal_de taxa = Ok tm ->
  calcular_parcela principal taxa prazo = Ok pa ->
  0 <= tm /\
  pa * geo (1 + tm) (Z.to_nat prazo) == principal * (1 + tm) ^ prazo.
Proof.
  intros Htm Hpa.
  destruct (Fraction_taxa_mensal_de taxa) as (tm' & Htm' & Hr).
  rewrite Htm in Htm'. inversion Htm'; subst tm'. clear Htm'.
  destruct Fraction_calcular_parcela as (v & Hv & Hz & Hnz).
  rewrite Hpa in Hv. inversion Hv; subst v. clear Hv.
  cbn zeta in Hz, Hnz. rewrite <- Hr in Hz, Hnz.
  assert (H0 : 0 <= tm) by (rewrite Hr; now apply taxa_mensal_nonneg).
  split; [exact H0|].
  assert (Hn : 0 < inject_Z prazo).
  { change 0 with (inject_Z 0). rewrite <- Zlt_Qlt. lia. }
  destruct (Qeq_dec tm 0) as [Hz0|Hnz0].
  - rewrite (Hz Hz0).
    assert (Hq : 1 + tm == 1) by (rewrite Hz0; ring).
    rewrite (geo_one _ _ Hq), Hq, Qpower_1, Z2Nat.id by lia.
    field. lra.
  - rewrite (Hnz Hnz0).
    assert (Hr' : 0 < tm).
    { apply Qle_lteq in H0. destruct H0 as [H0|H0]; [exact H0|].
      exfalso. apply Hnz0. now symmetry. }
    assert (Hp : 1 < (1 + tm) ^ prazo) by (apply Qpower_1_lt; [lra|lia]).
    pose proof (geo_rate tm (Z.to_nat prazo)) as Hg.
    rewrite Z2Nat.id in Hg by lia.
    transitivity (principal * (1 + tm) ^ prazo / ((1 + tm) ^ prazo - 1)
                  * (tm * geo (1 + tm) (Z.to_nat prazo))).
    + field. lra.
    + rewrite Hg. field. lra.
Qed.

End WithInputs.

End FractionFacts.

Section FractionLoop.

Local Open Scope Q_scope.

Variables (principal tm pa : Q).
Variable prazo : Z.
Variable data_inicio : Timestamp.

Let s := saldo_apos principal tm pa.
Let linha_i := linha principal tm pa prazo data_inicio.

Lemma Fraction_saldo_step (k : nat) :
  s (S k) == s k - (pa - s k * tm).
Proof.
  unfold s. cbn [saldo_apos sub mul Fraction].
  now rewrite !Qred_correct.
Qed.

Lemma Fraction_saldo_geo (k : nat) :
  s k == principal * (1 + tm) ^ Z.of_nat k - pa * geo (1 + tm) k.
Proof.
  induction k as [|k IH].
  - unfold s. cbn. ring.
  - rewrite Fraction_saldo_step, IH. cbn [geo].
    rewrite Nat2Z.inj_succ, <- Z.add_1_r, Qpower_plus' by lia.
    change ((1 + tm) ^ 1) with (1 + tm). ring.
Qed.

(** The principal portion of a row before the last one. *)
Lemma Fraction_amortizacao_plain (i : Z) :
  (1 <= i)%Z -> i <> prazo ->
  Amortizacao (linha_i i)
  == s (Z.to_nat (i - 1)) - s (Z.to_nat i).
Proof.
  intros Hi Hne. unfold linha_i, linha. cbn [Amortizacao].
  replace (i =? prazo)%Z with false by (symmetry; now apply Z.eqb_neq).
  replace (Z.to_nat i) with (S (Z.to_nat (i - 1))) by lia.
  rewrite Fraction_saldo_step. unfold s.
  cbn [sub mul Fraction]. rewrite !Qred_correct. ring.
Qed.

(** The principal portion of the last row: what was still owed. *)
Lemma Fraction_amortizacao_last :
  (1 <= prazo)%Z ->
  Amortizacao (linha_i prazo) == s (Z.to_nat (prazo - 1)).
Proof.
  intros Hn. unfold linha_i, linha. cbn [Amortizacao].
  rewrite Z.eqb_refl. unfold s.
  cbn [add sub mul Fraction]. rewrite !Qred_correct. ring.
Qed.

Lemma Fraction_soma_prefix (m : nat) :
  (Z.of_nat m < prazo)%Z ->
  Qsum (map (@Amortizacao Q) (map linha_i (range 1 (Z.of_nat m + 1))))
  == principal - s m.
Proof.
  induction m as [|m IH]; intros Hm.
  - rewrite range_empty by (cbn; lia). unfold s. cbn. ring.
  - rewrite range_snoc, !map_app, Qsum_app, IH by lia.
    cbn [map]. unfold Qsum at 1. cbn [fold_right].
    rewrite Fraction_amortizacao_plain by lia.
    replace (Z.to_nat (Z.of_nat (S m) - 1)) with m by lia.
    rewrite Nat2Z.id. ring.
Qed.

(** The principal portions add up to the principal, whatever the inputs. *)
Lemma Fraction_soma_amortizacao :
  (1 <= prazo)%Z ->
  Qsum (map (@Amortizacao Q) (map linha_i (range 1 (prazo + 1))))
  == principal.
Proof.
  intros Hn.
  replace prazo with (Z.of_nat (S (Z.to_nat (prazo - 1)))) at 1 by lia.
  rewrite range_snoc, !map_app, Qsum_app, Fraction_soma_prefix by lia.
  replace (Z.of_nat (S (Z.to_nat (prazo - 1)))) with prazo by lia.
  cbn [map]. unfold Qsum at 1. cbn [fold_right].
  rewrite Fraction_amortizacao_last by lia. ring.
Qed.

Section Valid.

Hypothesis Hprincipal : 0 < principal.
Hypothesis Htm : 0 <= tm.
Hypothesis Hprazo : (1 <= prazo)%Z.
Hypothesis Hgeo :
  pa * geo (1 + tm) (Z.to_nat prazo) == principal * (1 + tm) ^ prazo.

Lemma Fraction_parcela_gt_juros : principal * tm < pa.
Proof.
  pose proof (geo_rate tm (Z.to_nat prazo)) as Hg.
  rewrite Z2Nat.id in Hg by lia.
  assert (Hpos : 0 < geo (1 + tm) (Z.to_nat prazo))
    by (apply geo_pos; [lra|lia]).
  assert (HD : (pa - principal * tm) * geo (1 + tm) (Z.to_nat prazo)
               == principal).
  { transitivity (pa * geo (1 + tm) (Z.to_nat prazo)
                  - principal * (tm * geo (1 + tm) (Z.to_nat prazo)));
      [ring|].
    rewrite Hgeo, Hg. ring. }
  destruct (Qlt_le_dec (principal * tm) pa) as [Hlt|Hle]; [exact Hlt|].
  exfalso.
  assert (Hneg : (pa - principal * tm) * geo (1 + tm) (Z.to_nat prazo) <= 0).
  { rewrite Qmult_comm.
    setoid_replace 0 with (geo (1 + tm) (Z.to_nat prazo) * 0) by ring.
    apply Qmult_le_l; [exact Hpos|lra]. }
  rewrite HD in Hneg. lra.
Qed.

(** Each step pays off a positive amount. *)
Lemma Fraction_saldo_decreases (k : nat) : s (S k) < s k.
Proof.
  rewrite Fraction_saldo_step.
  assert (Ha : pa - s k * tm == (pa - principal * tm) * (1 + tm) ^ Z.of_nat k).
  { rewrite Fraction_saldo_geo.
    transitivity (pa * (1 + tm * geo (1 + tm) k)
                  - principal * tm * (1 + tm) ^ Z.of_nat k); [ring|].
    rewrite geo_rate. ring. }
  rewrite Ha.
  assert (Hq : 0 < (1 + tm) ^ Z.of_nat k) by (apply Qpower_0_lt; lra).
  pose proof Fraction_parcela_gt_juros as HD.
  assert (Hprod : 0 < (pa - principal * tm) * (1 + tm) ^ Z.of_nat k)
    by (apply Qmult_lt_0_compat; [lra|exact Hq]).
  lra.
Qed.

Lemma Fraction_saldo_final : s (Z.to_nat prazo) == 0.
Proof.
  rewrite Fraction_saldo_geo, Z2Nat.id, Hgeo by lia. ring.
Qed.

(** Row by row the balance goes down, and the last row closes at zero. *)
Lemma Fraction_saldo_rows (i : Z) :
  (1 <= i)%Z -> (i + 1 < prazo + 1)%Z ->
  Saldo_Devedor (linha_i (i + 1)) < Saldo_Devedor (linha_i i).
Proof.
  intros Hi Hlt. unfold linha_i, linha. cbn [Saldo_Devedor].
  replace (i =? prazo)%Z with false by (symmetry; apply Z.eqb_neq; lia).
  replace (Z.to_nat (i + 1 - 1)) with (S (Z.to_nat (i - 1))) by lia.
  fold s.
  assert (Hsi : sub (s (Z.to_nat (i - 1)))
                    (sub pa (mul (s (Z.to_nat (i - 1))) tm))
                = s (S (Z.to_nat (i - 1)))) by reflexivity.
  rewrite Hsi.
  destruct (i + 1 =? prazo)%Z eqn:Hlast.
  - apply Z.eqb_eq in Hlast. cbn [lit Fraction]. change (inject_Z 0) with 0.
    rewrite <- Fraction_saldo_final.
    replace (Z.to_nat prazo) with (S (S (Z.to_nat (i - 1)))) by lia.
    apply Fraction_saldo_decreases.
  - assert (Hsi' : sub (s (S (Z.to_nat (i - 1))))
                       (sub pa (mul (s (S (Z.to_nat (i - 1)))) tm))
                   = s (S (S (Z.to_nat (i - 1))))) by reflexivity.
    rewrite Hsi'. apply Fraction_saldo_decreases.
Qed.

End Valid.

End FractionLoop.

(** ** Rows of the schedule, for any arithmetic *)

Section ScheduleFacts.

Context {T : Type} `{Number T}.

Variables (principal taxa : T) (prazo : Z) (data_inicio : Timestamp).
Variable rows : list (Row T).
Hypothesis Hrows :
  gerar_tabela_amortizacao principal taxa prazo data_inicio = Ok (Table rows).

Lemma tabela_length : List.length rows = Z.to_nat prazo /\ 1 <= prazo.
Proof.
  destruct (gerar_tabela_amortizacao_Table _ _ _ _ _ Hrows)
    as (tm & pa & _ & _ & Hn & ->).
  rewrite length_map, range_length. split; [f_equal; lia|exact Hn].
Qed.

(** Every row is the row of its instalment number. *)
Lemma tabela_rows :
  exists taxa_mensal parcela,
    taxa_mensal_de taxa = Ok taxa_mensal /\
    calcular_parcela principal taxa prazo = Ok parcela /\
    (forall r, In r rows ->
       1 <= Parcela r <= prazo /\
       r = linha principal taxa_mensal parcela prazo data_inicio (Parcela r)) /\
    (forall i, 1 <= i <= prazo ->
       In (linha principal taxa_mensal parcela prazo data_inicio i) rows).
Proof.
  destruct (gerar_tabela_amortizacao_Table _ _ _ _ _ Hrows)
    as (tm & pa & Htm & Hpa & Hn & ->).
  exists tm, pa. split; [exact Htm|]. split; [exact Hpa|]. split.
  - intros r Hr. apply in_map_iff in Hr. destruct Hr as (i & <- & Hi).
    apply range_In in Hi. cbn [Parcela linha]. split; [lia|reflexivity].
  - intros i Hi. apply in_map. apply range_In. lia.
Qed.

Lemma tabela_ascending : ascending rows.
Proof.
  destruct (gerar_tabela_amortizacao_Table _ _ _ _ _ Hrows)
    as (tm & pa & _ & _ & _ & ->).
  unfold ascending. clear Hrows.
  pose proof (range_sorted 1 (prazo + 1)) as Hs.
  induction Hs as [|i l Hs IH Hall]; cbn [map]; constructor.
  - exact IH.
  - rewrite Forall_forall in *. intros r Hr.
    apply in_map_iff in Hr. destruct Hr as (j & <- & Hj).
    cbn [Parcela linha]. now apply Hall.
Qed.

End ScheduleFacts.

(** ** Claims about the engine *)

(** With exact arithmetic [calcular_parcela] is the function the formula
    describes: on [principal > 0], [taxa >= 0], [prazo >= 1] it returns
    [principal / prazo] when the monthly rate is zero and the annuity amount
    otherwise. *)
Lemma calcular_parcela_Fraction (principal taxa : Q) (prazo : Z) :
  (0 < principal)%Q -> (0 <= taxa)%Q -> 1 <= prazo ->
  exists v,
    calcular_parcela principal taxa prazo = Ok v /\
    let r := (taxa / 12 / 100)%Q in
    (r == 0 -> v == principal / inject_Z prazo)%Q /\
    (~ r == 0 ->
     v == principal * r * (1 + r) ^ prazo / ((1 + r) ^ prazo - 1))%Q.
Proof. intros. now apply Fraction_calcular_parcela. Qed.

(** C1. On the binary64 input [principal = 1000.0], [taxa = 1e-13],
    [prazo = 12], which satisfies [principal > 0], [taxa >= 0] and
    [prazo >= 1], the monthly rate is not zero, so the annuity branch is
    taken; there [1 + taxa_mensal] rounds to [1.0], the denominator
    [(1 + taxa_mensal) ** prazo - 1] is [0.0], and [calcular_parcela] raises
    [ZeroDivisionError] instead of returning the annuity amount.  The same
    happens whatever libm's [pow] is, and [gerar_tabela_amortizacao] fails
    with it. *)
Theorem calcular_parcela_taxa_minuscula :
  let principal := 1000%float in
  let taxa := 1e-13%float in
  let prazo := 12 in
  PrimFloat.ltb 0 principal = true /\
  PrimFloat.leb 0 taxa = true /\
  1 <= prazo /\
  (exists taxa_mensal,
      @taxa_mensal_de float binary64 taxa = Ok taxa_mensal /\
      PrimFloat.eqb taxa_mensal 0 = false /\
      PrimFloat.add 1 taxa_mensal = 1%float) /\
  @calcular_parcela float binary64 principal taxa prazo
    = Raise ZeroDivisionError /\
  (forall libm_pow,
      @calcular_parcela float (binary64_with libm_pow) principal taxa prazo
      = Raise ZeroDivisionError) /\
  @gerar_tabela_amortizacao float binary64 principal taxa prazo
     primeiro_de_janeiro = Raise ZeroDivisionError.
Proof.
  cbv zeta.
  split; [vm_compute; reflexivity|].
  split; [vm_compute; reflexivity|].
  split; [lia|].
  split.
  { eexists. split; [vm_compute; reflexivity|].
    split; vm_compute; reflexivity. }
  split; [vm_compute; reflexivity|].
  split; [|vm_compute; reflexivity].
  intros libm_pow. vm_compute. reflexivity.
Qed.

(** C2, as stated, fails in binary64, also when a tolerance of [1e-6] is
    granted: for [principal = 1e12], a zero rate and six instalments the
    schedule has six rows and the last balance is zero, but the principal
    portions add up to 1000000000000.0001220703125, both when added as floats
    and when added exactly. *)
Lemma soma_amortizacao_binary64_inexata :
  exists rows,
    @gerar_tabela_amortizacao float binary64 1e12%float 0%float 6
       primeiro_de_janeiro = Ok (Table rows) /\
    List.length rows = 6%nat /\
    @soma float binary64 (map (@Amortizacao float) rows)
      = 1000000000000.0001220703125%float /\
    PrimFloat.eqb (@soma float binary64 (map (@Amortizacao float) rows))
                  1e12%float = false /\
    PrimFloat.ltb 1e-6
      (PrimFloat.abs
         (PrimFloat.sub (@soma float binary64 (map (@Amortizacao float) rows))
                        1e12)) = true /\
    (1 / 1000000
     < Qabs (Qsum (map (fun r => Q_of_float (Amortizacao r)) rows)
             - 1000000000000))%Q.
Proof.
  eexists. split; [vm_compute; reflexivity|].
  split; [reflexivity|]. split; [vm_compute; reflexivity|].
  split; [vm_compute; reflexivity|].
  split; vm_compute; reflexivity.
Qed.

(** C2, amended.  Whenever [gerar_tabela_amortizacao] returns a schedule it
    has exactly [prazo] rows, and only the row numbered [prazo] carries the
    correction: its principal portion is the regular one plus the balance
    left over, every other row's is the payment minus the interest.  With
    exact arithmetic a valid input whose last due date is not past year 9999
    always gives a schedule, and its principal portions add up to the
    principal exactly. *)
Theorem tabela_soma_amortizacao :
  (forall (T : Type) (N : Number T) (principal taxa : T) (prazo : Z)
          (data_inicio : Timestamp) (rows : list (Row T)),
      gerar_tabela_amortizacao principal taxa prazo data_inicio
        = Ok (Table rows) ->
      List.length rows = Z.to_nat prazo /\ 1 <= prazo /\
      exists taxa_mensal parcela,
        taxa_mensal_de taxa = Ok taxa_mensal /\
        calcular_parcela principal taxa prazo = Ok parcela /\
        forall r, In r rows ->
          let saldo :=
            saldo_apos principal taxa_mensal parcela (Z.to_nat (Parcela r - 1)) in
          let regular := sub parcela (mul saldo taxa_mensal) in
          Amortizacao r =
          if Parcela r =? prazo then add regular (sub saldo regular)
          else regular) /\
  (forall (principal taxa : Q) (prazo : Z) (data_inicio : Timestamp),
      (0 < principal)%Q -> (0 <= taxa)%Q -> 1 <= prazo ->
      Timestamp_real data_inicio = true ->
      is_ok (DateOffset_months data_inicio prazo) = true ->
      exists rows,
        gerar_tabela_amortizacao principal taxa prazo data_inicio
          = Ok (Table rows) /\
        List.length rows = Z.to_nat prazo /\
        (soma (map (@Amortizacao Q) rows) == principal)%Q).
Proof.
  split.
  - intros T N principal taxa prazo data_inicio rows Hrows.
    destruct (tabela_length _ _ _ _ _ Hrows) as [Hlen Hn].
    split; [exact Hlen|]. split; [exact Hn|].
    destruct (tabela_rows _ _ _ _ _ Hrows) as (tm & pa & Htm & Hpa & Hin & _).
    exists tm, pa. split; [exact Htm|]. split; [exact Hpa|].
    intros r Hr. destruct (Hin r Hr) as [_ Heq]. cbv zeta.
    remember (Parcela r) as i eqn:Hi. rewrite Heq. reflexivity.
  - intros principal taxa prazo data_inicio HP Ht Hn Hv Hlast.
    destruct (Fraction_taxa_mensal_de taxa) as (tm & Htm & _).
    destruct (calcular_parcela_Fraction principal taxa prazo HP Ht Hn)
      as (pa & Hpa & _).
    eexists. split; [apply (gerar_tabela_amortizacao_ok _ _ _ _ tm pa); assumption|].
    split; [rewrite length_map, range_length; f_equal; lia|].
    rewrite Fraction_soma. now apply Fraction_soma_amortizacao.
Qed.

Lemma tabela_soma_amortizacao_witness :
  (exists rows,
      gerar_tabela_amortizacao (100000%Q) (12%Q) 36 primeiro_de_janeiro
        = Ok (Table rows) /\
      List.length rows = Z.to_nat 36 /\
      (soma (map (@Amortizacao Q) rows) == 100000)%Q).
Proof.
  apply (proj2 tabela_soma_amortizacao 100000%Q 12%Q 36 primeiro_de_janeiro).
  - reflexivity.
  - discriminate.
  - lia.
  - reflexivity.
  - reflexivity.
Defined.

(** C5, as stated, fails: there is no validation and no invalid-input
    exception.  A negative principal, a negative rate and a negative term
    are computed with like any other value, by both functions. *)
Lemma entradas_invalidas_aceitas :
  @calcular_parcela float binary64 (-1000)%float 0%float 1
    = Ok (-1000)%float /\
  is_ok (@gerar_tabela_amortizacao float binary64 (-1000)%float 0%float 1
           primeiro_de_janeiro) = true /\
  is_ok (@calcular_parcela float binary64 1000%float (-12)%float 12) = true /\
  is_ok (@gerar_tabela_amortizacao float binary64 1000%float (-12)%float 12
           primeiro_de_janeiro) = true /\
  is_ok (@calcular_parcela float binary64 1000%float 0%float (-3)) = true /\
  @gerar_tabela_amortizacao float binary64 1000%float 0%float (-3)
     primeiro_de_janeiro = Ok NoColumns /\
  is_ok (calcular_parcela (-1000)%Q 0%Q 1) = true /\
  is_ok (gerar_tabela_amortizacao (-1000)%Q 0%Q 1 primeiro_de_janeiro) = true.
Proof. repeat split; vm_compute; reflexivity. Qed.

Lemma calcular_parcela_binary64_exn (libm_pow : float -> float -> float)
    (principal taxa : float) (prazo : Z) (e : exn) :
  @calcular_parcela float (binary64_with libm_pow) principal taxa prazo
    = Raise e ->
  e = ZeroDivisionError \/ e = OverflowError.
Proof.
  unfold calcular_parcela, taxa_mensal_de.
  cbn [truediv pow of_int eqb lit add sub mul binary64_with].
  unfold float_truediv, float_pow_with, float_of_int.
  repeat (match goal with
          | |- context [if ?b then _ else _] => destruct b
          end; cbn [bind]);
    intros Heq; inversion Heq; auto.
Qed.

Lemma calcular_parcela_Fraction_exn (principal taxa : Q) (prazo : Z) (e : exn) :
  calcular_parcela principal taxa prazo = Raise e -> e = ZeroDivisionError.
Proof.
  unfold calcular_parcela, taxa_mensal_de.
  cbn [truediv pow of_int eqb lit add sub mul Fraction].
  unfold Fraction_truediv, Fraction_pow.
  repeat (match goal with
          | |- context [if ?b then _ else _] => destruct b
          end; cbn [bind]);
    intros Heq; inversion Heq; auto.
Qed.

Lemma calcular_parcela_binary64_prazo_zero (libm_pow : float -> float -> float)
    (principal taxa : float) :
  @calcular_parcela float (binary64_with libm_pow) principal taxa 0
    = Raise ZeroDivisionError.
Proof.
  unfold calcular_parcela, taxa_mensal_de.
  cbn [truediv pow of_int eqb lit add sub mul binary64_with].
  unfold float_truediv at 1 2.
  change (PrimFloat.eqb (float_of_Z 12) 0) with false.
  change (PrimFloat.eqb (float_of_Z 100) 0) with false.
  cbn [bind].
  destruct (PrimFloat.eqb _ (float_of_Z 0)); reflexivity.
Qed.

Lemma calcular_parcela_Fraction_prazo_zero (principal taxa : Q) :
  calcular_parcela principal taxa 0 = Raise ZeroDivisionError.
Proof.
  unfold calcular_parcela.
  destruct (Fraction_taxa_mensal_de taxa) as (tm & -> & _).
  cbn [bind eqb lit of_int truediv pow add sub mul Fraction].
  destruct (Qeq_bool tm (inject_Z 0)); reflexivity.
Qed.

(** How [gerar_tabela_amortizacao] fails: with the exception of the payment
    computation, or, the payment computed, with [ValueError] when the last
    due date does not exist. *)
Lemma gerar_tabela_amortizacao_falha {T : Type} `{Number T}
    (principal taxa : T) (prazo : Z) (data_inicio : Timestamp) (e : exn) :
  Timestamp_real data_inicio = true ->
  gerar_tabela_amortizacao principal taxa prazo data_inicio = Raise e <->
  calcular_parcela principal taxa prazo = Raise e \/
  (is_ok (calcular_parcela principal taxa prazo) = true /\ 1 <= prazo /\
   is_ok (DateOffset_months data_inicio prazo) = false /\ e = ValueError).
Proof.
  intros Hv. rewrite gerar_tabela_amortizacao_eq, forallb_datas by exact Hv.
  destruct (taxa_mensal_de taxa) as [tm|e1] eqn:Htm.
  - destruct (calcular_parcela principal taxa prazo) as [pa|e2]; cbn [is_ok].
    + destruct (prazo <=? 0) eqn:Hp; cbn [orb].
      * apply Z.leb_le in Hp. split; [discriminate|].
        intros [Hx|(_ & Hx & _)]; [discriminate|lia].
      * apply Z.leb_gt in Hp.
        destruct (is_ok (DateOffset_months data_inicio prazo)).
        -- split; [discriminate|].
           intros [Hx|(_ & _ & Hx & _)]; discriminate.
        -- split.
           ++ intros Heq. inversion Heq. right.
              repeat split; lia.
           ++ intros [Hx|(_ & _ & _ & ->)]; [discriminate|reflexivity].
    + split.
      * intros Heq. inversion Heq. now left.
      * intros [Hx|(Hx & _)]; [now inversion Hx|discriminate].
  - unfold calcular_parcela. rewrite Htm. cbn [bind is_ok]. split.
    + intros Heq. inversion Heq. now left.
    + intros [Hx|(Hx & _)]; [now inversion Hx|discriminate].
Qed.

(** When the payment computation fails, no row has been appended. *)
Lemma gerar_tabela_amortizacao_rows_parcela {T : Type} `{Number T}
    (principal taxa : T) (prazo : Z) (data_inicio : Timestamp) (e : exn) :
  calcular_parcela principal taxa prazo = Raise e ->
  gerar_tabela_amortizacao_rows principal taxa prazo data_inicio
  = ([], Raise e).
Proof.
  unfold gerar_tabela_amortizacao_rows, calcular_parcela.
  destruct (taxa_mensal_de taxa) as [tm|e1]; cbn [bind].
  - intros Hp. fold (calcular_parcela principal taxa prazo) in *.
    unfold calcular_parcela. now rewrite Hp.
  - intros Heq. now inversion Heq.
Qed.

(** When a due date does not exist, the rows of the instalments before the
    first such date have been appended. *)
Lemma gerar_tabela_amortizacao_rows_data {T : Type} `{Number T}
    (principal taxa : T) (prazo : Z) (data_inicio : Timestamp)
    (taxa_mensal parcela : T) (m : Z) :
  taxa_mensal_de taxa = Ok taxa_mensal ->
  calcular_parcela principal taxa prazo = Ok parcela ->
  0 <= m < prazo ->
  (forall i, 1 <= i <= m -> is_ok (DateOffset_months data_inicio i) = true) ->
  is_ok (DateOffset_months data_inicio (m + 1)) = false ->
  gerar_tabela_amortizacao_rows principal taxa prazo data_inicio
  = (map (linha principal taxa_mensal parcela prazo data_inicio)
         (range 1 (m + 1)),
     Raise ValueError).
Proof.
  intros Htm Hpa Hm Hok Hno.
  unfold gerar_tabela_amortizacao_rows. rewrite Htm, Hpa.
  pose proof (laco_falha principal taxa_mensal parcela prazo data_inicio
                (Z.to_nat m) ValueError) as Hf.
  rewrite Z2Nat.id in Hf by lia.
  rewrite Hf; [reflexivity|lia|exact Hok|].
  now apply DateOffset_months_not_ok.
Qed.

(** A negative term goes through when the rate is zero. *)
Lemma calcular_parcela_Fraction_taxa_zero (principal : Q) (prazo : Z) :
  prazo <> 0 ->
  calcular_parcela principal 0%Q prazo = Ok (Qred (principal / inject_Z prazo)).
Proof.
  intros Hn. unfold calcular_parcela.
  change (taxa_mensal_de 0%Q) with (@Ok Q 0%Q).
  cbn [bind eqb lit of_int truediv Fraction]. change (Qeq_bool 0 (inject_Z 0)) with true.
  cbv iota. cbn [bind]. unfold Fraction_truediv.
  destruct (Qeq_bool (inject_Z prazo) 0) eqn:Hb; [|reflexivity].
  apply Qeq_bool_eq in Hb. unfold Qeq in Hb. cbn in Hb. lia.
Qed.

(** C5, amended.  Neither function validates its inputs: with exact
    arithmetic the payment is computed for every principal, positive or not,
    when the rate is not negative and the term is at least 1, and for every
    negative term when the rate is zero, the schedule then being a frame
    without rows.  The payment computation raises only what the arithmetic
    raises: [ZeroDivisionError] with exact arithmetic, [ZeroDivisionError] or
    [OverflowError] in binary64; a term of zero always raises
    [ZeroDivisionError].  The schedule builder, started from a real date,
    fails exactly in two ways: with the exception of the payment computation,
    no row having been appended; or, the payment computed and the term
    positive, with [ValueError] when the last due date would be past year
    9999, the rows of the instalments before the first missing date having
    been appended.  With exact arithmetic an input with [taxa >= 0],
    [prazo >= 1] and a last due date not past year 9999 raises nothing. *)
Theorem falhas_sem_validacao :
  (forall (principal taxa : Q) (prazo : Z),
      (0 <= taxa)%Q -> 1 <= prazo ->
      is_ok (calcular_parcela principal taxa prazo) = true) /\
  (forall (principal : Q) (prazo : Z) (data_inicio : Timestamp),
      prazo < 0 ->
      calcular_parcela principal 0%Q prazo
        = Ok (Qred (principal / inject_Z prazo)) /\
      gerar_tabela_amortizacao principal 0%Q prazo data_inicio = Ok NoColumns) /\
  (forall (T : Type) (N : Number T) (principal taxa : T) (prazo : Z)
          (data_inicio : Timestamp) (e : exn),
      Timestamp_real data_inicio = true ->
      (gerar_tabela_amortizacao principal taxa prazo data_inicio = Raise e <->
       calcular_parcela principal taxa prazo = Raise e \/
       (is_ok (calcular_parcela principal taxa prazo) = true /\ 1 <= prazo /\
        is_ok (DateOffset_months data_inicio prazo) = false /\
        e = ValueError))) /\
  (forall (T : Type) (N : Number T) (principal taxa : T) (prazo : Z)
          (data_inicio : Timestamp) (e : exn),
      calcular_parcela principal taxa prazo = Raise e ->
      gerar_tabela_amortizacao_rows principal taxa prazo data_inicio
      = ([], Raise e)) /\
  (forall (T : Type) (N : Number T) (principal taxa : T) (prazo : Z)
          (data_inicio : Timestamp) (taxa_mensal parcela : T) (m : Z),
      taxa_mensal_de taxa = Ok taxa_mensal ->
      calcular_parcela principal taxa prazo = Ok parcela ->
      0 <= m < prazo ->
      (forall i, 1 <= i <= m ->
         is_ok (DateOffset_months data_inicio i) = true) ->
      is_ok (DateOffset_months data_inicio (m + 1)) = false ->
      gerar_tabela_amortizacao_rows principal taxa prazo data_inicio
      = (map (linha principal taxa_mensal parcela prazo data_inicio)
             (range 1 (m + 1)),
         Raise ValueError)) /\
  (forall (principal taxa : Q) (prazo : Z) (e : exn),
      calcular_parcela principal taxa prazo = Raise e ->
      e = ZeroDivisionError) /\
  (forall libm_pow (principal taxa : float) (prazo : Z) (e : exn),
      @calcular_parcela float (binary64_with libm_pow) principal taxa prazo
        = Raise e ->
      e = ZeroDivisionError \/ e = OverflowError) /\
  (forall (principal taxa : Q),
      calcular_parcela principal taxa 0 = Raise ZeroDivisionError) /\
  (forall libm_pow (principal taxa : float),
      @calcular_parcela float (binary64_with libm_pow) principal taxa 0
        = Raise ZeroDivisionError) /\
  (forall (principal taxa : Q) (prazo : Z) (data_inicio : Timestamp),
      (0 <= taxa)%Q -> 1 <= prazo ->
      Timestamp_real data_inicio = true ->
      is_ok (DateOffset_months data_inicio prazo) = true ->
      is_ok (calcular_parcela principal taxa prazo) = true /\
      is_ok (gerar_tabela_amortizacao principal taxa prazo data_inicio) = true).
Proof.
  split.
  { intros principal taxa prazo Ht Hn.
    destruct (Fraction_calcular_parcela principal taxa prazo Ht Hn)
      as (pa & -> & _).
    reflexivity. }
  split.
  { intros principal prazo data_inicio Hn.
    assert (Hp : calcular_parcela principal 0%Q prazo
                 = Ok (Qred (principal / inject_Z prazo)))
      by (apply calcular_parcela_Fraction_taxa_zero; lia).
    split; [exact Hp|].
    rewrite gerar_tabela_amortizacao_eq, Hp.
    destruct (taxa_mensal_de 0%Q) as [tm|e] eqn:Htm;
      [|vm_compute in Htm; discriminate].
    rewrite range_empty by lia. reflexivity. }
  split.
  { intros T N principal taxa prazo data_inicio e Hv.
    now apply gerar_tabela_amortizacao_falha. }
  split.
  { intros T N principal taxa prazo data_inicio e.
    apply gerar_tabela_amortizacao_rows_parcela. }
  split.
  { intros T N principal taxa prazo data_inicio tm pa m.
    apply gerar_tabela_amortizacao_rows_data. }
  split; [exact calcular_parcela_Fraction_exn|].
  split; [exact calcular_parcela_binary64_exn|].
  split; [exact calcular_parcela_Fraction_prazo_zero|].
  split; [exact calcular_parcela_binary64_prazo_zero|].
  intros principal taxa prazo data_inicio Ht Hn Hv Hlast.
  destruct (Fraction_taxa_mensal_de taxa) as (tm & Htm & _).
  destruct (Fraction_calcular_parcela principal taxa prazo Ht Hn)
    as (pa & Hpa & _).
  rewrite Hpa,
    (gerar_tabela_amortizacao_ok _ _ _ data_inicio tm pa Htm Hpa Hn Hv Hlast).
  split; reflexivity.
Qed.

Lemma falhas_sem_validacao_witness :
  is_ok (calcular_parcela (-1000)%Q 12%Q 36) = true /\
  (calcular_parcela 1000%Q 0%Q (-3) = Ok (Qred (1000 / inject_Z (-3))) /\
   gerar_tabela_amortizacao 1000%Q 0%Q (-3) primeiro_de_janeiro
     = Ok NoColumns) /\
  (Timestamp_real quinze_de_junho_9999 = true /\
   (gerar_tabela_amortizacao 100000%Q 12%Q 12 quinze_de_junho_9999
      = Raise ValueError <->
    calcular_parcela 100000%Q 12%Q 12 = Raise ValueError \/
    (is_ok (calcular_parcela 100000%Q 12%Q 12) = true /\ 1 <= 12 /\
     is_ok (DateOffset_months quinze_de_junho_9999 12) = false /\
     ValueError = ValueError))) /\
  (@calcular_parcela float binary64 1000%float 1e-13%float 12
     = Raise ZeroDivisionError /\
   @gerar_tabela_amortizacao_rows float binary64 1000%float 1e-13%float 12
      primeiro_de_janeiro = ([], Raise ZeroDivisionError)) /\
  (exists taxa_mensal parcela,
      taxa_mensal_de 12%Q = Ok taxa_mensal /\
      calcular_parcela 100000%Q 12%Q 12 = Ok parcela /\
      gerar_tabela_amortizacao_rows 100000%Q 12%Q 12 quinze_de_junho_9999
      = (map (linha 100000%Q taxa_mensal parcela 12 quinze_de_junho_9999)
             (range 1 (6 + 1)),
         Raise ValueError)) /\
  (is_ok (calcular_parcela 100000%Q 12%Q 36) = true /\
   is_ok (gerar_tabela_amortizacao 100000%Q 12%Q 36 primeiro_de_janeiro) = true).
Proof.
  split.
  { apply (proj1 falhas_sem_validacao); [discriminate|lia]. }
  split.
  { apply (proj1 (proj2 falhas_sem_validacao)). lia. }
  split.
  { split; [reflexivity|].
    apply (proj1 (proj2 (proj2 falhas_sem_validacao)) Q Fraction).
    reflexivity. }
  split.
  { assert (Hp : @calcular_parcela float binary64 1000%float 1e-13%float 12
                 = Raise ZeroDivisionError) by (vm_compute; reflexivity).
    split; [exact Hp|].
    apply (proj1 (proj2 (proj2 (proj2 falhas_sem_validacao))) float binary64).
    exact Hp. }
  split.
  { destruct (taxa_mensal_de 12%Q) as [tm|e] eqn:Htm;
      [|vm_compute in Htm; discriminate].
    destruct (calcular_parcela 100000%Q 12%Q 12) as [pa|e] eqn:Hpa;
      [|vm_compute in Hpa; discriminate].
    exists tm, pa. split; [reflexivity|]. split; [reflexivity|].
    apply (proj1 (proj2 (proj2 (proj2 (proj2 falhas_sem_validacao)))) Q Fraction
             100000%Q 12%Q 12 quinze_de_junho_9999 tm pa 6 Htm Hpa).
    - lia.
    - intros i Hi.
      assert (Hc : i = 1 \/ i = 2 \/ i = 3 \/ i = 4 \/ i = 5 \/ i = 6) by lia.
      destruct Hc as [->|[->|[->|[->|[->| ->]]]]]; reflexivity.
    - reflexivity. }
  apply (proj2 (proj2 (proj2 (proj2 (proj2 (proj2 (proj2 (proj2 (proj2
           falhas_sem_validacao))))))))).
  - discriminate.
  - lia.
  - reflexivity.
  - reflexivity.
Defined.

(** C6, as stated, fails in binary64: for [principal = 100000.0], an annual
    rate of [1e8] per cent and four instalments the balance after the second
    instalment is larger than after the first (the payment and the interest
    nearly cancel, and what is left of their difference is rounding error). *)
Lemma saldo_devedor_binary64_cresce :
  exists r1 r2 r3 r4,
    @gerar_tabela_amortizacao float binary64 100000%float 1e8%float 4
       primeiro_de_janeiro = Ok (Table [r1; r2; r3; r4]) /\
    Saldo_Devedor r1 = 100000.00000095367%float /\
    Saldo_Devedor r2 = 100000.07947444916%float /\
    PrimFloat.leb (Saldo_Devedor r2) (Saldo_Devedor r1) = false /\
    PrimFloat.ltb (Saldo_Devedor r1) (Saldo_Devedor r2) = true.
Proof.
  do 4 eexists. split; [vm_compute; reflexivity|].
  repeat split; vm_compute; reflexivity.
Qed.

(** C6, amended.  In every schedule that [gerar_tabela_amortizacao] returns
    the row numbered [prazo] exists and its balance is exactly zero.  With
    exact arithmetic, a valid input whose last due date is not past year
    9999 always gives a schedule, and its balance goes strictly down from
    each row to the next. *)
Theorem saldo_devedor_decresce :
  (forall (T : Type) (N : Number T) (principal taxa : T) (prazo : Z)
          (data_inicio : Timestamp) (rows : list (Row T)),
      gerar_tabela_amortizacao principal taxa prazo data_inicio
        = Ok (Table rows) ->
      (exists r, In r rows /\ Parcela r = prazo) /\
      (forall r, In r rows -> Parcela r = prazo -> Saldo_Devedor r = lit 0)) /\
  (forall (principal taxa : Q) (prazo : Z) (data_inicio : Timestamp),
      (0 < principal)%Q -> (0 <= taxa)%Q -> 1 <= prazo ->
      Timestamp_real data_inicio = true ->
      is_ok (DateOffset_months data_inicio prazo) = true ->
      exists rows,
        gerar_tabela_amortizacao principal taxa prazo data_inicio
          = Ok (Table rows) /\
        Sorted (fun a b => Saldo_Devedor b < Saldo_Devedor a)%Q rows /\
        (forall r, In r rows -> Parcela r = prazo -> Saldo_Devedor r = 0%Q)).
Proof.
  assert (Hzero :
    forall (T : Type) (N : Number T) (principal taxa : T) (prazo : Z)
           (data_inicio : Timestamp) (rows : list (Row T)),
      gerar_tabela_amortizacao principal taxa prazo data_inicio
        = Ok (Table rows) ->
      forall r, In r rows -> Parcela r = prazo -> Saldo_Devedor r = lit 0).
  { intros T N principal taxa prazo data_inicio rows Hrows r Hr Hp.
    destruct (tabela_rows _ _ _ _ _ Hrows) as (tm & pa & _ & _ & Hin & _).
    destruct (Hin r Hr) as [_ Heq]. rewrite Hp in Heq. rewrite Heq.
    cbn [Saldo_Devedor linha]. now rewrite Z.eqb_refl. }
  split.
  - intros T N principal taxa prazo data_inicio rows Hrows.
    split; [|now apply (Hzero T N principal taxa prazo data_inicio)].
    destruct (tabela_length _ _ _ _ _ Hrows) as [_ Hn].
    destruct (tabela_rows _ _ _ _ _ Hrows) as (tm & pa & _ & _ & _ & Hall).
    eexists. split; [apply (Hall prazo); lia|reflexivity].
  - intros principal taxa prazo data_inicio HP Ht Hn Hv Hlast.
    destruct (Fraction_taxa_mensal_de taxa) as (tm & Htm & _).
    destruct (calcular_parcela_Fraction principal taxa prazo HP Ht Hn)
      as (pa & Hpa & _).
    pose proof (gerar_tabela_amortizacao_ok _ _ _ data_inicio tm pa Htm Hpa Hn
                  Hv Hlast) as Hrows.
    eexists. split; [exact Hrows|]. split.
    + destruct (Fraction_parcela_geo principal taxa prazo Ht Hn tm pa Htm Hpa)
        as [Htm0 Hgeo].
      apply Sorted_map_range. intros i Hi1 Hi2.
      now apply Fraction_saldo_rows.
    + apply (Hzero Q Fraction principal taxa prazo data_inicio _ Hrows).
Qed.

Lemma saldo_devedor_decresce_witness :
  exists rows,
    gerar_tabela_amortizacao 100000%Q 12%Q 36 primeiro_de_janeiro
      = Ok (Table rows) /\
    Sorted (fun a b => Saldo_Devedor b < Saldo_Devedor a)%Q rows /\
    (forall r, In r rows -> Parcela r = 36 -> Saldo_Devedor r = 0%Q).
Proof.
  apply (proj2 saldo_devedor_decresce 100000%Q 12%Q 36 primeiro_de_janeiro).
  - reflexivity.
  - discriminate.
  - lia.
  - reflexivity.
  - reflexivity.
Defined.

(** C7. For [principal = 100000], [taxa = 12.0] and [prazo = 36] the payment
    is 3321.43 to the cent; in the first row the interest is exactly 1000, the
    principal portion is 2321.43 and the balance 97678.57 to the cent.  This
    holds in binary64 and with exact arithmetic. *)
Theorem exemplo_100000_12_36 :
  (exists parcela r1 rest,
      @calcular_parcela float binary64 100000%float 12%float 36 = Ok parcela /\
      @gerar_tabela_amortizacao float binary64 100000%float 12%float 36
         primeiro_de_janeiro = Ok (Table (r1 :: rest)) /\
      PrimFloat.ltb (PrimFloat.abs (parcela - 3321.43)) 0.005 = true /\
      Parcela r1 = 1%Z /\
      Prestacao r1 = parcela /\
      Juros r1 = 1000%float /\
      PrimFloat.ltb (PrimFloat.abs (Amortizacao r1 - 2321.43)) 0.005 = true /\
      PrimFloat.ltb (PrimFloat.abs (Saldo_Devedor r1 - 97678.57)) 0.005 = true)%float /\
  (exists parcela r1 rest,
      calcular_parcela 100000%Q 12%Q 36 = Ok parcela /\
      gerar_tabela_amortizacao 100000%Q 12%Q 36 primeiro_de_janeiro
        = Ok (Table (r1 :: rest)) /\
      Qabs (parcela - 3321.43) < 0.005 /\
      Parcela r1 = 1%Z /\
      Prestacao r1 = parcela /\
      Juros r1 == 1000 /\
      Qabs (Amortizacao r1 - 2321.43) < 0.005 /\
      Qabs (Saldo_Devedor r1 - 97678.57) < 0.005)%Q.
Proof.
  split.
  - do 3 eexists. split; [vm_compute; reflexivity|].
    split; [vm_compute; reflexivity|].
    repeat split; vm_compute; reflexivity.
  - do 3 eexists. split; [vm_compute; reflexivity|].
    split; [vm_compute; reflexivity|].
    repeat split; vm_compute; reflexivity.
Qed.

(** C9. In every schedule that [gerar_tabela_amortizacao] returns, each row,
    the last one included, stores the payment computed by [calcular_parcela];
    the interest of a row is the balance before it times the monthly rate;
    the final correction changes only the principal portion and the balance
    of the row numbered [prazo].  The stored payment of that row can
    therefore differ from its interest plus its principal portion, as it does
    in binary64 for [principal = 1000.0], a zero rate and three
    instalments. *)
Theorem prestacao_constante :
  (forall (T : Type) (N : Number T) (principal taxa : T) (prazo : Z)
          (data_inicio : Timestamp) (rows : list (Row T)),
      gerar_tabela_amortizacao principal taxa prazo data_inicio
        = Ok (Table rows) ->
      exists taxa_mensal parcela,
        taxa_mensal_de taxa = Ok taxa_mensal /\
        calcular_parcela principal taxa prazo = Ok parcela /\
        forall r, In r rows ->
          let saldo :=
            saldo_apos principal taxa_mensal parcela (Z.to_nat (Parcela r - 1)) in
          Prestacao r = parcela /\
          Juros r = mul saldo taxa_mensal /\
          (Parcela r <> prazo ->
           Amortizacao r = sub parcela (Juros r) /\
           Saldo_Devedor r = sub saldo (Amortizacao r)) /\
          (Parcela r = prazo ->
           Amortizacao r = add (sub parcela (Juros r))
                               (sub saldo (sub parcela (Juros r))) /\
           Saldo_Devedor r = lit 0)) /\
  (exists r1 r2 r3,
      @gerar_tabela_amortizacao float binary64 1000%float 0%float 3
         primeiro_de_janeiro = Ok (Table [r1; r2; r3]) /\
      Prestacao r3 = Prestacao r1 /\
      Prestacao r3 = Prestacao r2 /\
      PrimFloat.eqb (PrimFloat.add (Juros r3) (Amortizacao r3)) (Prestacao r3)
        = false).
Proof.
  split.
  - intros T N principal taxa prazo data_inicio rows Hrows.
    destruct (tabela_rows _ _ _ _ _ Hrows) as (tm & pa & Htm & Hpa & Hin & _).
    exists tm, pa. split; [exact Htm|]. split; [exact Hpa|].
    intros r Hr. destruct (Hin r Hr) as [_ Heq]. cbv zeta.
    remember (Parcela r) as i eqn:Hi. rewrite Heq.
    cbn [Prestacao Juros Amortizacao Saldo_Devedor linha].
    split; [reflexivity|]. split; [reflexivity|]. split.
    + intros Hne. apply Z.eqb_neq in Hne. rewrite Hne. split; reflexivity.
    + intros ->. rewrite Z.eqb_refl. split; reflexivity.
  - do 3 eexists. split; [vm_compute; reflexivity|].
    repeat split; vm_compute; reflexivity.
Qed.

Lemma prestacao_constante_witness :
  exists taxa_mensal parcela,
    @taxa_mensal_de float binary64 0%float = Ok taxa_mensal /\
    @calcular_parcela float binary64 1000%float 0%float 3 = Ok parcela /\
    forall r,
      In r (map (@linha float binary64 1000%float 0%float
                   333.33333333333331%float 3 primeiro_de_janeiro) [1; 2; 3]) ->
      let saldo :=
        @saldo_apos float binary64 1000%float taxa_mensal parcela
          (Z.to_nat (Parcela r - 1)) in
      Prestacao r = parcela /\
      Juros r = @mul float binary64 saldo taxa_mensal /\
      (Parcela r <> 3 ->
       Amortizacao r = @sub float binary64 parcela (Juros r) /\
       Saldo_Devedor r = @sub float binary64 saldo (Amortizacao r)) /\
      (Parcela r = 3 ->
       Amortizacao r = @add float binary64 (@sub float binary64 parcela (Juros r))
                         (@sub float binary64 saldo
                            (@sub float binary64 parcela (Juros r))) /\
       Saldo_Devedor r = @lit float binary64 0).
Proof.
  apply (proj1 prestacao_constante float binary64 1000%float 0%float 3
           primeiro_de_janeiro).
  vm_compute. reflexivity.
Defined.

(** ** Due dates and the cut-off *)

Lemma relativedelta_months_Timestamp_valid (t : Timestamp) (n : Z) :
  Timestamp_valid t = true -> 0 <= n -> year t + n / 12 + 1 <= 9999 ->
  Timestamp_valid (relativedelta_months t n) = true.
Proof.
  intros Hv Hn Hy.
  pose proof (Timestamp_valid_inv t Hv) as (Hm & Hd & Hyr & Hns).
  pose proof (relativedelta_months_year t n Hm Hn) as Hyn.
  unfold Timestamp_valid.
  rewrite relativedelta_months_valid_day by lia.
  cbn [andb]. change (nanos (relativedelta_months t n)) with (nanos t).
  repeat (apply andb_true_intro; split);
    first [apply Z.leb_le | apply Z.ltb_lt]; lia.
Qed.

Section DueDates.

Context {T : Type} `{Number T}.

Variables (principal tm pa : T) (prazo : Z) (data_inicio : Timestamp).
Hypothesis Hvalid : Timestamp_valid data_inicio = true.
Hypothesis Hyear : year data_inicio + prazo / 12 + 1 <= 9999.

Let linha_i := linha principal tm pa prazo data_inicio.

Lemma linha_data_de (i : Z) :
  1 <= i <= prazo ->
  to_datetime_dmY (Data (linha_i i))
    = Ok (normalize (relativedelta_months data_inicio i)) /\
  data_de (linha_i i) = normalize (relativedelta_months data_inicio i).
Proof.
  intros Hi.
  assert (Hp : to_datetime_dmY (Data (linha_i i))
               = Ok (normalize (relativedelta_months data_inicio i))).
  { unfold linha_i, linha. cbn [Data]. apply to_datetime_strftime.
    apply relativedelta_months_Timestamp_valid; [exact Hvalid|lia|].
    assert (i / 12 <= prazo / 12) by (apply Z.div_le_mono; lia). lia. }
  split; [exact Hp|]. unfold data_de. now rewrite Hp.
Qed.

Lemma tabela_datas_ok :
  Forall (fun r => is_ok (to_datetime_dmY (Data r)) = true)
         (map linha_i (range 1 (prazo + 1))).
Proof.
  apply Forall_forall. intros r Hr. apply in_map_iff in Hr.
  destruct Hr as (i & <- & Hi). apply range_In in Hi.
  destruct (linha_data_de i) as [Hp _]; [lia|]. now rewrite Hp.
Qed.

End DueDates.

(** ** Order of the due dates *)

Lemma Timestamp_compare_month_lt (a b : Timestamp) :
  year a < year b \/ (year a = year b /\ month a < month b) ->
  Timestamp_compare a b = Lt.
Proof.
  intros [Hy|[Hy Hm]]; unfold Timestamp_compare.
  - apply Z.compare_lt_iff in Hy. now rewrite Hy.
  - rewrite Hy, Z.compare_refl. apply Z.compare_lt_iff in Hm. now rewrite Hm.
Qed.

Lemma Timestamp_compare_month_gt (a b : Timestamp) :
  year b < year a \/ (year b = year a /\ month b < month a) ->
  Timestamp_compare a b = Gt.
Proof.
  intros [Hy|[Hy Hm]]; unfold Timestamp_compare.
  - apply Z.compare_gt_iff in Hy. now rewrite Hy.
  - rewrite Hy, Z.compare_refl. apply Z.compare_gt_iff in Hm. now rewrite Hm.
Qed.

(** A later instalment falls in a later month. *)
Lemma relativedelta_months_month_lt (t : Timestamp) (i j : Z) :
  i < j ->
  let a := relativedelta_months t i in
  let b := relativedelta_months t j in
  year a < year b \/ (year a = year b /\ month a < month b).
Proof.
  intros Hij. cbv zeta. unfold relativedelta_months. cbn [year month].
  Z.to_euclidean_division_equations. lia.
Qed.

Lemma Timestamp_leb_trans (a b c : Timestamp) :
  Timestamp_leb a b = true -> Timestamp_leb b c = true ->
  Timestamp_leb a c = true.
Proof.
  unfold Timestamp_leb, Timestamp_compare.
  destruct a as [ya ma da na], b as [yb mb db nb], c as [yc mc dc nc].
  cbn [year month day nanos].
  destruct (Z.compare_spec ya yb); try discriminate;
  destruct (Z.compare_spec yb yc); try discriminate;
  destruct (Z.compare_spec ya yc); try reflexivity; try lia;
  destruct (Z.compare_spec ma mb); try discriminate;
  destruct (Z.compare_spec mb mc); try discriminate;
  destruct (Z.compare_spec ma mc); try reflexivity; try lia;
  destruct (Z.compare_spec da db); try discriminate;
  destruct (Z.compare_spec db dc); try discriminate;
  destruct (Z.compare_spec da dc); try reflexivity; try lia;
  destruct (Z.compare_spec na nb); try discriminate;
  destruct (Z.compare_spec nb nc); try discriminate;
  destruct (Z.compare_spec na nc); try reflexivity; try lia.
Qed.

Lemma relativedelta_months_normalize_leb (t : Timestamp) (i j : Z) :
  i <= j ->
  Timestamp_leb (normalize (relativedelta_months t i))
                (normalize (relativedelta_months t j)) = true.
Proof.
  intros Hij. destruct (Z.eq_dec i j) as [->|Hne].
  - unfold Timestamp_leb. now rewrite Timestamp_compare_refl.
  - unfold Timestamp_leb.
    rewrite Timestamp_compare_month_lt; [reflexivity|].
    apply (relativedelta_months_month_lt t i j). lia.
Qed.

(** ** Lists: a filter whose predicate only ever switches off *)

Lemma filter_prefix {A : Type} (f : A -> bool) (l : list A) :
  (forall l1 x l2, l = l1 ++ x :: l2 -> f x = false ->
                   Forall (fun y => f y = false) l2) ->
  filter f l = firstn (List.length (filter f l)) l /\
  filter (fun x => negb (f x)) l = skipn (List.length (filter f l)) l.
Proof.
  induction l as [|a l IH]; intros Hmono; [split; reflexivity|].
  cbn [filter]. destruct (f a) eqn:Hfa; cbn [negb].
  - cbn [List.length firstn skipn].
    destruct IH as [IH1 IH2].
    { intros l1 x l2 Heq Hx. apply (Hmono (a :: l1) x l2); [|exact Hx].
      now rewrite Heq. }
    split; [f_equal; exact IH1|exact IH2].
  - pose proof (Hmono [] a l eq_refl Hfa) as Hall.
    assert (Hnil : filter f l = []).
    { clear -Hall. induction Hall as [|y l Hy Hall IH]; cbn; [reflexivity|].
      now rewrite Hy. }
    rewrite Hnil. cbn [List.length firstn skipn]. split; [reflexivity|].
    f_equal. clear -Hall.
    induction Hall as [|y l Hy Hall IH]; cbn; [reflexivity|].
    rewrite Hy. cbn. now f_equal.
Qed.

Lemma StronglySorted_app_tail {A : Type} (R : A -> A -> Prop)
    (l1 : list A) (x : A) (l2 : list A) :
  StronglySorted R (l1 ++ x :: l2) -> Forall (R x) l2.
Proof.
  induction l1 as [|a l1 IH]; cbn; intros Hs; inversion Hs; subst; auto.
Qed.

Lemma filter_range_le (k : Z) (m : nat) :
  0 <= k ->
  filter (fun i => i <=? k) (range 1 (Z.of_nat m + 1))
  = range 1 (Z.min k (Z.of_nat m) + 1).
Proof.
  intros Hk. induction m as [|m IH].
  - rewrite !range_empty by lia. reflexivity.
  - rewrite range_snoc, filter_app, IH. cbn [filter].
    destruct (Z.of_nat (S m) <=? k) eqn:Hle.
    + apply Z.leb_le in Hle.
      replace (Z.min k (Z.of_nat m)) with (Z.of_nat m) by lia.
      replace (Z.min k (Z.of_nat (S m))) with (Z.of_nat (S m)) by lia.
      now rewrite range_snoc.
    + apply Z.leb_gt in Hle. rewrite app_nil_r. do 2 f_equal. lia.
Qed.

(** ** Generated schedules under the classifier *)

Section GeneratedSchedule.

Context {T : Type} `{Number T}.

Variables (principal taxa : T) (prazo : Z) (data_inicio : Timestamp).
Variable rows : list (Row T).
Hypothesis Hrows :
  gerar_tabela_amortizacao principal taxa prazo data_inicio = Ok (Table rows).
Hypothesis Hvalid : Timestamp_valid data_inicio = true.
Hypothesis Hyear : year data_inicio + prazo / 12 + 1 <= 9999.

Lemma tabela_data_de (r : Row T) :
  In r rows ->
  1 <= Parcela r <= prazo /\
  to_datetime_dmY (Data r)
    = Ok (normalize (relativedelta_months data_inicio (Parcela r))) /\
  data_de r = normalize (relativedelta_months data_inicio (Parcela r)).
Proof.
  intros Hr.
  destruct (tabela_rows _ _ _ _ _ Hrows) as (tm & pa & _ & _ & Hin & _).
  destruct (Hin r Hr) as [Hi Heq]. split; [exact Hi|].
  remember (Parcela r) as i eqn:Hp. rewrite Heq.
  now apply linha_data_de.
Qed.

Lemma tabela_parses :
  Forall (fun r => is_ok (to_datetime_dmY (Data r)) = true) rows.
Proof.
  apply Forall_forall. intros r Hr.
  destruct (tabela_data_de r Hr) as (_ & Hp & _). now rewrite Hp.
Qed.

(** When the cut-off exists, the current bucket is an initial segment of the
    schedule and the non-current bucket is the rest of it. *)
Lemma classificacao_prefixo (data_base : Timestamp) :
  is_ok (DateOffset_months data_base 12) = true ->
  exists curto longo k,
    analisar_prazo_contabil (Table rows) data_base = Ok (curto, longo) /\
    map row curto = firstn k rows /\
    map row longo = skipn k rows.
Proof.
  intros Hlim.
  destruct (analisar_prazo_contabil_ok rows data_base Hlim tabela_parses)
    as (c & l & Ha).
  exists c, l. pose proof Ha as Hinv.
  apply analisar_prazo_contabil_inv in Hinv. cbv zeta in Hinv.
  destruct Hinv as (_ & _ & -> & ->).
  set (keep := fun r : Row T =>
                 Timestamp_leb (data_de r) (relativedelta_months data_base 12)).
  exists (List.length (filter keep rows)).
  split; [exact Ha|]. rewrite !map_row_anotar.
  apply filter_prefix. intros l1 x l2 Heq Hx.
  pose proof (tabela_ascending _ _ _ _ _ Hrows) as Hs. unfold ascending in Hs.
  rewrite Heq in Hs. apply StronglySorted_app_tail in Hs.
  rewrite Forall_forall in *. intros y Hy. unfold keep in *.
  destruct (Timestamp_leb (data_de y) (relativedelta_months data_base 12))
    eqn:Hky; [|reflexivity].
  exfalso.
  assert (Hxin : In x rows) by (rewrite Heq; apply in_elt).
  assert (Hyin : In y rows)
    by (rewrite Heq; apply in_or_app; right; now right).
  destruct (tabela_data_de x Hxin) as (_ & _ & Hdx).
  destruct (tabela_data_de y Hyin) as (_ & _ & Hdy).
  rewrite Hdx in Hx. rewrite Hdy in Hky.
  rewrite (Timestamp_leb_trans _ _ _
             (relativedelta_months_normalize_leb data_inicio _ _
                (Z.lt_le_incl _ _ (Hs y Hy))) Hky) in Hx.
  discriminate.
Qed.

(** The cut-off of the start date exists when the due dates do. *)
Lemma limite_ok : is_ok (DateOffset_months data_inicio 12) = true.
Proof.
  destruct (tabela_length _ _ _ _ _ Hrows) as [_ Hn].
  pose proof (Timestamp_valid_inv _ Hvalid) as (Hm & _ & Hy & _).
  apply DateOffset_months_is_ok. rewrite relativedelta_months_12 by exact Hm.
  cbn [year].
  assert (0 <= prazo / 12) by (apply Z.div_pos; lia). lia.
Qed.

(** When the base date is the start date, the current bucket is made of the
    instalments 1 to 12 and the non-current bucket of those from 13 on. *)
Lemma classificacao_doze_meses :
  exists curto longo,
    analisar_prazo_contabil (Table rows) data_inicio = Ok (curto, longo) /\
    map row curto = firstn 12 rows /\
    map row longo = skipn 12 rows /\
    (forall x, In x curto -> Parcela (row x) <= 12) /\
    (forall x, In x longo -> 13 <= Parcela (row x)).
Proof.
  destruct (analisar_prazo_contabil_ok rows data_inicio limite_ok tabela_parses)
    as (c & l & Ha).
  exists c, l. split; [exact Ha|].
  apply analisar_prazo_contabil_inv in Ha. cbv zeta in Ha.
  destruct Ha as (_ & _ & -> & ->). rewrite !map_row_anotar.
  pose proof (Timestamp_valid_inv _ Hvalid) as (_ & _ & _ & Hns).
  assert (Hkeep : forall r, In r rows ->
            Timestamp_leb (data_de r) (relativedelta_months data_inicio 12)
            = (Parcela r <=? 12)).
  { intros r Hr. destruct (tabela_data_de r Hr) as (_ & _ & ->).
    destruct (Parcela r <=? 12) eqn:Hle.
    - apply Z.leb_le in Hle.
      apply (Timestamp_leb_trans _ (normalize (relativedelta_months data_inicio 12))).
      + now apply relativedelta_months_normalize_leb.
      + apply Timestamp_leb_normalize.
        change (nanos (relativedelta_months data_inicio 12)) with (nanos data_inicio).
        lia.
    - apply Z.leb_gt in Hle. unfold Timestamp_leb.
      rewrite Timestamp_compare_month_gt; [reflexivity|].
      apply (relativedelta_months_month_lt data_inicio 12 (Parcela r) Hle). }
  assert (Hf1 : filter (fun r => Timestamp_leb (data_de r)
                                   (relativedelta_months data_inicio 12)) rows
                = filter (fun r => Parcela r <=? 12) rows)
    by (apply filter_ext_in; exact Hkeep).
  assert (Hf2 : filter (fun r => negb (Timestamp_leb (data_de r)
                                   (relativedelta_months data_inicio 12))) rows
                = filter (fun r => negb (Parcela r <=? 12)) rows)
    by (apply filter_ext_in; intros r Hr; now rewrite Hkeep).
  rewrite Hf1, Hf2.
  assert (Hpre : filter (fun r => Parcela r <=? 12) rows = firstn 12 rows /\
                 filter (fun r => negb (Parcela r <=? 12)) rows = skipn 12 rows).
  { destruct (filter_prefix (fun r => Parcela r <=? 12) rows) as [H1 H2].
    { intros l1 x l2 Heq Hx.
      pose proof (tabela_ascending _ _ _ _ _ Hrows) as Hs. unfold ascending in Hs.
      rewrite Heq in Hs. apply StronglySorted_app_tail in Hs.
      rewrite Forall_forall in *. intros y Hy. specialize (Hs y Hy).
      apply Z.leb_gt in Hx. apply Z.leb_gt. lia. }
    assert (Hlen : List.length (filter (fun r => Parcela r <=? 12) rows)
                   = Z.to_nat (Z.min 12 prazo)).
    { destruct (gerar_tabela_amortizacao_Table _ _ _ _ _ Hrows)
        as (tm & pa & _ & _ & Hn & Heq).
      assert (Hfr : filter (fun i => i <=? 12) (range 1 (prazo + 1))
                    = range 1 (Z.min 12 prazo + 1)).
      { pose proof (filter_range_le 12 (Z.to_nat prazo) ltac:(lia)) as Hf.
        now rewrite Z2Nat.id in Hf by lia. }
      rewrite Heq, filter_map_comm. cbn [Parcela linha].
      rewrite Hfr, length_map, range_length. f_equal. lia. }
    rewrite Hlen in H1, H2.
    destruct (tabela_length _ _ _ _ _ Hrows) as [Hl Hn].
    destruct (Z_le_gt_dec 12 prazo) as [Hge|Hlt].
    - replace (Z.to_nat (Z.min 12 prazo)) with 12%nat in H1, H2 by lia.
      now split.
    - replace (Z.to_nat (Z.min 12 prazo)) with (List.length rows) in H1, H2
        by lia.
      rewrite firstn_all in H1. rewrite skipn_all in H2.
      rewrite H1, H2, firstn_all2, skipn_all2 by lia. now split. }
  destruct Hpre as [Hp1 Hp2].
  split; [exact Hp1|]. split; [exact Hp2|]. split.
  - intros x Hx. apply in_map_iff in Hx. destruct Hx as (r & <- & Hr).
    apply filter_In in Hr. destruct Hr as [_ Hk]. cbn [row anotar].
    now apply Z.leb_le.
  - intros x Hx. apply in_map_iff in Hx. destruct Hx as (r & <- & Hr).
    apply filter_In in Hr. destruct Hr as [_ Hk]. cbn [row anotar].
    apply negb_true_iff, Z.leb_gt in Hk. lia.
Qed.

End GeneratedSchedule.

(** ** The month-advance policy *)

Lemma relativedelta_months_clamped (t : Timestamp) (n : Z) :
  month_advance_clamped t n (relativedelta_months t n).
Proof.
  unfold month_advance_clamped, relativedelta_months.
  cbn [year month day nanos].
  repeat split; try reflexivity; Z.to_euclidean_division_equations; lia.
Qed.

(** The policy determines the date. *)
Lemma month_advance_clamped_unique (t : Timestamp) (n : Z) (d : Timestamp) :
  month_advance_clamped t n d -> d = relativedelta_months t n.
Proof.
  destruct d as [y m dd ns]. unfold month_advance_clamped.
  cbn [year month day nanos]. intros (Htot & Hm & Hd & Hn).
  unfold relativedelta_months.
  assert (Hy : (year t * 12 + (month t - 1) + n) / 12 = y)
    by (Z.to_euclidean_division_equations; lia).
  assert (Hmm : (year t * 12 + (month t - 1) + n) mod 12 + 1 = m)
    by (Z.to_euclidean_division_equations; lia).
  rewrite Hy, Hmm. now subst.
Qed.

(** C10. Due dates and cut-off come from the same month-advance operation,
    [+ pd.DateOffset(months=n)], which keeps the day of the month unless the
    target month is too short and then takes that month's last day: the
    [Data] of every row of a returned schedule is the start date advanced by
    the row's number under that policy, and the two buckets of a returned
    classification lie on either side of the base date advanced by twelve
    months under that policy.  31 January 2024 plus one month is 29 February
    2024, which is the first due date of a schedule started on 31 January
    2024; 29 February 2024 plus twelve months is 28 February 2025.
    Consequently, when the base date is the start date, the row numbered 12
    is in the current bucket and not in the other one, whatever the start
    day, and the row numbered 13, when there is one, is in the non-current
    bucket only. *)
Theorem vencimento_e_limite :
  (forall (T : Type) (N : Number T) (principal taxa : T) (prazo : Z)
          (data_inicio : Timestamp) (rows : list (Row T)),
      gerar_tabela_amortizacao principal taxa prazo data_inicio
        = Ok (Table rows) ->
      Timestamp_real data_inicio = true ->
      forall r, In r rows ->
        exists d,
          DateOffset_months data_inicio (Parcela r) = Ok d /\
          month_advance_clamped data_inicio (Parcela r) d /\
          Data r = strftime_dmY d) /\
  (forall (T : Type) (rows : list (Row T)) (data_base : Timestamp)
          (curto longo : list (RowDt T)),
      analisar_prazo_contabil (Table rows) data_base = Ok (curto, longo) ->
      exists data_limite,
        DateOffset_months data_base 12 = Ok data_limite /\
        month_advance_clamped data_base 12 data_limite /\
        (forall x, In x curto -> Timestamp_leb (Data_dt x) data_limite = true) /\
        (forall x, In x longo -> Timestamp_leb (Data_dt x) data_limite = false) /\
        (forall r, In r rows -> In r (map row curto) \/ In r (map row longo))) /\
  DateOffset_months trinta_e_um_de_janeiro 1
    = Ok {| year := 2024; month := 2; day := 29; nanos := 0 |} /\
  (exists r1 rest,
      gerar_tabela_amortizacao 100000%Q 12%Q 14 trinta_e_um_de_janeiro
        = Ok (Table (r1 :: rest)) /\
      Data r1 = "29/02/2024"%string) /\
  DateOffset_months vinte_e_nove_de_fevereiro 12
    = Ok {| year := 2025; month := 2; day := 28; nanos := 0 |} /\
  (forall (T : Type) (N : Number T) (principal taxa : T) (prazo : Z)
          (data_inicio : Timestamp) (rows : list (Row T)),
      gerar_tabela_amortizacao principal taxa prazo data_inicio
        = Ok (Table rows) ->
      Timestamp_valid data_inicio = true ->
      year data_inicio + prazo / 12 + 1 <= 9999 ->
      12 <= prazo ->
      exists curto longo data_limite,
        analisar_prazo_contabil (Table rows) data_inicio = Ok (curto, longo) /\
        DateOffset_months data_inicio 12 = Ok data_limite /\
        (exists x, In x curto /\ Parcela (row x) = 12 /\
                   Data_dt x = normalize data_limite) /\
        (forall y, In y longo -> Parcela (row y) <> 12) /\
        (13 <= prazo -> exists y, In y longo /\ Parcela (row y) = 13) /\
        (forall x, In x curto -> Parcela (row x) <> 13)).
Proof.
  split.
  { intros T N principal taxa prazo data_inicio rows Hrows _ r Hr.
    destruct (tabela_rows _ _ _ _ _ Hrows) as (tm & pa & _ & _ & Hin & _).
    destruct (Hin r Hr) as [Hi Heq].
    exists (relativedelta_months data_inicio (Parcela r)).
    split; [now apply (gerar_tabela_amortizacao_datas _ _ _ _ _ Hrows)|].
    split; [apply relativedelta_months_clamped|].
    remember (Parcela r) as i eqn:Hp. rewrite Heq. reflexivity. }
  split.
  { intros T rows data_base curto longo Ha.
    exists (relativedelta_months data_base 12).
    apply analisar_prazo_contabil_inv in Ha. cbv zeta in Ha.
    destruct Ha as (Hlim & _ & -> & ->).
    split; [exact Hlim|]. split; [apply relativedelta_months_clamped|].
    split.
    { intros x Hx. apply in_map_iff in Hx. destruct Hx as (r & <- & Hr).
      apply filter_In in Hr. now destruct Hr as [_ Hk]. }
    split.
    { intros x Hx. apply in_map_iff in Hx. destruct Hx as (r & <- & Hr).
      apply filter_In in Hr. destruct Hr as [_ Hk].
      now apply negb_true_iff in Hk. }
    intros r Hr. rewrite !map_row_anotar.
    destruct (Timestamp_leb (data_de r) (relativedelta_months data_base 12))
      eqn:Hk.
    - left. apply filter_In. auto.
    - right. apply filter_In. rewrite Hk. auto. }
  split; [reflexivity|].
  split.
  { do 2 eexists. split; [vm_compute; reflexivity|reflexivity]. }
  split; [reflexivity|].
  intros T N principal taxa prazo data_inicio rows Hrows Hv Hy Hn.
  pose proof (limite_ok _ _ _ _ rows Hrows Hv Hy) as Hlim.
  destruct (classificacao_doze_meses _ _ _ _ rows Hrows Hv Hy)
    as (c & l & Ha & Hc & Hl & Hc12 & Hl13).
  destruct (tabela_rows _ _ _ _ _ Hrows) as (tm & pa & _ & _ & Hin & Hall).
  exists c, l, (relativedelta_months data_inicio 12).
  split; [exact Ha|].
  pose proof Ha as Hinv. apply analisar_prazo_contabil_inv in Hinv.
  cbv zeta in Hinv. destruct Hinv as (Hd & _ & Hceq & Hleq).
  split; [exact Hd|].
  pose proof (Timestamp_valid_inv _ Hv) as (_ & _ & _ & Hns).
  assert (Hd12 : forall r, In r rows -> Parcela r = 12 ->
            data_de r = normalize (relativedelta_months data_inicio 12)).
  { intros r Hr Hp. destruct (Hin r Hr) as [_ Hr'].
    rewrite Hp in Hr'. rewrite Hr'.
    apply (linha_data_de principal tm pa prazo data_inicio Hv Hy). lia. }
  assert (Hrow : forall (a : RowDt T) (bucket : list (RowDt T)) (rs : list (Row T)),
            map row bucket = rs -> In a bucket -> In (row a) rs).
  { intros a bucket rs <- Hin'. now apply in_map. }
  split.
  { exists (anotar (linha principal tm pa prazo data_inicio 12)).
    assert (Hr12 : In (linha principal tm pa prazo data_inicio 12) rows)
      by (apply Hall; lia).
    split; [|split; [reflexivity|]].
    - rewrite Hceq. apply in_map. apply filter_In. split; [exact Hr12|].
      rewrite (Hd12 _ Hr12 eq_refl). apply Timestamp_leb_normalize.
      change (nanos (relativedelta_months data_inicio 12))
        with (nanos data_inicio). lia.
    - unfold anotar. cbn [Data_dt]. now apply Hd12. }
  split.
  { intros y Hy' Hp. specialize (Hl13 y Hy'). lia. }
  split.
  { intros H13.
    assert (Hr13 : In (linha principal tm pa prazo data_inicio 13) rows)
      by (apply Hall; lia).
    assert (Hor : In (linha principal tm pa prazo data_inicio 13)
                     (map row c ++ map row l)).
    { rewrite Hc, Hl, firstn_skipn. exact Hr13. }
    apply in_app_or in Hor. destruct Hor as [Hor|Hor].
    - apply in_map_iff in Hor. destruct Hor as (x & Hx & Hxin).
      specialize (Hc12 x Hxin). rewrite Hx in Hc12. cbn [Parcela linha] in Hc12.
      lia.
    - apply in_map_iff in Hor. destruct Hor as (y & Hy1 & Hyin).
      exists y. split; [exact Hyin|]. now rewrite Hy1. }
  intros x Hx Hp. specialize (Hc12 x Hx). lia.
Qed.

Lemma vencimento_e_limite_witness :
  (match gerar_tabela_amortizacao 100000%Q 12%Q 14 trinta_e_um_de_janeiro with
   | Ok (Table rows) =>
       forall r, In r rows ->
         exists d,
           DateOffset_months trinta_e_um_de_janeiro (Parcela r) = Ok d /\
           month_advance_clamped trinta_e_um_de_janeiro (Parcela r) d /\
           Data r = strftime_dmY d
   | _ => False
   end) /\
  (analisar_prazo_contabil (Table linhas_de_fevereiro) vinte_e_nove_de_fevereiro
   = Ok (map anotar (firstn 1 linhas_de_fevereiro),
         map anotar (skipn 1 linhas_de_fevereiro)) /\
   exists data_limite,
     DateOffset_months vinte_e_nove_de_fevereiro 12 = Ok data_limite /\
     month_advance_clamped vinte_e_nove_de_fevereiro 12 data_limite /\
     (forall x, In x (map anotar (firstn 1 linhas_de_fevereiro)) ->
        Timestamp_leb (Data_dt x) data_limite = true) /\
     (forall x, In x (map anotar (skipn 1 linhas_de_fevereiro)) ->
        Timestamp_leb (Data_dt x) data_limite = false) /\
     (forall r, In r linhas_de_fevereiro ->
        In r (map row (map anotar (firstn 1 linhas_de_fevereiro))) \/
        In r (map row (map anotar (skipn 1 linhas_de_fevereiro))))) /\
  (match gerar_tabela_amortizacao 100000%Q 12%Q 14 trinta_e_um_de_janeiro with
   | Ok (Table rows) =>
       exists curto longo data_limite,
         analisar_prazo_contabil (Table rows) trinta_e_um_de_janeiro
           = Ok (curto, longo) /\
         DateOffset_months trinta_e_um_de_janeiro 12 = Ok data_limite /\
         (exists x, In x curto /\ Parcela (row x) = 12 /\
                    Data_dt x = normalize data_limite) /\
         (forall y, In y longo -> Parcela (row y) <> 12) /\
         (13 <= 14 -> exists y, In y longo /\ Parcela (row y) = 13) /\
         (forall x, In x curto -> Parcela (row x) <> 13)
   | _ => False
   end).
Proof.
  assert (Ha : analisar_prazo_contabil (Table linhas_de_fevereiro)
                 vinte_e_nove_de_fevereiro
               = Ok (map anotar (firstn 1 linhas_de_fevereiro),
                     map anotar (skipn 1 linhas_de_fevereiro)))
    by reflexivity.
  destruct (gerar_tabela_amortizacao 100000%Q 12%Q 14 trinta_e_um_de_janeiro)
    as [[|rows]|e] eqn:Hg;
    [vm_compute in Hg; discriminate| |vm_compute in Hg; discriminate].
  split.
  { apply (proj1 vencimento_e_limite Q Fraction
             100000%Q 12%Q 14 trinta_e_um_de_janeiro rows Hg).
    reflexivity. }
  split.
  { split; [exact Ha|].
    exact (proj1 (proj2 vencimento_e_limite) Q linhas_de_fevereiro
             vinte_e_nove_de_fevereiro _ _ Ha). }
  apply (proj2 (proj2 (proj2 (proj2 (proj2 vencimento_e_limite)))) Q Fraction
           100000%Q 12%Q 14 trinta_e_um_de_janeiro rows Hg).
  - reflexivity.
  - vm_compute. discriminate.
  - lia.
Defined.

(** ** Exact arithmetic: interest, principal portions and totals *)

Section FractionRows.

Local Open Scope Q_scope.

Variables (principal tm pa : Q).
Variable prazo : Z.
Variable data_inicio : Timestamp.

Let s := saldo_apos principal tm pa.
Let linha_i := linha principal tm pa prazo data_inicio.

Lemma Fraction_juros (i : Z) :
  Juros (linha_i i) == s (Z.to_nat (i - 1)) * tm.
Proof.
  unfold linha_i, linha. cbn [Juros mul Fraction]. apply Qred_correct.
Qed.

Lemma Fraction_prestacao (i : Z) : Prestacao (linha_i i) = pa.
Proof. reflexivity. Qed.

(** What is paid off in step [k + 1] is the first principal portion
    compounded [k] times. *)
Lemma Fraction_regular_geo (k : nat) :
  pa - s k * tm == (pa - principal * tm) * (1 + tm) ^ Z.of_nat k.
Proof.
  unfold s. rewrite Fraction_saldo_geo.
  transitivity (pa * (1 + tm * geo (1 + tm) k)
                - principal * tm * (1 + tm) ^ Z.of_nat k); [ring|].
  rewrite geo_rate. ring.
Qed.

Lemma Fraction_soma_juros_prefix (m : nat) :
  Qsum (map (@Juros Q) (map linha_i (range 1 (Z.of_nat m + 1))))
  == inject_Z (Z.of_nat m) * pa - (principal - s m).
Proof.
  induction m as [|m IH].
  - rewrite range_empty by (cbn; lia). unfold s. cbn. ring.
  - rewrite range_snoc, !map_app, Qsum_app, IH.
    cbn [map]. unfold Qsum at 1. cbn [fold_right].
    rewrite Fraction_juros.
    replace (Z.to_nat (Z.of_nat (S m) - 1)) with m by lia.
    unfold s. rewrite (Fraction_saldo_step principal tm pa m).
    rewrite Nat2Z.inj_succ, <- Z.add_1_r, inject_Z_plus.
    change (inject_Z 1) with 1. ring.
Qed.

Section Valid.

Hypothesis Hprincipal : 0 < principal.
Hypothesis Htm : 0 <= tm.
Hypothesis Hprazo : (1 <= prazo)%Z.
Hypothesis Hgeo :
  pa * geo (1 + tm) (Z.to_nat prazo) == principal * (1 + tm) ^ prazo.

Lemma Fraction_saldo_antitone (j k : nat) :
  (j <= k)%nat -> s k <= s j.
Proof.
  induction 1 as [|k Hle IH]; [apply Qle_refl|].
  pose proof (Fraction_saldo_decreases principal tm pa prazo
                Hprincipal Htm Hprazo Hgeo k) as Hd.
  unfold s in *. lra.
Qed.

Lemma Fraction_saldo_nonneg (k : nat) :
  (k <= Z.to_nat prazo)%nat -> 0 <= s k.
Proof.
  intros Hk. pose proof (Fraction_saldo_antitone k (Z.to_nat prazo) Hk) as Ha.
  pose proof (Fraction_saldo_final principal tm pa prazo Hprazo Hgeo) as Hf.
  unfold s in *. lra.
Qed.

(** Row [i] pays off the first principal portion compounded [i - 1]
    times, the last row included: its correction is zero. *)
Lemma Fraction_amortizacao_geo (i : Z) :
  (1 <= i <= prazo)%Z ->
  Amortizacao (linha_i i) == (pa - principal * tm) * (1 + tm) ^ (i - 1).
Proof.
  intros Hi.
  pose proof (Fraction_regular_geo (Z.to_nat (i - 1))) as Hr.
  rewrite Z2Nat.id in Hr by lia.
  destruct (Z.eq_dec i prazo) as [->|Hne].
  - unfold linha_i. rewrite Fraction_amortizacao_last by lia.
    pose proof (Fraction_saldo_final principal tm pa prazo Hprazo Hgeo) as Hf.
    replace (Z.to_nat prazo) with (S (Z.to_nat (prazo - 1))) in Hf by lia.
    rewrite Fraction_saldo_step in Hf. unfold s in Hr. rewrite <- Hr. lra.
  - unfold linha_i. rewrite Fraction_amortizacao_plain by lia.
    replace (Z.to_nat i) with (S (Z.to_nat (i - 1))) by lia.
    rewrite Fraction_saldo_step. unfold s in Hr. rewrite <- Hr. ring.
Qed.

Lemma Fraction_split (i : Z) :
  (1 <= i <= prazo)%Z ->
  Juros (linha_i i) + Amortizacao (linha_i i) == pa.
Proof.
  intros Hi. rewrite Fraction_amortizacao_geo, Fraction_juros by exact Hi.
  pose proof (Fraction_regular_geo (Z.to_nat (i - 1))) as Hr.
  rewrite Z2Nat.id in Hr by lia. rewrite <- Hr. ring.
Qed.

Lemma Fraction_juros_nonneg (i : Z) :
  (1 <= i <= prazo)%Z -> 0 <= Juros (linha_i i).
Proof.
  intros Hi. rewrite Fraction_juros.
  apply Qmult_le_0_compat; [|exact Htm].
  apply Fraction_saldo_nonneg. lia.
Qed.

Lemma Fraction_soma_juros :
  Qsum (map (@Juros Q) (map linha_i (range 1 (prazo + 1))))
  == inject_Z prazo * pa - principal.
Proof.
  pose proof (Fraction_soma_juros_prefix (Z.to_nat prazo)) as Hs.
  rewrite Z2Nat.id in Hs by lia. rewrite Hs.
  pose proof (Fraction_saldo_final principal tm pa prazo Hprazo Hgeo) as Hf.
  unfold s. rewrite Hf. ring.
Qed.

End Valid.

End FractionRows.

Lemma Qsum_filter_split {A : Type} (f : A -> Q) (k : A -> bool) (l : list A) :
  (Qsum (map f (filter k l)) + Qsum (map f (filter (fun x => negb (k x)) l))
   == Qsum (map f l))%Q.
Proof.
  unfold Qsum. induction l as [|a l IH]; cbn [filter map fold_right].
  - ring.
  - destruct (k a); cbn [negb map fold_right]; rewrite <- IH; ring.
Qed.

Lemma Qsum_nonneg (l : list Q) :
  Forall (fun x => 0 <= x)%Q l -> (0 <= Qsum l)%Q.
Proof.
  unfold Qsum. induction 1 as [|x l Hx Hall IH]; cbn [fold_right].
  - apply Qle_refl.
  - lra.
Qed.

(** ** Further properties of the schedule and of the classification *)

(** Round trip of the [Data] column: parsing with [%d/%m/%Y] what
    [strftime('%d/%m/%Y')] wrote for a calendar day with a four-digit year
    gives that day back, at midnight. *)
Theorem data_ida_e_volta (t : Timestamp) :
  Timestamp_valid t = true ->
  to_datetime_dmY (strftime_dmY t) = Ok (normalize t).
Proof. exact (to_datetime_strftime t). Qed.

Lemma data_ida_e_volta_witness :
  Timestamp_valid trinta_e_um_de_janeiro = true /\
  to_datetime_dmY (strftime_dmY trinta_e_um_de_janeiro)
    = Ok (normalize trinta_e_um_de_janeiro).
Proof.
  split; [reflexivity|].
  apply (data_ida_e_volta trinta_e_um_de_janeiro). reflexivity.
Defined.

(** The due dates of a generated schedule are strictly increasing: of two
    rows, the one with the smaller number falls due in an earlier month. *)
Theorem vencimentos_crescentes {T : Type} `{Number T}
    (principal taxa : T) (prazo : Z) (data_inicio : Timestamp)
    (rows : list (Row T)) :
  gerar_tabela_amortizacao principal taxa prazo data_inicio = Ok (Table rows) ->
  Timestamp_valid data_inicio = true ->
  year data_inicio + prazo / 12 + 1 <= 9999 ->
  forall r1 r2, In r1 rows -> In r2 rows -> Parcela r1 < Parcela r2 ->
    Timestamp_compare (data_de r1) (data_de r2) = Lt.
Proof.
  intros Hrows Hv Hy r1 r2 H1 H2 Hlt.
  destruct (tabela_data_de _ _ _ _ _ Hrows Hv Hy r1 H1) as (_ & _ & ->).
  destruct (tabela_data_de _ _ _ _ _ Hrows Hv Hy r2 H2) as (_ & _ & ->).
  apply Timestamp_compare_month_lt.
  apply (relativedelta_months_month_lt data_inicio _ _ Hlt).
Qed.

Lemma vencimentos_crescentes_witness :
  match gerar_tabela_amortizacao 100000%Q 12%Q 3 trinta_e_um_de_janeiro with
  | Ok (Table rows) =>
      forall r1 r2, In r1 rows -> In r2 rows -> Parcela r1 < Parcela r2 ->
        Timestamp_compare (data_de r1) (data_de r2) = Lt
  | _ => False
  end.
Proof.
  destruct (gerar_tabela_amortizacao 100000%Q 12%Q 3 trinta_e_um_de_janeiro)
    as [[|rows]|e] eqn:Hg.
  - vm_compute in Hg. discriminate.
  - apply (vencimentos_crescentes _ _ _ _ rows Hg).
    + reflexivity.
    + vm_compute. discriminate.
  - vm_compute in Hg. discriminate.
Defined.

(** Classifying a generated schedule cuts it in two: when the cut-off date
    is not past year 9999 the classification is returned, the current bucket
    is an initial segment of the schedule and the non-current bucket is the
    rest; when it is past year 9999, [ValueError] is raised. *)
Theorem classificacao_em_prefixo {T : Type} `{Number T}
    (principal taxa : T) (prazo : Z) (data_inicio data_base : Timestamp)
    (rows : list (Row T)) :
  gerar_tabela_amortizacao principal taxa prazo data_inicio = Ok (Table rows) ->
  Timestamp_valid data_inicio = true ->
  year data_inicio + prazo / 12 + 1 <= 9999 ->
  (is_ok (DateOffset_months data_base 12) = true ->
   exists curto longo k,
     analisar_prazo_contabil (Table rows) data_base = Ok (curto, longo) /\
     map row curto = firstn k rows /\
     map row longo = skipn k rows) /\
  (is_ok (DateOffset_months data_base 12) = false ->
   analisar_prazo_contabil (Table rows) data_base = Raise ValueError).
Proof.
  intros Hrows Hv Hy. split.
  - exact (classificacao_prefixo _ _ _ _ rows Hrows Hv Hy data_base).
  - apply analisar_prazo_contabil_sem_limite.
Qed.

Lemma classificacao_em_prefixo_witness :
  match gerar_tabela_amortizacao 100000%Q 12%Q 14 trinta_e_um_de_janeiro with
  | Ok (Table rows) =>
      (exists curto longo k,
         analisar_prazo_contabil (Table rows) quinze_de_junho_2023
           = Ok (curto, longo) /\
         map row curto = firstn k rows /\
         map row longo = skipn k rows) /\
      analisar_prazo_contabil (Table rows) quinze_de_junho_9999
        = Raise ValueError /\
      (exists curto longo,
         analisar_prazo_contabil (Table rows) quinze_de_junho_2023
           = Ok (curto, longo) /\
         map (fun x => Parcela (row x)) curto = [1; 2; 3; 4] /\
         map (fun x => Parcela (row x)) longo
           = [5; 6; 7; 8; 9; 10; 11; 12; 13; 14])
  | _ => False
  end.
Proof.
  destruct (gerar_tabela_amortizacao 100000%Q 12%Q 14 trinta_e_um_de_janeiro)
    as [[|rows]|e] eqn:Hg.
  - vm_compute in Hg. discriminate.
  - assert (Hv : Timestamp_valid trinta_e_um_de_janeiro = true) by reflexivity.
    assert (Hy : year trinta_e_um_de_janeiro + 14 / 12 + 1 <= 9999)
      by (vm_compute; discriminate).
    split; [|split].
    + apply (proj1 (classificacao_em_prefixo _ _ _ _ quinze_de_junho_2023
                      rows Hg Hv Hy)).
      reflexivity.
    + apply (proj2 (classificacao_em_prefixo _ _ _ _ quinze_de_junho_9999
                      rows Hg Hv Hy)).
      reflexivity.
    + vm_compute in Hg. inversion Hg; subst rows. clear Hg.
      do 2 eexists. split; [vm_compute; reflexivity|].
      split; reflexivity.
  - vm_compute in Hg. discriminate.
Defined.

(** When the base date is the loan's start date, the current bucket holds
    the first twelve instalments (all of them when there are fewer) and the
    non-current bucket the instalments from the thirteenth on. *)
Theorem classificacao_doze_primeiras {T : Type} `{Number T}
    (principal taxa : T) (prazo : Z) (data_inicio : Timestamp)
    (rows : list (Row T)) :
  gerar_tabela_amortizacao principal taxa prazo data_inicio = Ok (Table rows) ->
  Timestamp_valid data_inicio = true ->
  year data_inicio + prazo / 12 + 1 <= 9999 ->
  exists curto longo,
    analisar_prazo_contabil (Table rows) data_inicio = Ok (curto, longo) /\
    map row curto = firstn 12 rows /\
    map row longo = skipn 12 rows /\
    (forall x, In x curto -> Parcela (row x) <= 12) /\
    (forall x, In x longo -> 13 <= Parcela (row x)).
Proof.
  intros Hrows Hv Hy.
  exact (classificacao_doze_meses _ _ _ _ rows Hrows Hv Hy).
Qed.

Lemma classificacao_doze_primeiras_witness :
  match gerar_tabela_amortizacao 100000%Q 12%Q 36 primeiro_de_janeiro with
  | Ok (Table rows) =>
      exists curto longo,
        analisar_prazo_contabil (Table rows) primeiro_de_janeiro
          = Ok (curto, longo) /\
        map row curto = firstn 12 rows /\
        map row longo = skipn 12 rows /\
        (forall x, In x curto -> Parcela (row x) <= 12) /\
        (forall x, In x longo -> 13 <= Parcela (row x))
  | _ => False
  end.
Proof.
  destruct (gerar_tabela_amortizacao 100000%Q 12%Q 36 primeiro_de_janeiro)
    as [[|rows]|e] eqn:Hg.
  - vm_compute in Hg. discriminate.
  - apply (classificacao_doze_primeiras _ _ _ _ rows Hg).
    + reflexivity.
    + vm_compute. discriminate.
  - vm_compute in Hg. discriminate.
Defined.

(** A term that is not positive and gets past the payment computation (a
    negative one does) gives a frame without columns, and classifying that
    frame raises: [KeyError] when the cut-off date exists, and [ValueError]
    when it is past year 9999, the cut-off being computed first. *)
Theorem prazo_nao_positivo_sem_colunas {T : Type} `{Number T}
    (principal taxa : T) (prazo : Z) (data_inicio data_base : Timestamp) :
  prazo <= 0 ->
  is_ok (calcular_parcela principal taxa prazo) = true ->
  gerar_tabela_amortizacao principal taxa prazo data_inicio = Ok NoColumns /\
  (df <- gerar_tabela_amortizacao principal taxa prazo data_inicio ;;
   analisar_prazo_contabil df data_base)
  = Raise (if is_ok (DateOffset_months data_base 12)
           then KeyError else ValueError).
Proof.
  intros Hn Hok.
  assert (Hg : gerar_tabela_amortizacao principal taxa prazo data_inicio
               = Ok NoColumns).
  { rewrite gerar_tabela_amortizacao_eq.
    destruct (taxa_mensal_de taxa) as [tm|e] eqn:Htm.
    - destruct (calcular_parcela principal taxa prazo); [|discriminate].
      rewrite range_empty by lia. reflexivity.
    - unfold calcular_parcela in Hok. rewrite Htm in Hok. discriminate. }
  split; [exact Hg|]. rewrite Hg. cbn [bind].
  destruct (is_ok (DateOffset_months data_base 12)) eqn:Hlim.
  - unfold analisar_prazo_contabil.
    destruct (DateOffset_months data_base 12); [reflexivity|discriminate].
  - now apply analisar_prazo_contabil_sem_limite.
Qed.

Lemma prazo_nao_positivo_sem_colunas_witness :
  (@gerar_tabela_amortizacao float binary64 1000%float 0%float (-3)
     primeiro_de_janeiro = Ok NoColumns /\
   (df <- @gerar_tabela_amortizacao float binary64 1000%float 0%float (-3)
            primeiro_de_janeiro ;;
    analisar_prazo_contabil df primeiro_de_janeiro) = Raise KeyError) /\
  (@gerar_tabela_amortizacao float binary64 1000%float 0%float (-3)
     primeiro_de_janeiro = Ok NoColumns /\
   (df <- @gerar_tabela_amortizacao float binary64 1000%float 0%float (-3)
            primeiro_de_janeiro ;;
    analisar_prazo_contabil df quinze_de_junho_9999) = Raise ValueError).
Proof.
  split.
  - apply (@prazo_nao_positivo_sem_colunas float binary64 1000%float 0%float
             (-3) primeiro_de_janeiro primeiro_de_janeiro).
    + lia.
    + vm_compute. reflexivity.
  - apply (@prazo_nao_positivo_sem_colunas float binary64 1000%float 0%float
             (-3) primeiro_de_janeiro quinze_de_junho_9999).
    + lia.
    + vm_compute. reflexivity.
Defined.

(** ** Further properties with exact arithmetic *)

Lemma Fraction_valid_schedule (principal taxa : Q) (prazo : Z)
    (data_inicio : Timestamp) (rows : list (Row Q)) :
  (0 <= taxa)%Q -> 1 <= prazo ->
  gerar_tabela_amortizacao principal taxa prazo data_inicio = Ok (Table rows) ->
  exists tm pa,
    taxa_mensal_de taxa = Ok tm /\
    calcular_parcela principal taxa prazo = Ok pa /\
    (tm == taxa / 12 / 100)%Q /\ (0 <= tm)%Q /\
    (pa * geo (1 + tm) (Z.to_nat prazo) == principal * (1 + tm) ^ prazo)%Q /\
    rows = map (linha principal tm pa prazo data_inicio) (range 1 (prazo + 1)).
Proof.
  intros Ht Hn Hrows.
  destruct (gerar_tabela_amortizacao_Table _ _ _ _ _ Hrows)
    as (tm & pa & Htm & Hpa & _ & Heq).
  destruct (Fraction_taxa_mensal_de taxa) as (tm' & Htm' & Hr).
  rewrite Htm in Htm'. inversion Htm'; subst tm'. clear Htm'.
  destruct (Fraction_parcela_geo principal taxa prazo Ht Hn tm pa Htm Hpa)
    as [H0 Hgeo].
  exists tm, pa. repeat (split; [assumption|]). exact Heq.
Qed.

(** With exact arithmetic and a valid input every row splits its payment:
    interest plus principal portion is the payment, in the last row too (its
    correction is then zero). *)
Theorem prestacao_juros_mais_amortizacao (principal taxa : Q) (prazo : Z)
    (data_inicio : Timestamp) (rows : list (Row Q)) :
  (0 < principal)%Q -> (0 <= taxa)%Q -> 1 <= prazo ->
  gerar_tabela_amortizacao principal taxa prazo data_inicio = Ok (Table rows) ->
  forall r, In r rows -> (Juros r + Amortizacao r == Prestacao r)%Q.
Proof.
  intros HP Ht Hn Hrows r Hr.
  destruct (Fraction_valid_schedule principal taxa prazo data_inicio rows
              Ht Hn Hrows)
    as (tm & pa & _ & _ & _ & H0 & Hgeo & ->).
  apply in_map_iff in Hr. destruct Hr as (i & <- & Hi).
  apply range_In in Hi.
  rewrite (Fraction_split principal tm pa prazo data_inicio Hn Hgeo) by lia.
  reflexivity.
Qed.

Lemma prestacao_juros_mais_amortizacao_witness :
  match gerar_tabela_amortizacao 100000%Q 12%Q 36 primeiro_de_janeiro with
  | Ok (Table rows) =>
      forall r, In r rows -> (Juros r + Amortizacao r == Prestacao r)%Q
  | _ => False
  end.
Proof.
  destruct (gerar_tabela_amortizacao 100000%Q 12%Q 36 primeiro_de_janeiro)
    as [[|rows]|e] eqn:Hg.
  - vm_compute in Hg. discriminate.
  - apply (prestacao_juros_mais_amortizacao 100000%Q 12%Q 36
             primeiro_de_janeiro rows); try exact Hg.
    + reflexivity.
    + discriminate.
    + lia.
  - vm_compute in Hg. discriminate.
Defined.

(** With exact arithmetic and a valid input the principal portions are
    positive and grow geometrically: row [i] pays off the first portion,
    [parcela - principal * taxa_mensal], compounded [i - 1] times at the
    monthly rate. *)
Theorem amortizacao_geometrica (principal taxa : Q) (prazo : Z)
    (data_inicio : Timestamp) (rows : list (Row Q)) :
  (0 < principal)%Q -> (0 <= taxa)%Q -> 1 <= prazo ->
  gerar_tabela_amortizacao principal taxa prazo data_inicio = Ok (Table rows) ->
  exists taxa_mensal parcela,
    taxa_mensal_de taxa = Ok taxa_mensal /\
    calcular_parcela principal taxa prazo = Ok parcela /\
    (principal * taxa_mensal < parcela)%Q /\
    forall r, In r rows ->
      (Amortizacao r
       == (parcela - principal * taxa_mensal)
          * (1 + taxa_mensal) ^ (Parcela r - 1))%Q /\
      (0 < Amortizacao r)%Q.
Proof.
  intros HP Ht Hn Hrows.
  destruct (Fraction_valid_schedule principal taxa prazo data_inicio rows
              Ht Hn Hrows)
    as (tm & pa & Htm & Hpa & _ & H0 & Hgeo & ->).
  pose proof (Fraction_parcela_gt_juros principal tm pa prazo HP H0 Hn Hgeo)
    as Hgt.
  exists tm, pa. split; [exact Htm|]. split; [exact Hpa|]. split; [exact Hgt|].
  intros r Hr. apply in_map_iff in Hr. destruct Hr as (i & <- & Hi).
  apply range_In in Hi. cbn [Parcela linha].
  assert (Ha := Fraction_amortizacao_geo principal tm pa prazo data_inicio
                  Hn Hgeo i ltac:(lia)).
  split; [exact Ha|]. rewrite Ha.
  apply Qmult_lt_0_compat; [lra|]. apply Qpower_0_lt. lra.
Qed.

Lemma amortizacao_geometrica_witness :
  match gerar_tabela_amortizacao 100000%Q 12%Q 36 primeiro_de_janeiro with
  | Ok (Table rows) =>
      exists taxa_mensal parcela,
        taxa_mensal_de 12%Q = Ok taxa_mensal /\
        calcular_parcela 100000%Q 12%Q 36 = Ok parcela /\
        (100000 * taxa_mensal < parcela)%Q /\
        forall r, In r rows ->
          (Amortizacao r
           == (parcela - 100000 * taxa_mensal)
              * (1 + taxa_mensal) ^ (Parcela r - 1))%Q /\
          (0 < Amortizacao r)%Q
  | _ => False
  end.
Proof.
  destruct (gerar_tabela_amortizacao 100000%Q 12%Q 36 primeiro_de_janeiro)
    as [[|rows]|e] eqn:Hg.
  - vm_compute in Hg. discriminate.
  - apply (amortizacao_geometrica 100000%Q 12%Q 36
             primeiro_de_janeiro rows); try exact Hg.
    + reflexivity.
    + discriminate.
    + lia.
  - vm_compute in Hg. discriminate.
Defined.

Lemma Fraction_juros_totais (principal taxa : Q) (prazo : Z)
    (data_inicio : Timestamp) (rows : list (Row Q)) (parcela : Q) :
  (0 < principal)%Q -> (0 <= taxa)%Q -> 1 <= prazo ->
  gerar_tabela_amortizacao principal taxa prazo data_inicio = Ok (Table rows) ->
  calcular_parcela principal taxa prazo = Ok parcela ->
  (forall r, In r rows -> (0 <= Juros r)%Q) /\
  (soma (map (@Juros Q) rows) == parcela * inject_Z prazo - principal)%Q /\
  (0 <= parcela * inject_Z prazo - principal)%Q.
Proof.
  intros HP Ht Hn Hrows Hparc.
  destruct (Fraction_valid_schedule principal taxa prazo data_inicio rows
              Ht Hn Hrows)
    as (tm & pa & Htm & Hpa & _ & H0 & Hgeo & ->).
  rewrite Hparc in Hpa. inversion Hpa; subst pa. clear Hpa.
  assert (Hnn : forall r,
            In r (map (linha principal tm parcela prazo data_inicio)
                      (range 1 (prazo + 1))) -> (0 <= Juros r)%Q).
  { intros r Hr. apply in_map_iff in Hr. destruct Hr as (i & <- & Hi).
    apply range_In in Hi.
    apply (Fraction_juros_nonneg principal tm parcela prazo data_inicio
             HP H0 Hn Hgeo). lia. }
  assert (Hsum : (soma (map (@Juros Q)
                    (map (linha principal tm parcela prazo data_inicio)
                         (range 1 (prazo + 1))))
                  == parcela * inject_Z prazo - principal)%Q).
  { rewrite Fraction_soma,
      (Fraction_soma_juros principal tm parcela prazo data_inicio Hn Hgeo).
    ring. }
  split; [exact Hnn|]. split; [exact Hsum|].
  rewrite <- Hsum, Fraction_soma. apply Qsum_nonneg.
  apply Forall_forall. intros x Hx. apply in_map_iff in Hx.
  destruct Hx as (r & <- & Hr). now apply Hnn.
Qed.

(** With exact arithmetic and a valid input no row carries negative
    interest, and the interest of all rows adds up to the total interest the
    summary shows, [parcela * prazo - principal]. *)
Theorem juros_totais (principal taxa : Q) (prazo : Z)
    (data_inicio : Timestamp) (rows : list (Row Q)) (parcela : Q) :
  (0 < principal)%Q -> (0 <= taxa)%Q -> 1 <= prazo ->
  gerar_tabela_amortizacao principal taxa prazo data_inicio = Ok (Table rows) ->
  calcular_parcela principal taxa prazo = Ok parcela ->
  (forall r, In r rows -> (0 <= Juros r)%Q) /\
  (soma (map (@Juros Q) rows) == parcela * inject_Z prazo - principal)%Q /\
  (0 <= parcela * inject_Z prazo - principal)%Q.
Proof. exact (Fraction_juros_totais principal taxa prazo data_inicio rows parcela). Qed.

Lemma juros_totais_witness :
  match gerar_tabela_amortizacao 100000%Q 12%Q 36 primeiro_de_janeiro,
        calcular_parcela 100000%Q 12%Q 36 with
  | Ok (Table rows), Ok parcela =>
      (forall r, In r rows -> (0 <= Juros r)%Q) /\
      (soma (map (@Juros Q) rows) == parcela * inject_Z 36 - 100000)%Q /\
      (0 <= parcela * inject_Z 36 - 100000)%Q
  | _, _ => False
  end.
Proof.
  destruct (gerar_tabela_amortizacao 100000%Q 12%Q 36 primeiro_de_janeiro)
    as [[|rows]|e] eqn:Hg;
    [vm_compute in Hg; discriminate| |vm_compute in Hg; discriminate].
  destruct (calcular_parcela 100000%Q 12%Q 36) as [parcela|e] eqn:Hp;
    [|vm_compute in Hp; discriminate].
  apply (juros_totais 100000%Q 12%Q 36 primeiro_de_janeiro rows parcela);
    try assumption.
  - reflexivity.
  - discriminate.
  - lia.
Defined.

(** Interest-free loans with exact arithmetic: when the rate is zero every
    row has payment [principal / prazo], no interest, and principal portion
    [principal / prazo]. *)
Theorem taxa_zero_linear (principal taxa : Q) (prazo : Z)
    (data_inicio : Timestamp) (rows : list (Row Q)) :
  (0 < principal)%Q -> (taxa == 0)%Q -> 1 <= prazo ->
  gerar_tabela_amortizacao principal taxa prazo data_inicio = Ok (Table rows) ->
  forall r, In r rows ->
    (Prestacao r == principal / inject_Z prazo)%Q /\
    (Juros r == 0)%Q /\
    (Amortizacao r == principal / inject_Z prazo)%Q.
Proof.
  intros HP Hz Hn Hrows r Hr.
  assert (Ht : (0 <= taxa)%Q) by (rewrite Hz; apply Qle_refl).
  destruct (Fraction_valid_schedule principal taxa prazo data_inicio rows
              Ht Hn Hrows)
    as (tm & pa & Htm & Hpa & Hr0 & H0 & Hgeo & ->).
  assert (Htm0 : (tm == 0)%Q) by (rewrite Hr0, Hz; reflexivity).
  destruct (calcular_parcela_Fraction principal taxa prazo HP Ht Hn)
    as (v & Hv & Hzero & _).
  rewrite Hpa in Hv. inversion Hv; subst v. clear Hv. cbv zeta in Hzero.
  assert (Hpa0 : (pa == principal / inject_Z prazo)%Q).
  { apply Hzero. rewrite <- Hr0. exact Htm0. }
  apply in_map_iff in Hr. destruct Hr as (i & <- & Hi).
  apply range_In in Hi.
  split; [exact Hpa0|].
  assert (Hj : (Juros (linha principal tm pa prazo data_inicio i) == 0)%Q).
  { assert (Hx : forall x, (x * tm == 0)%Q) by (intros x; rewrite Htm0; ring).
    rewrite Fraction_juros. apply Hx. }
  split; [exact Hj|].
  pose proof (Fraction_split principal tm pa prazo data_inicio Hn Hgeo i
                ltac:(lia)) as Hs.
  rewrite Hj in Hs. rewrite <- Hpa0. lra.
Qed.

Lemma taxa_zero_linear_witness :
  match gerar_tabela_amortizacao 12000%Q 0%Q 12 primeiro_de_janeiro with
  | Ok (Table rows) =>
      forall r, In r rows ->
        (Prestacao r == 12000 / inject_Z 12)%Q /\
        (Juros r == 0)%Q /\
        (Amortizacao r == 12000 / inject_Z 12)%Q
  | _ => False
  end.
Proof.
  destruct (gerar_tabela_amortizacao 12000%Q 0%Q 12 primeiro_de_janeiro)
    as [[|rows]|e] eqn:Hg.
  - vm_compute in Hg. discriminate.
  - apply (taxa_zero_linear 12000%Q 0%Q 12 primeiro_de_janeiro rows);
      try exact Hg.
    + reflexivity.
    + reflexivity.
    + lia.
  - vm_compute in Hg. discriminate.
Defined.

(** ** The sums over the two buckets, with exact arithmetic *)

Lemma Fraction_amortizacao_pos (principal taxa : Q) (prazo : Z)
    (data_inicio : Timestamp) (rows : list (Row Q)) :
  (0 < principal)%Q -> (0 <= taxa)%Q -> 1 <= prazo ->
  gerar_tabela_amortizacao principal taxa prazo data_inicio = Ok (Table rows) ->
  forall r, In r rows -> (0 <= Amortizacao r)%Q.
Proof.
  intros HP Ht Hn Hrows r Hr.
  destruct (Fraction_valid_schedule principal taxa prazo data_inicio rows
              Ht Hn Hrows)
    as (tm & pa & _ & _ & _ & H0 & Hgeo & ->).
  pose proof (Fraction_parcela_gt_juros principal tm pa prazo HP H0 Hn Hgeo)
    as Hgt.
  apply in_map_iff in Hr. destruct Hr as (i & <- & Hi).
  apply range_In in Hi.
  rewrite (Fraction_amortizacao_geo principal tm pa prazo data_inicio
             Hn Hgeo i) by lia.
  apply Qmult_le_0_compat; [lra|]. apply Qlt_le_weak, Qpower_0_lt. lra.
Qed.

Lemma Qsum_bucket_nonneg (f : Row Q -> Q) (k : Row Q -> bool)
    (rows : list (Row Q)) :
  (forall r, In r rows -> (0 <= f r)%Q) ->
  (0 <= Qsum (map f (filter k rows)))%Q.
Proof.
  intros Hnn. apply Qsum_nonneg. apply Forall_forall. intros x Hx.
  apply in_map_iff in Hx. destruct Hx as (r & <- & Hr).
  apply filter_In in Hr. now apply Hnn.
Qed.

(** The sums the page shows for the two buckets close, with exact arithmetic
    and a valid loan: whenever the schedule is returned and classified, the
    principal portions of the current and of the non-current bucket add up
    to the principal, their interest adds up to [parcela * prazo -
    principal] (the total interest of the summary), and none of the four
    sums is negative. *)
Theorem somas_dos_prazos (principal taxa : Q) (prazo : Z)
    (data_inicio data_base : Timestamp) (parcela : Q)
    (rows : list (Row Q)) (curto longo : list (RowDt Q)) :
  (0 < principal)%Q -> (0 <= taxa)%Q -> 1 <= prazo ->
  calcular_parcela principal taxa prazo = Ok parcela ->
  gerar_tabela_amortizacao principal taxa prazo data_inicio = Ok (Table rows) ->
  analisar_prazo_contabil (Table rows) data_base = Ok (curto, longo) ->
  (soma_amortizacao curto + soma_amortizacao longo == principal)%Q /\
  (soma_juros curto + soma_juros longo
   == parcela * inject_Z prazo - principal)%Q /\
  (0 <= soma_amortizacao curto)%Q /\ (0 <= soma_amortizacao longo)%Q /\
  (0 <= soma_juros curto)%Q /\ (0 <= soma_juros longo)%Q.
Proof.
  intros HP Ht Hn Hpa Hrows Ha.
  pose proof (Fraction_juros_totais principal taxa prazo data_inicio rows
                parcela HP Ht Hn Hrows Hpa) as (Hjn & Hsj & _).
  pose proof (Fraction_amortizacao_pos principal taxa prazo data_inicio rows
                HP Ht Hn Hrows) as Han.
  rewrite Fraction_soma in Hsj.
  assert (Hsa : (Qsum (map (@Amortizacao Q) rows) == principal)%Q).
  { destruct (Fraction_valid_schedule principal taxa prazo data_inicio rows
                Ht Hn Hrows) as (tm & pa & _ & _ & _ & _ & _ & ->).
    now apply Fraction_soma_amortizacao. }
  apply analisar_prazo_contabil_inv in Ha. cbv zeta in Ha.
  destruct Ha as (_ & _ & -> & ->).
  unfold soma_amortizacao, soma_juros. rewrite !map_map. cbn [row anotar].
  rewrite !Fraction_soma.
  split.
  { rewrite (Qsum_filter_split (fun r : Row Q => Amortizacao r)). exact Hsa. }
  split.
  { rewrite (Qsum_filter_split (fun r : Row Q => Juros r)). exact Hsj. }
  repeat split; now apply Qsum_bucket_nonneg.
Qed.

Lemma somas_dos_prazos_witness :
  match calcular_parcela 100000%Q 12%Q 36,
        gerar_tabela_amortizacao 100000%Q 12%Q 36 primeiro_de_janeiro with
  | Ok parcela, Ok (Table rows) =>
      match analisar_prazo_contabil (Table rows) quinze_de_junho_2023 with
      | Ok (curto, longo) =>
          (soma_amortizacao curto + soma_amortizacao longo == 100000)%Q /\
          (soma_juros curto + soma_juros longo
           == parcela * inject_Z 36 - 100000)%Q /\
          (0 <= soma_amortizacao curto)%Q /\ (0 <= soma_amortizacao longo)%Q /\
          (0 <= soma_juros curto)%Q /\ (0 <= soma_juros longo)%Q
      | Raise _ => False
      end
  | _, _ => False
  end.
Proof.
  destruct (calcular_parcela 100000%Q 12%Q 36) as [parcela|e] eqn:Hp;
    [|vm_compute in Hp; discriminate].
  destruct (gerar_tabela_amortizacao 100000%Q 12%Q 36 primeiro_de_janeiro)
    as [[|rows]|e] eqn:Hg;
    [vm_compute in Hg; discriminate| |vm_compute in Hg; discriminate].
  destruct (analisar_prazo_contabil (Table rows) quinze_de_junho_2023)
    as [[curto longo]|e] eqn:Ha.
  - apply (somas_dos_prazos 100000%Q 12%Q 36 primeiro_de_janeiro
             quinze_de_junho_2023 parcela rows curto longo);
      try assumption.
    + reflexivity.
    + discriminate.
    + lia.
  - vm_compute in Hg. inversion Hg; subst rows.
    vm_compute in Ha. discriminate.
Defined.

(** ** Strings: [replace], character classes *)

Lemma prefix_char (a c : ascii) (rest : string) :
  String.prefix (String a "") (String c rest) = Ascii.eqb c a.
Proof.
  cbn. destruct (ascii_dec a c) as [->|Hne].
  - rewrite Ascii.eqb_refl. now destruct rest.
  - symmetry. apply Ascii.eqb_neq. congruence.
Qed.

Lemma replace_from_char (a b : ascii) (fuel : nat) (s : string) :
  (String.length s <= fuel)%nat ->
  replace_from fuel (String a "") (String b "") s
  = map_string (fun c => if Ascii.eqb c a then b else c) s.
Proof.
  revert s. induction fuel as [|fuel IH]; intros s Hlen.
  - destruct s; [reflexivity|cbn in Hlen; lia].
  - destruct s as [|c rest]; [reflexivity|].
    cbn [replace_from map_string]. rewrite prefix_char.
    cbn [String.length drop] in *.
    destruct (Ascii.eqb c a); cbn [append]; rewrite IH by lia; reflexivity.
Qed.

(** Replacing one character by another is a character-wise substitution. *)
Lemma replace_char (a b : ascii) (s : string) :
  replace (String a "") (String b "") s
  = map_string (fun c => if Ascii.eqb c a then b else c) s.
Proof. unfold replace. now apply replace_from_char. Qed.

Lemma all_chars_app (p : ascii -> bool) (s1 s2 : string) :
  all_chars p (s1 ++ s2) = all_chars p s1 && all_chars p s2.
Proof.
  induction s1 as [|c s1 IH]; cbn; [reflexivity|].
  now rewrite IH, andb_assoc.
Qed.

Lemma all_chars_weaken (p q : ascii -> bool) (s : string) :
  (forall c, p c = true -> q c = true) ->
  all_chars p s = true -> all_chars q s = true.
Proof.
  intros Hpq. induction s as [|c s IH]; cbn; [reflexivity|].
  intros Hs. apply andb_prop in Hs. destruct Hs as [Hc Hs].
  now rewrite (Hpq c Hc), IH.
Qed.

Lemma all_chars_of_list (p : ascii -> bool) (l : list ascii) :
  all_chars p (string_of_list_ascii l) = forallb p l.
Proof. induction l as [|c l IH]; cbn; [reflexivity|]. now rewrite IH. Qed.

Lemma forallb_list_of_string (p : ascii -> bool) (s : string) :
  forallb p (list_ascii_of_string s) = all_chars p s.
Proof. induction s as [|c s IH]; cbn; [reflexivity|]. now rewrite IH. Qed.

Lemma map_string_app (f : ascii -> ascii) (s1 s2 : string) :
  map_string f (s1 ++ s2) = (map_string f s1 ++ map_string f s2)%string.
Proof. induction s1 as [|c s1 IH]; cbn; [reflexivity|]. now rewrite IH. Qed.

Lemma map_string_length (f : ascii -> ascii) (s : string) :
  String.length (map_string f s) = String.length s.
Proof. induction s as [|c s IH]; cbn; [reflexivity|]. now rewrite IH. Qed.

Lemma group3_rev_In (n : nat) (l : list ascii) (x : ascii) :
  (List.length l <= n)%nat ->
  In x (group3_rev l) -> x = ","%char \/ In x l.
Proof.
  revert l. induction n as [|n IH]; intros l Hlen Hin.
  - destruct l; [now right|cbn in Hlen; lia].
  - destruct l as [|a [|b [|c [|d rest]]]]; try (now right).
    change (group3_rev (a :: b :: c :: d :: rest))
      with (a :: b :: c :: ","%char :: group3_rev (d :: rest)) in Hin.
    cbn [List.length] in Hlen.
    apply in_inv in Hin. destruct Hin as [<-|Hin]; [right; now left|].
    apply in_inv in Hin. destruct Hin as [<-|Hin]; [right; right; now left|].
    apply in_inv in Hin.
    destruct Hin as [<-|Hin]; [right; do 2 right; now left|].
    apply in_inv in Hin. destruct Hin as [<-|Hin]; [now left|].
    apply IH in Hin; [|cbn [List.length]; lia].
    destruct Hin as [->|Hin]; [now left|].
    right. do 3 right. exact Hin.
Qed.

Lemma group3_all_chars (p : ascii -> bool) (s : string) :
  p ","%char = true -> all_chars p s = true -> all_chars p (group3 s) = true.
Proof.
  intros Hc Hs. unfold group3. rewrite all_chars_of_list.
  apply forallb_forall. intros x Hx. apply in_rev in Hx.
  apply (group3_rev_In _ _ _ (le_n _)) in Hx.
  destruct Hx as [->|Hx]; [exact Hc|].
  apply in_rev in Hx. rewrite <- forallb_list_of_string in Hs.
  rewrite forallb_forall in Hs. now apply Hs.
Qed.

Lemma is_digit_digit_char (n : Z) : is_digit (digit_char n) = true.
Proof. unfold is_digit. now rewrite digit_val_char. Qed.

Lemma string_of_uint_digits (u : Decimal.uint) :
  all_chars is_digit (NilEmpty.string_of_uint u) = true.
Proof. induction u; cbn; auto. Qed.

Lemma NilZero_string_of_uint_digits (u : Decimal.uint) :
  all_chars is_digit (NilZero.string_of_uint u) = true.
Proof.
  unfold NilZero.string_of_uint.
  destruct u; try apply string_of_uint_digits. reflexivity.
Qed.

Lemma is_digit_range (c : ascii) :
  is_digit c = true -> (48 <= nat_of_ascii c <= 57)%nat.
Proof.
  unfold is_digit, digit_val.
  destruct ((48 <=? Z.of_nat (nat_of_ascii c))
            && (Z.of_nat (nat_of_ascii c) <=? 57)) eqn:Hb; [|discriminate].
  intros _. apply andb_prop in Hb. destruct Hb as [H1 H2].
  apply Z.leb_le in H1, H2. lia.
Qed.

(** ** The characters of a formatted amount *)

(** A character of a finite amount: a digit, a separator or the sign. *)
Lemma format_comma_2f_chars (x : float) :
  float_is_nan x = false -> float_is_inf x = false ->
  all_chars (fun c => is_digit c || Ascii.eqb c "," || Ascii.eqb c "."
                      || Ascii.eqb c "-")
            (format_comma_2f x) = true.
Proof.
  intros Hnan Hinf. unfold format_comma_2f. rewrite Hnan, Hinf. cbv zeta.
  set (p := fun c => is_digit c || Ascii.eqb c "," || Ascii.eqb c "."
                     || Ascii.eqb c "-").
  assert (Hd : forall c, is_digit c = true -> p c = true)
    by (intros c Hc; unfold p; now rewrite Hc).
  assert (H1 : all_chars p (if sign_bit x then "-" else "") = true)
    by (destruct (sign_bit x); reflexivity).
  assert (H2 : all_chars p
                 (group3 (NilZero.string_of_uint
                            (N.to_uint (Z.to_N (cents_of x / 100))))) = true).
  { apply group3_all_chars; [reflexivity|].
    apply (all_chars_weaken is_digit); [exact Hd|].
    apply NilZero_string_of_uint_digits. }
  assert (H3 : all_chars p
                 (String (digit_char (cents_of x mod 100 / 10))
                    (String (digit_char (cents_of x mod 100)) "")) = true).
  { cbn [all_chars]. rewrite !Hd by apply is_digit_digit_char. reflexivity. }
  rewrite !all_chars_app, H1, H2, H3. reflexivity.
Qed.

Lemma amount_char_not (k : ascii) (c : ascii) :
  is_digit k = false -> Ascii.eqb k "," = false -> Ascii.eqb k "." = false ->
  Ascii.eqb k "-" = false ->
  is_digit c || Ascii.eqb c "," || Ascii.eqb c "." || Ascii.eqb c "-" = true ->
  negb (Ascii.eqb c k) = true.
Proof.
  intros H1 H2 H3 H4 Hc. destruct (Ascii.eqb c k) eqn:Heq; [|reflexivity].
  apply Ascii.eqb_eq in Heq. subst c.
  rewrite H1, H2, H3, H4 in Hc. discriminate.
Qed.

(** A character [k] that is neither a digit, a separator, the sign nor a
    letter of [nan] and [inf] occurs in no formatted amount. *)
Lemma format_comma_2f_sem (k : ascii) (x : float) :
  is_digit k = false -> Ascii.eqb k "," = false -> Ascii.eqb k "." = false ->
  Ascii.eqb k "-" = false ->
  all_chars (fun c => negb (Ascii.eqb c k)) "nan-inf" = true ->
  all_chars (fun c => negb (Ascii.eqb c k)) (format_comma_2f x) = true.
Proof.
  intros H1 H2 H3 H4 Hw.
  destruct (float_is_nan x) eqn:Hnan.
  { unfold format_comma_2f. rewrite Hnan.
    cbn [all_chars] in *. repeat (apply andb_prop in Hw; destruct Hw as [? Hw]).
    repeat (apply andb_true_intro; split); auto. }
  destruct (float_is_inf x) eqn:Hinf.
  { unfold format_comma_2f. rewrite Hnan, Hinf.
    cbn [all_chars] in *. repeat (apply andb_prop in Hw; destruct Hw as [? Hw]).
    destruct (sign_bit x); cbn [all_chars];
      repeat (apply andb_true_intro; split); auto. }
  apply (all_chars_weaken _ _ _ (fun c => amount_char_not k c H1 H2 H3 H4)).
  now apply format_comma_2f_chars.
Qed.

(** ** The separator swap *)

Lemma separadores_trocados (s : string) :
  all_chars (fun c => negb (Ascii.eqb c "X")) s = true ->
  replace "X" "." (replace "." "," (replace "," "X" s)) = map_string swap_sep s.
Proof.
  rewrite !replace_char. induction s as [|c s IH]; cbn [all_chars map_string].
  - reflexivity.
  - intros Hs. apply andb_prop in Hs. destruct Hs as [Hc Hs].
    rewrite (IH Hs). f_equal. unfold swap_sep.
    apply negb_true_iff in Hc.
    destruct (Ascii.eqb c ",") eqn:Hcomma.
    + reflexivity.
    + destruct (Ascii.eqb c ".") eqn:Hdot.
      * reflexivity.
      * now rewrite Hc.
Qed.

Lemma all_chars_map (p q : ascii -> bool) (f : ascii -> ascii) (s : string) :
  (forall c, p c = true -> q (f c) = true) ->
  all_chars p s = true -> all_chars q (map_string f s) = true.
Proof.
  intros Hpq. induction s as [|c s IH]; cbn; [reflexivity|].
  intros Hs. apply andb_prop in Hs. destruct Hs as [Hc Hs].
  now rewrite (Hpq c Hc), IH.
Qed.

Lemma swap_sep_amount_char (c : ascii) :
  is_digit c || Ascii.eqb c "," || Ascii.eqb c "." || Ascii.eqb c "-" = true ->
  is_digit (swap_sep c) || Ascii.eqb (swap_sep c) "."
  || Ascii.eqb (swap_sep c) "," || Ascii.eqb (swap_sep c) "-" = true.
Proof.
  unfold swap_sep.
  destruct (Ascii.eqb c ",") eqn:E1; [reflexivity|].
  destruct (Ascii.eqb c ".") eqn:E2; [reflexivity|].
  rewrite E1, E2. now rewrite !orb_false_r.
Qed.

(** Every amount shown goes from the US to the Brazilian convention: the
    chain of three [replace] exchanges [,] and [.] in the formatted number
    and changes nothing else, whatever the float (the auxiliary [X] never
    occurs in a formatted number).  So 100000.0 is shown as
    [R$ 100.000,00] and 3321.430981285117 as [R$ 3.321,43]. *)
Theorem formatar_reais_troca_separadores :
  (forall x : float,
      formatar_reais x
      = ("R$ " ++ map_string swap_sep (format_comma_2f x))%string) /\
  (forall x : float,
      float_is_nan x = false -> float_is_inf x = false ->
      all_chars (fun c => is_digit c || Ascii.eqb c "." || Ascii.eqb c ","
                          || Ascii.eqb c "-")
                (map_string swap_sep (format_comma_2f x)) = true) /\
  formatar_reais 100000%float = "R$ 100.000,00"%string /\
  formatar_reais 3321.430981285117%float = "R$ 3.321,43"%string /\
  formatar_reais 0.125%float = "R$ 0,12"%string /\
  formatar_reais 1234567.891%float = "R$ 1.234.567,89"%string.
Proof.
  split.
  { intros x. unfold formatar_reais. rewrite separadores_trocados.
    - now rewrite map_string_app.
    - rewrite all_chars_app. apply andb_true_intro. split; [reflexivity|].
      apply format_comma_2f_sem; reflexivity. }
  split.
  { intros x Hnan Hinf.
    apply (all_chars_map _ _ _ _ swap_sep_amount_char).
    now apply format_comma_2f_chars. }
  repeat split; vm_compute; reflexivity.
Qed.

Lemma formatar_reais_troca_separadores_witness :
  all_chars (fun c => is_digit c || Ascii.eqb c "." || Ascii.eqb c ","
                      || Ascii.eqb c "-")
            (map_string swap_sep (format_comma_2f 3321.430981285117%float))
  = true.
Proof.
  apply (proj1 (proj2 formatar_reais_troca_separadores)).
  - reflexivity.
  - reflexivity.
Defined.

(** ** The text of the suggested entries *)

Lemma sem_2f_app (b : bool) (s1 s2 : string) :
  sem_2f b (s1 ++ s2) = sem_2f b s1 && sem_2f (termina_em_2 b s1) s2.
Proof.
  revert b. induction s1 as [|c s1 IH]; intros b; cbn; [reflexivity|].
  now rewrite IH, andb_assoc.
Qed.

Lemma sem_2f_no_f (b : bool) (s : string) :
  all_chars (fun c => negb (Ascii.eqb c "f")) s = true -> sem_2f b s = true.
Proof.
  revert b. induction s as [|c s IH]; intros b; cbn; [reflexivity|].
  intros Hs. apply andb_prop in Hs. destruct Hs as [Hc Hs].
  apply negb_true_iff in Hc. rewrite Hc, andb_false_r. cbn. now apply IH.
Qed.

Lemma format_comma_2f_sem_2f (b : bool) (x : float) :
  sem_2f b (format_comma_2f x) = true.
Proof.
  destruct (float_is_nan x) eqn:Hnan.
  { unfold format_comma_2f. rewrite Hnan. destruct b; reflexivity. }
  destruct (float_is_inf x) eqn:Hinf.
  { unfold format_comma_2f. rewrite Hnan, Hinf.
    destruct b, (sign_bit x); reflexivity. }
  apply sem_2f_no_f.
  apply (all_chars_weaken _ _ _
           (fun c => amount_char_not "f" c eq_refl eq_refl eq_refl eq_refl)).
  now apply format_comma_2f_chars.
Qed.

Lemma replace_from_sem_2f (fuel : nat) (new : string) (b : bool) (s : string) :
  sem_2f b s = true -> replace_from fuel ",.2f" new s = s.
Proof.
  revert b s. induction fuel as [|fuel IH]; intros b s Hs; [reflexivity|].
  destruct s as [|c rest]; [reflexivity|].
  cbn [replace_from].
  cbn [sem_2f] in Hs. apply andb_prop in Hs. destruct Hs as [_ Hs].
  destruct (String.prefix ",.2f" (String c rest)) eqn:Hp.
  - exfalso. cbn [String.prefix] in Hp.
    destruct (ascii_dec "," c) as [<-|]; [|discriminate].
    destruct rest as [|c1 rest]; cbn [String.prefix] in Hp; [discriminate|].
    destruct (ascii_dec "." c1) as [<-|]; [|discriminate].
    destruct rest as [|c2 rest]; cbn [String.prefix] in Hp; [discriminate|].
    destruct (ascii_dec "2" c2) as [<-|]; [|discriminate].
    destruct rest as [|c3 rest]; cbn [String.prefix] in Hp; [discriminate|].
    destruct (ascii_dec "f" c3) as [<-|]; [|discriminate].
    cbn in Hs. discriminate.
  - f_equal. now apply (IH (Ascii.eqb c "2")).
Qed.

(** The [.replace(',.2f', ...)] applied to the text of the suggested entries
    finds nothing to replace: the f-string has been formatted by then, and
    neither the fixed text nor a formatted amount contains [,.2f].  The three
    amounts of the suggested entries therefore keep the US convention (a
    principal of 100000.0 reads [R$ 100,000.00] there), unlike every other
    amount on the page. *)
Theorem lancamentos_sem_troca (valor_principal valor_curto_prazo
    valor_longo_prazo : float) :
  lancamentos_markdown valor_principal valor_curto_prazo valor_longo_prazo
  = lancamentos_fstring valor_principal valor_curto_prazo valor_longo_prazo /\
  lancamentos_markdown valor_principal valor_curto_prazo valor_longo_prazo
  = (lancamentos_0 ++ format_comma_2f valor_principal
     ++ lancamentos_1 ++ format_comma_2f valor_curto_prazo
     ++ lancamentos_2 ++ format_comma_2f valor_longo_prazo
     ++ lancamentos_3)%string /\
  format_comma_2f 100000%float = "100,000.00"%string.
Proof.
  assert (Hid : lancamentos_markdown valor_principal valor_curto_prazo
                  valor_longo_prazo
                = lancamentos_fstring valor_principal valor_curto_prazo
                    valor_longo_prazo).
  { unfold lancamentos_markdown, replace at 1.
    apply (replace_from_sem_2f _ _ false).
    assert (P0 : sem_2f false lancamentos_0 = true) by (vm_compute; reflexivity).
    assert (P1 : forall b, sem_2f b lancamentos_1 = true)
      by (intros []; vm_compute; reflexivity).
    assert (P2 : forall b, sem_2f b lancamentos_2 = true)
      by (intros []; vm_compute; reflexivity).
    assert (P3 : forall b, sem_2f b lancamentos_3 = true)
      by (intros []; vm_compute; reflexivity).
    unfold lancamentos_fstring.
    rewrite !sem_2f_app, P0, P1, P2, P3, !format_comma_2f_sem_2f.
    reflexivity. }
  split; [exact Hid|]. split; [exact Hid|]. vm_compute. reflexivity.
Qed.

Lemma string_length_app (s1 s2 : string) :
  String.length (s1 ++ s2) = (String.length s1 + String.length s2)%nat.
Proof. induction s1 as [|c s1 IH]; cbn; [reflexivity|]. now rewrite IH. Qed.

(** The name of the exported file has no space left from the loan's name,
    and it is the name's length plus the 24 characters of the suffix. *)
Theorem nome_arquivo_sem_espacos (nome_emprestimo : string) :
  nome_arquivo nome_emprestimo
  = (map_string (fun c => if Ascii.eqb c " " then "_"%char else c)
       nome_emprestimo ++ "_tabela_amortizacao.xlsx")%string /\
  all_chars (fun c => negb (Ascii.eqb c " ")) (nome_arquivo nome_emprestimo)
  = true /\
  String.length (nome_arquivo nome_emprestimo)
  = (String.length nome_emprestimo + 24)%nat.
Proof.
  unfold nome_arquivo. rewrite replace_char.
  split; [reflexivity|]. split.
  - rewrite all_chars_app. apply andb_true_intro. split; [|reflexivity].
    induction nome_emprestimo as [|c s IH]; cbn; [reflexivity|].
    rewrite IH, andb_true_r.
    destruct (Ascii.eqb c " ") eqn:Hc; [reflexivity|]. now rewrite Hc.
  - rewrite string_length_app, map_string_length. reflexivity.
Qed.

(** The rows of a schedule are numbered 1, 2, ..., [prazo] in that order,
    whatever the arithmetic: no number is skipped or repeated. *)
Theorem tabela_numerada {T : Type} `{Number T}
    (principal taxa : T) (prazo : Z) (data_inicio : Timestamp)
    (rows : list (Row T)) :
  gerar_tabela_amortizacao principal taxa prazo data_inicio = Ok (Table rows) ->
  map (@Parcela T) rows = range 1 (prazo + 1) /\
  NoDup (map (@Parcela T) rows) /\
  (forall i, 1 <= i <= prazo -> exists r, In r rows /\ Parcela r = i).
Proof.
  intros Hrows.
  destruct (gerar_tabela_amortizacao_Table _ _ _ _ _ Hrows)
    as (tm & pa & _ & _ & Hn & ->).
  assert (Hmap : map (@Parcela T)
                   (map (linha principal tm pa prazo data_inicio)
                        (range 1 (prazo + 1)))
                 = range 1 (prazo + 1)).
  { rewrite map_map. cbn [Parcela linha]. apply map_id. }
  split; [exact Hmap|]. split.
  - rewrite Hmap. clear Hrows Hmap.
    pose proof (range_sorted 1 (prazo + 1)) as Hs.
    induction Hs as [|i l Hs IH Hall]; [constructor|].
    constructor; [|exact IH].
    intros Hin. rewrite Forall_forall in Hall. specialize (Hall i Hin). lia.
  - intros i Hi. exists (linha principal tm pa prazo data_inicio i).
    split; [|reflexivity]. apply in_map. apply range_In. lia.
Qed.

Lemma tabela_numerada_witness :
  match @gerar_tabela_amortizacao float binary64 1000%float 0%float 6
          primeiro_de_janeiro with
  | Ok (Table rows) =>
      map (@Parcela float) rows = range 1 (6 + 1) /\
      NoDup (map (@Parcela float) rows) /\
      (forall i, 1 <= i <= 6 -> exists r, In r rows /\ Parcela r = i)
  | _ => False
  end.
Proof.
  destruct (@gerar_tabela_amortizacao float binary64 1000%float 0%float 6
              primeiro_de_janeiro) as [[|rows]|e] eqn:Hg.
  - vm_compute in Hg. discriminate.
  - exact (@tabela_numerada float binary64 1000%float 0%float 6
             primeiro_de_janeiro rows Hg).
  - vm_compute in Hg. discriminate.
Defined.
